(** * Code & Brew: the browser-side persistence and validation core

    A shallow embedding of the JavaScript of the repository:
    - [js/contactForm.js]   contact form validation and the inquiries store,
    - the account script    registration validators and the session write,
    - the welcome script    the favourites repository (load/add/update/delete),
    - [js/blog.js]          the filter-and-paginate article renderer,
    - the store-hours script  the open badge and the mobile menu,
    - [js/about.js]         the counters of the statistics.

    JavaScript values are an inductive type, exceptions are an explicit
    outcome, [localStorage] and [sessionStorage] are finite maps from keys
    to strings with the two ways a browser store fails (disabled, full), and
    [JSON.stringify] / [JSON.parse] are a printer and a recursive-descent
    parser over the characters that are really stored.  The parser reads
    the JSON texts whose numbers are integers and whose code units are
    below 256; for any other text [JSON_parse] answers [OutOfModel], so no
    statement about a read speaks of such a store. *)

From Stdlib Require Import ZArith String Ascii List Bool Lia.
From Stdlib Require Import Decimal DecimalFacts DecimalPos DecimalN.
From Stdlib Require QArith.
From stdpp Require Import base option gmap strings.
Import ListNotations.

Local Open Scope Z_scope.
Local Open Scope char_scope.
Local Open Scope list_scope.

(* ===================================================================== *)
(** ** JavaScript values and exceptions *)
(* ===================================================================== *)

(** The values the scripts handle.  A string is a sequence of code units
    below 256; a number is an integer (the identifiers of the store are
    [Date.now()] readings), so [NaN], fractions and exponents are outside
    the embedding.  An integer stands for the double of the same value:
    beyond [2^53] the browser rounds, and from [1e21] on it writes an
    exponent, where the embedding keeps and writes all digits. *)
#[warnings="-register-all"]
Inductive value : Type :=
| VUndef
| VNull
| VBool (b : bool)
| VNum (n : Z)
| VStr (s : string)
| VArr (elems : list value)
| VObj (fields : list (string * value)).

Inductive exn : Type :=
| TypeError
| SyntaxError
| SecurityError
| QuotaExceededError.

(** The result of running a piece of script: a value, an exception that
    propagates to the caller, or [OutOfModel] where the embedding does not
    follow the browser: [JSON.parse] of a text with a number that is not
    an integer or with a code unit from 256 on, a loop over a stored
    object that has a [length] property of its own, and the text [+]
    makes of a number from [1e21] on. *)
Inductive outcome (A : Type) : Type :=
| Ok (a : A)
| Throw (e : exn)
| OutOfModel.
Arguments Ok {A} a.
Arguments Throw {A} e.
Arguments OutOfModel {A}.

#[global] Instance outcome_ret : MRet outcome := @Ok.
#[global] Instance outcome_bind : MBind outcome :=
  fun A B (k : A -> outcome B) (m : outcome A) =>
    match m with
    | Ok a => k a
    | Throw e => Throw e
    | OutOfModel => OutOfModel
    end.

(** [try { body } catch (err) { handler }] *)
Definition try_catch {A} (body : outcome A) (handler : exn -> outcome A)
  : outcome A :=
  match body with
  | Throw e => handler e
  | other => other
  end.

(* ===================================================================== *)
(** ** Objects: ordered own properties *)
(* ===================================================================== *)

Fixpoint lookup_field (k : string) (fs : list (string * value))
  : option value :=
  match fs with
  | [] => None
  | (k', v) :: rest =>
      if String.eqb k k' then Some v else lookup_field k rest
  end.

(** [obj[k] = v] on the property list: an existing property keeps its
    place, a new one goes last. *)
Fixpoint set_field (k : string) (v : value) (fs : list (string * value))
  : list (string * value) :=
  match fs with
  | [] => [(k, v)]
  | (k', v') :: rest =>
      if String.eqb k k' then (k, v) :: rest
      else (k', v') :: set_field k v rest
  end.

(** The own property [k] of an object, or [undefined]. *)
Definition own (fs : list (string * value)) (k : string) : value :=
  match lookup_field k fs with
  | Some v => v
  | None => VUndef
  end.

(** [o.k] as the scripts use it (on parsed JSON and on plain object
    literals): reading a property of [null] or [undefined] is a TypeError;
    a property an object lacks, and any named property of a primitive or of
    an array other than [length], reads as [undefined]. *)
Definition get_prop (o : value) (k : string) : outcome value :=
  match o with
  | VUndef | VNull => Throw TypeError
  | VObj fs => Ok (own fs k)
  | VArr l =>
      Ok (if String.eqb k "length" then VNum (Z.of_nat (List.length l))
          else VUndef)
  | VStr s =>
      Ok (if String.eqb k "length" then VNum (Z.of_nat (String.length s))
          else VUndef)
  | VBool _ | VNum _ => Ok VUndef
  end.

(** [o.k = v] in strict mode (every script starts with ["use strict"]):
    a TypeError on [null], [undefined] and on primitives.  A named property
    set on an array is not part of its JSON form, so the array is left as
    it is. *)
Definition set_prop (o : value) (k : string) (v : value) : outcome value :=
  match o with
  | VObj fs => Ok (VObj (set_field k v fs))
  | VArr l => Ok (VArr l)
  | _ => Throw TypeError
  end.

(** ToBoolean *)
Definition truthy (v : value) : bool :=
  match v with
  | VUndef | VNull => false
  | VBool b => b
  | VNum n => negb (Z.eqb n 0)
  | VStr s => negb (String.eqb s "")
  | VArr _ | VObj _ => true
  end.

(** [a || b] *)
Definition js_or (a b : value) : value := if truthy a then a else b.

(** [a === b] where at least one side comes out of a fresh [JSON.parse] or
    is a primitive: primitives compare by value, and two objects (or
    arrays) are never the same reference. *)
Definition strict_eq (a b : value) : bool :=
  match a, b with
  | VUndef, VUndef => true
  | VNull, VNull => true
  | VBool x, VBool y => Bool.eqb x y
  | VNum x, VNum y => Z.eqb x y
  | VStr x, VStr y => String.eqb x y
  | _, _ => false
  end.

(* ===================================================================== *)
(** ** JSON.stringify *)
(* ===================================================================== *)

Module JSON.

Definition digit_char (n : nat) : ascii :=
  List.nth n ["0";"1";"2";"3";"4";"5";"6";"7";"8";"9";
              "a";"b";"c";"d";"e";"f"] "0".

(** QuoteJSONString on one code unit. *)
Definition escape_char (c : ascii) : list ascii :=
  let n := nat_of_ascii c in
  if Ascii.eqb c "034" then ["\"; "034"]
  else if Ascii.eqb c "\" then ["\"; "\"]
  else if Nat.eqb n 8 then ["\"; "b"]
  else if Nat.eqb n 12 then ["\"; "f"]
  else if Nat.eqb n 10 then ["\"; "n"]
  else if Nat.eqb n 13 then ["\"; "r"]
  else if Nat.eqb n 9 then ["\"; "t"]
  else if Nat.ltb n 32 then
    ["\"; "u"; "0"; "0"; digit_char (Nat.div n 16); digit_char (Nat.modulo n 16)]
  else [c].

Definition quote (s : string) : list ascii :=
  "034" :: List.concat (List.map escape_char (list_ascii_of_string s))
       ++ ["034"].

Fixpoint chars_of_uint (u : uint) : list ascii :=
  match u with
  | Nil => []
  | D0 u => "0" :: chars_of_uint u
  | D1 u => "1" :: chars_of_uint u
  | D2 u => "2" :: chars_of_uint u
  | D3 u => "3" :: chars_of_uint u
  | D4 u => "4" :: chars_of_uint u
  | D5 u => "5" :: chars_of_uint u
  | D6 u => "6" :: chars_of_uint u
  | D7 u => "7" :: chars_of_uint u
  | D8 u => "8" :: chars_of_uint u
  | D9 u => "9" :: chars_of_uint u
  end.

Definition print_number (n : Z) : list ascii :=
  match n with
  | Z0 => ["0"]
  | Zpos p => chars_of_uint (Pos.to_uint p)
  | Zneg p => "-" :: chars_of_uint (Pos.to_uint p)
  end.

(** Comma-separated items. *)
Fixpoint join (items : list (list ascii)) : list ascii :=
  match items with
  | [] => []
  | [x] => x
  | x :: rest => x ++"," :: join rest
  end.

Fixpoint somes {A} (l : list (option A)) : list A :=
  match l with
  | [] => []
  | Some a :: rest => a :: somes rest
  | None :: rest => somes rest
  end.

(** SerializeJSONProperty without indentation.  An [undefined] array
    element is written [null]; a property whose value is [undefined] is
    left out. *)
Fixpoint print (v : value) : list ascii :=
  match v with
  | VUndef | VNull => ["n"; "u"; "l"; "l"]
  | VBool true => ["t"; "r"; "u"; "e"]
  | VBool false => ["f"; "a"; "l"; "s"; "e"]
  | VNum n => print_number n
  | VStr s => quote s
  | VArr l => "[" :: join (List.map print l) ++ ["]"]
  | VObj fs =>
      "{" :: join (somes (List.map
                (fun kv => match snd kv with
                           | VUndef => None
                           | _ => Some (quote (fst kv) ++ ":" :: print (snd kv))
                           end) fs)) ++ ["}"]
  end.

(** [JSON.stringify(v)]; [None] is the [undefined] it returns for
    [undefined]. *)
Definition stringify (v : value) : option string :=
  match v with
  | VUndef => None
  | _ => Some (string_of_list_ascii (print v))
  end.

(* --------------------------------------------------------------------- *)
(** ** JSON.parse *)
(* --------------------------------------------------------------------- *)

Definition is_ws (c : ascii) : bool :=
  let n := nat_of_ascii c in
  Nat.eqb n 32 || Nat.eqb n 9 || Nat.eqb n 10 || Nat.eqb n 13.

Fixpoint skip_ws (s : list ascii) : list ascii :=
  match s with
  | c :: r => if is_ws c then skip_ws r else s
  | [] => []
  end.

Definition hex_value (c : ascii) : option nat :=
  let n := nat_of_ascii c in
  if Nat.leb 48 n && Nat.leb n 57 then Some (n - 48)%nat
  else if Nat.leb 97 n && Nat.leb n 102 then Some (n - 87)%nat
  else if Nat.leb 65 n && Nat.leb n 70 then Some (n - 55)%nat
  else None.

(** The code unit of [\uXXXX] below 256.  A text with an escape from
    [\u0100] on is not read by this parser: [beyond] tells it apart and
    [JSON_parse] answers [OutOfModel] for it. *)
Definition unicode_escape (a b c d : ascii) : option ascii :=
  match hex_value a, hex_value b, hex_value c, hex_value d with
  | Some 0%nat, Some 0%nat, Some x, Some y =>
      Some (ascii_of_nat (16 * x + y))
  | _, _, _, _ => None
  end.

(** The characters of a string literal after its opening quote, up to the
    closing quote. *)
Fixpoint parse_chars (s : list ascii) : option (list ascii * list ascii) :=
  match s with
  | [] => None
  | c :: r =>
      if Ascii.eqb c "034" then Some ([], r)
      else if Ascii.eqb c "\" then
        match r with
        | [] => None
        | e :: r1 =>
            let simple (x : ascii) :=
              match parse_chars r1 with
              | Some (cs, rest) => Some (x :: cs, rest)
              | None => None
              end in
            if Ascii.eqb e "034" then simple "034"
            else if Ascii.eqb e "\" then simple "\"
            else if Ascii.eqb e "/" then simple "/"
            else if Ascii.eqb e "b" then simple (ascii_of_nat 8)
            else if Ascii.eqb e "f" then simple (ascii_of_nat 12)
            else if Ascii.eqb e "n" then simple (ascii_of_nat 10)
            else if Ascii.eqb e "r" then simple (ascii_of_nat 13)
            else if Ascii.eqb e "t" then simple (ascii_of_nat 9)
            else if Ascii.eqb e "u" then
              match r1 with
              | h1 :: h2 :: h3 :: h4 :: r2 =>
                  match unicode_escape h1 h2 h3 h4, parse_chars r2 with
                  | Some x, Some (cs, rest) => Some (x :: cs, rest)
                  | _, _ => None
                  end
              | _ => None
              end
            else None
        end
      else if Nat.ltb (nat_of_ascii c) 32 then None
      else match parse_chars r with
           | Some (cs, rest) => Some (c :: cs, rest)
           | None => None
           end
  end.

Definition parse_string (s : list ascii) : option (string * list ascii) :=
  match parse_chars s with
  | Some (cs, rest) => Some (string_of_list_ascii cs, rest)
  | None => None
  end.

(** The longest run of decimal digits. *)
Fixpoint parse_uint (s : list ascii) : uint * list ascii :=
  match s with
  | [] => (Nil, [])
  | c :: r =>
      let next (d : uint -> uint) := (d (fst (parse_uint r)), snd (parse_uint r)) in
      if Ascii.eqb c "0" then next D0
      else if Ascii.eqb c "1" then next D1
      else if Ascii.eqb c "2" then next D2
      else if Ascii.eqb c "3" then next D3
      else if Ascii.eqb c "4" then next D4
      else if Ascii.eqb c "5" then next D5
      else if Ascii.eqb c "6" then next D6
      else if Ascii.eqb c "7" then next D7
      else if Ascii.eqb c "8" then next D8
      else if Ascii.eqb c "9" then next D9
      else (Nil, s)
  end.

(** What follows the integer part of a number that is not an integer: a
    fraction or an exponent.  A text with such a number is not read by
    this parser: [beyond] tells it apart and [JSON_parse] answers
    [OutOfModel] for it. *)
Definition starts_fraction (s : list ascii) : bool :=
  match s with
  | c :: _ => Ascii.eqb c "." || Ascii.eqb c "e" || Ascii.eqb c "E"
  | [] => false
  end.

(** [0] or a digit string without a leading zero. *)
Definition parse_nat (s : list ascii) : option (N * list ascii) :=
  match parse_uint s with
  | (Nil, _) => None
  | (D0 Nil, rest) => if starts_fraction rest then None else Some (0%N, rest)
  | (D0 _, _) => None
  | (u, rest) => if starts_fraction rest then None else Some (N.of_uint u, rest)
  end.

Definition parse_number (s : list ascii) : option (value * list ascii) :=
  match s with
  | [] => None
  | c :: r =>
      if Ascii.eqb c "-" then
        match parse_nat r with
        | Some (n, rest) => Some (VNum (- Z.of_N n), rest)
        | None => None
        end
      else
        match parse_nat s with
        | Some (n, rest) => Some (VNum (Z.of_N n), rest)
        | None => None
        end
  end.

(** Skips white space and reads the closing character [close], if it is
    next. *)
Definition closes (close : ascii) (s : list ascii) : option (list ascii) :=
  match skip_ws s with
  | c :: rest => if Ascii.eqb c close then Some rest else None
  | [] => None
  end.

(** The object a member list denotes: a repeated key keeps its first place
    and its last value.  The properties are kept in the order of the text;
    the browser lists those whose key is an array index first, so for an
    object with such keys the order here, and with it the text written
    back, is not the browser's. *)
Definition build_object (members : list (string * value))
  : list (string * value) :=
  List.fold_left (fun acc kv => set_field (fst kv) (snd kv) acc) members [].

Fixpoint parse_value (fuel : nat) (s : list ascii)
  : option (value * list ascii) :=
  match fuel with
  | O => None
  | S fuel' =>
      match skip_ws s with
      | "n" :: "u" :: "l" :: "l" :: r => Some (VNull, r)
      | "t" :: "r" :: "u" :: "e" :: r => Some (VBool true, r)
      | "f" :: "a" :: "l" :: "s" :: "e" :: r => Some (VBool false, r)
      | "034" :: r =>
          match parse_string r with
          | Some (str, rest) => Some (VStr str, rest)
          | None => None
          end
      | "[" :: r =>
          match closes "]" r with
          | Some rest => Some (VArr [], rest)
          | None =>
              match parse_elements fuel' r with
              | Some (vs, rest) => Some (VArr vs, rest)
              | None => None
              end
          end
      | "{" :: r =>
          match closes "}" r with
          | Some rest => Some (VObj [], rest)
          | None =>
              match parse_members fuel' r with
              | Some (ms, rest) => Some (VObj (build_object ms), rest)
              | None => None
              end
          end
      | other => parse_number other
      end
  end

with parse_elements (fuel : nat) (s : list ascii)
  : option (list value * list ascii) :=
  match fuel with
  | O => None
  | S fuel' =>
      match parse_value fuel' s with
      | None => None
      | Some (v, r) =>
          match skip_ws r with
          |"," :: r1 =>
              match parse_elements fuel' r1 with
              | Some (vs, rest) => Some (v :: vs, rest)
              | None => None
              end
          | "]" :: rest => Some ([v], rest)
          | _ => None
          end
      end
  end

with parse_members (fuel : nat) (s : list ascii)
  : option (list (string * value) * list ascii) :=
  match fuel with
  | O => None
  | S fuel' =>
      match skip_ws s with
      | "034" :: r =>
          match parse_string r with
          | None => None
          | Some (k, r1) =>
              match skip_ws r1 with
              | ":" :: r2 =>
                  match parse_value fuel' r2 with
                  | None => None
                  | Some (v, r3) =>
                      match skip_ws r3 with
                      |"," :: r4 =>
                          match parse_members fuel' r4 with
                          | Some (ms, rest) => Some ((k, v) :: ms, rest)
                          | None => None
                          end
                      | "}" :: rest => Some ([(k, v)], rest)
                      | _ => None
                      end
                  end
              | _ => None
              end
          end
      | _ => None
      end
  end.

(** [JSON.parse(text)] on the texts the embedding follows, those that
    [beyond] below lets through; [None] is a SyntaxError.  Every call of
    the parser reads a character before it calls itself again, so the
    length of the text is fuel enough. *)
Definition parse (text : string) : option value :=
  let s := list_ascii_of_string text in
  match parse_value (S (List.length s)) s with
  | Some (v, rest) =>
      match skip_ws rest with
      | [] => Some v
      | _ => None
      end
  | None => None
  end.

(** Where a reader of a text is: between tokens, and whether the last
    character was a digit; inside a string literal; after a backslash in
    one; after [\u]; after [\u0]. *)
Inductive place : Type :=
| Between (digit : bool)
| Inside
| Escape
| Unicode1
| Unicode2.

Definition is_digit_char (c : ascii) : bool :=
  Nat.leb 48 (nat_of_ascii c) && Nat.leb (nat_of_ascii c) 57.

(** Whether the text has, outside its string literals, a digit followed
    by a fraction or an exponent, or, inside one, an escape other than
    [\u00XX].  Every JSON text [parse] does not read as the browser does
    has one of the two. *)
Fixpoint beyond_from (p : place) (s : list ascii) : bool :=
  match s with
  | [] => false
  | c :: r =>
      match p with
      | Between digit =>
          if Ascii.eqb c "034" then beyond_from Inside r
          else if digit && starts_fraction s then true
          else beyond_from (Between (is_digit_char c)) r
      | Inside =>
          if Ascii.eqb c "034" then beyond_from (Between false) r
          else if Ascii.eqb c "\" then beyond_from Escape r
          else beyond_from Inside r
      | Escape =>
          if Ascii.eqb c "u" then beyond_from Unicode1 r
          else beyond_from Inside r
      | Unicode1 => if Ascii.eqb c "0" then beyond_from Unicode2 r else true
      | Unicode2 => if Ascii.eqb c "0" then beyond_from Inside r else true
      end
  end.

Definition beyond (text : string) : bool :=
  beyond_from (Between false) (list_ascii_of_string text).

(* --------------------------------------------------------------------- *)
(** ** Vocabulary for the round trip *)
(* --------------------------------------------------------------------- *)

(** What may follow a printed number: no digit, fraction or exponent. *)
Definition delimited (rest : list ascii) : Prop :=
  parse_uint rest = (Nil, rest) /\ starts_fraction rest = false.

(** The first character of a printed number. *)
Definition number_start (c : ascii) : bool :=
  Ascii.eqb c "-" || (Nat.leb 48 (nat_of_ascii c) && Nat.leb (nat_of_ascii c) 57).

(** The first character of a printed value. *)
Definition token_start (c : ascii) : bool :=
  number_start c
  || List.existsb (Ascii.eqb c) ["n"; "t"; "f"; "034"; "["; "{"].

(** A printed property. *)
Definition member (kv : string * value) : list ascii :=
  quote (fst kv) ++ ":" :: print (snd kv).

(** The shapes of a parsed value. *)
Inductive parsed (fuel : nat) (r : list ascii) : value -> Prop :=
| parsed_null : parsed fuel r VNull
| parsed_bool b : parsed fuel r (VBool b)
| parsed_num n : parsed fuel r (VNum n)
| parsed_str s : parsed fuel r (VStr s)
| parsed_empty_arr : parsed fuel r (VArr [])
| parsed_arr s vs :
    parse_elements fuel s = Some (vs, r) -> parsed fuel r (VArr vs)
| parsed_empty_obj : parsed fuel r (VObj [])
| parsed_obj s ms :
    parse_members fuel s = Some (ms, r) ->
    parsed fuel r (VObj (build_object ms)).

(** A result with its rest: how far the parser read, and that any fuel
    covering the characters read gives the same result. *)
Definition settled {A} (run : nat -> list ascii -> option (A * list ascii))
           (s : list ascii) (a : A) (r : list ascii) : Prop :=
  (List.length r < List.length s)%nat
  /\ forall n, (List.length s - List.length r <= n)%nat ->
               run n s = Some (a, r).

(** A printed item: read from between two tokens, it leaves the reader
    between two tokens. *)
Definition item (text : list ascii) : Prop :=
  exists after, forall digit rest,
    beyond_from (Between digit) (text ++ rest)
    = beyond_from (Between after) rest.

End JSON.

Local Open Scope string_scope.

(** [JSON.parse(text)] as a step of a script: the value, a SyntaxError,
    or [OutOfModel] for a text with a number that is not an integer or
    with a code unit from 256 on. *)
Definition JSON_parse (text : string) : outcome value :=
  if JSON.beyond text then OutOfModel
  else
    match JSON.parse text with
    | Some v => Ok v
    | None => Throw SyntaxError
    end.

(** The string [setItem] stores for [JSON.stringify(v)]: a store keeps
    strings, so [undefined] would be kept as its name. *)
Definition JSON_stringify (v : value) : string :=
  match JSON.stringify v with
  | Some text => text
  | None => "undefined"
  end.

(** The values [JSON.stringify] writes down in full: no [undefined]
    anywhere, and no key twice in an object. *)
Fixpoint distinct (keys : list string) : bool :=
  match keys with
  | [] => true
  | k :: rest => negb (List.existsb (String.eqb k) rest) && distinct rest
  end.

Fixpoint storable (v : value) : bool :=
  match v with
  | VUndef => false
  | VNull | VBool _ | VNum _ | VStr _ => true
  | VArr l => List.forallb storable l
  | VObj fs =>
      distinct (List.map fst fs)
      && List.forallb (fun kv => storable (snd kv)) fs
  end.

(** An object value has no key twice, here and in every value inside. *)
Fixpoint well_formed (v : value) : bool :=
  match v with
  | VArr l => List.forallb well_formed l
  | VObj fs =>
      distinct (List.map fst fs)
      && List.forallb (fun kv => well_formed (snd kv)) fs
  | _ => true
  end.

(** What is left of a value once written by [JSON.stringify] and read
    again: an [undefined] element of an array is [null], a property whose
    value is [undefined] is gone. *)
Fixpoint json_form (v : value) : value :=
  match v with
  | VUndef => VNull
  | VArr l => VArr (List.map json_form l)
  | VObj fs =>
      VObj (JSON.somes
              (List.map (fun kv => match snd kv with
                                   | VUndef => None
                                   | _ => Some (fst kv, json_form (snd kv))
                                   end) fs))
  | other => other
  end.

Section ValueInduction.
Variable P : value -> Prop.
Hypothesis P_undef : P VUndef.
Hypothesis P_null : P VNull.
Hypothesis P_bool : forall b, P (VBool b).
Hypothesis P_num : forall n, P (VNum n).
Hypothesis P_str : forall s, P (VStr s).
Hypothesis P_arr : forall l, List.Forall P l -> P (VArr l).
Hypothesis P_obj :
  forall fs, List.Forall (fun kv => P (snd kv)) fs -> P (VObj fs).

Fixpoint value_induction (v : value) : P v :=
  match v with
  | VUndef => P_undef
  | VNull => P_null
  | VBool b => P_bool b
  | VNum n => P_num n
  | VStr s => P_str s
  | VArr l =>
      P_arr l
        ((fix all (l : list value) : List.Forall P l :=
            match l with
            | [] => @List.Forall_nil _ _
            | x :: rest =>
                @List.Forall_cons _ _ x rest (value_induction x) (all rest)
            end) l)
  | VObj fs =>
      P_obj fs
        ((fix all (fs : list (string * value))
            : List.Forall (fun kv => P (snd kv)) fs :=
            match fs with
            | [] => @List.Forall_nil _ _
            | kv :: rest =>
                @List.Forall_cons _ _ kv rest
                  (value_induction (snd kv)) (all rest)
            end) fs)
  end.
End ValueInduction.

(* ===================================================================== *)
(** ** The Web Storage areas *)
(* ===================================================================== *)

(** One storage area: its entries, whether the browser refuses access to it
    (every call raises SecurityError), and how many characters of keys and
    values it holds at most (a write beyond that raises
    QuotaExceededError). *)
Record Storage : Type := mkStorage {
  items : gmap string string;
  disabled : bool;
  quota : nat
}.

Definition used (m : gmap string string) : nat :=
  map_fold (fun k v acc => (String.length k + String.length v + acc)%nat)
           0%nat m.

Definition getItem (k : string) (st : Storage) : outcome (option string) :=
  if disabled st then Throw SecurityError else Ok (items st !! k).

Definition setItem (k v : string) (st : Storage) : outcome Storage :=
  if disabled st then Throw SecurityError
  else
    let m := <[k := v]> (items st) in
    if Nat.ltb (quota st) (used m) then Throw QuotaExceededError
    else Ok (mkStorage m (disabled st) (quota st)).

(** Whether the area takes the write of [v] under [k]. *)
Definition accepts (k v : string) (st : Storage) : bool :=
  negb (disabled st)
  && Nat.leb (used (<[k := v]> (items st))) (quota st).

(** The area after a write that is dropped when it fails: what the
    [try { setItem } catch { log }] of the scripts leaves. *)
Definition store (k : string) (v : value) (st : Storage) : Storage :=
  if accepts k (JSON_stringify v) st then
    mkStorage (<[k := JSON_stringify v]> (items st)) (disabled st) (quota st)
  else st.

(** The contract of the store adapter's read, in the words of the
    specification: the empty sequence on a storage exception, on a missing
    key and on a parse failure, and the parsed value otherwise. *)
Definition degraded_read (k : string) (st : Storage) : value :=
  if disabled st then VArr []
  else
    match items st !! k with
    | None => VArr []
    | Some text =>
        match JSON.parse text with
        | None => VArr []
        | Some v => v
        end
    end.

(** The area gives no text under [k], or one that [JSON.parse] is
    followed on. *)
Definition followed (k : string) (st : Storage) : bool :=
  disabled st
  || match items st !! k with
     | None => true
     | Some text => negb (JSON.beyond text)
     end.

(** What the reads of the scripts, [try { raw ? JSON.parse(raw) : [] }
    catch { [] }], come to: the read of the specification where the text
    is followed. *)
Definition read_outcome (k : string) (st : Storage) : outcome value :=
  if followed k st then Ok (degraded_read k st) else OutOfModel.


(** What a page sees of the browser: the durable area, the per-tab area
    and the address it is at. *)
Record Browser : Type := mkBrowser {
  localStorage : Storage;
  sessionStorage : Storage;
  location_href : string
}.

(* ===================================================================== *)
(** ** Strings: trimming and the regular expressions of the validators *)
(* ===================================================================== *)

(** White space and line terminators among the code units below 256: what
    [String.prototype.trim], [jQuery.trim] and the class [\s] agree on. *)
Definition is_space (c : ascii) : bool :=
  let n := nat_of_ascii c in
  (Nat.leb 9 n && Nat.leb n 13) || Nat.eqb n 32 || Nat.eqb n 160.

Fixpoint trim_start (s : list ascii) : list ascii :=
  match s with
  | c :: r => if is_space c then trim_start r else s
  | [] => []
  end.

Definition trim_chars (s : list ascii) : list ascii :=
  List.rev (trim_start (List.rev (trim_start s))).

Definition trim (s : string) : string :=
  string_of_list_ascii (trim_chars (list_ascii_of_string s)).

(** Regular expressions, matched by derivatives. *)
Inductive regex : Type :=
| Fail
| Eps
| Class (p : ascii -> bool)
| Seq (r1 r2 : regex)
| Alt (r1 r2 : regex)
| Plus (r : regex).

Fixpoint nullable (r : regex) : bool :=
  match r with
  | Fail => false
  | Eps => true
  | Class _ => false
  | Seq r1 r2 => nullable r1 && nullable r2
  | Alt r1 r2 => nullable r1 || nullable r2
  | Plus r => nullable r
  end.

(** What is left of [r] after reading [c]; the last component is what is
    left of [r+] when [r] can be repeated: [Alt Eps (Plus r)] is [r*]. *)
Fixpoint deriv (c : ascii) (r : regex) : regex :=
  match r with
  | Fail | Eps => Fail
  | Class p => if p c then Eps else Fail
  | Seq r1 r2 =>
      if nullable r1 then Alt (Seq (deriv c r1) r2) (deriv c r2)
      else Seq (deriv c r1) r2
  | Alt r1 r2 => Alt (deriv c r1) (deriv c r2)
  | Plus r => Seq (deriv c r) (Alt Eps (Plus r))
  end.

(** [/^r$/.test(s)] *)
Fixpoint matches (r : regex) (s : list ascii) : bool :=
  match s with
  | [] => nullable r
  | c :: rest => matches (deriv c r) rest
  end.

(** Some prefix of [s] matches [r]. *)
Fixpoint matches_prefix (r : regex) (s : list ascii) : bool :=
  nullable r ||
  match s with
  | [] => false
  | c :: rest => matches_prefix (deriv c r) rest
  end.

(** [/r/.test(s)]: some substring of [s] matches [r]. *)
Fixpoint found_in (r : regex) (s : list ascii) : bool :=
  matches_prefix r s ||
  match s with
  | [] => false
  | _ :: rest => found_in r rest
  end.

Definition test_anchored (r : regex) (s : string) : bool :=
  matches r (list_ascii_of_string s).

Definition test (r : regex) (s : string) : bool :=
  found_in r (list_ascii_of_string s).

Definition chr (c : ascii) : regex := Class (Ascii.eqb c).

Definition in_range (lo hi : ascii) (c : ascii) : bool :=
  Nat.leb (nat_of_ascii lo) (nat_of_ascii c)
  && Nat.leb (nat_of_ascii c) (nat_of_ascii hi).

(** [[^\s@]] *)
Definition not_space_or_at (c : ascii) : bool :=
  negb (is_space c || Ascii.eqb c "@"%char).

(** [/^[^\s@]+@[^\s@]+\.[^\s@]+$/], the pattern of both e-mail checks. *)
Definition EMAIL_PATTERN : regex :=
  Seq (Plus (Class not_space_or_at))
      (Seq (chr "@"%char)
           (Seq (Plus (Class not_space_or_at))
                (Seq (chr "."%char) (Plus (Class not_space_or_at))))).

(* ===================================================================== *)
(** ** js/contactForm.js *)
(* ===================================================================== *)

Module ContactForm.

Definition STORAGE_KEY : string := "codeBrewInquiries".
Definition MIN_NAME_LENGTH : nat := 2.
Definition MIN_MESSAGE_LENGTH : nat := 10.

(** What [validateField] leaves on the page for one field: the class it
    puts on the field, the text of its error span, and what it returns. *)
Record FieldResult : Type := mkFieldResult {
  field_class : string;
  error_text : string;
  field_ok : bool
}.

(** [validateField($field, $errorSpan)] for the field named [fieldName]
    holding [raw]. *)
Definition validateField (fieldName : string) (raw : string) : FieldResult :=
  let value := trim raw in
  let errorMessage : string :=
    if String.eqb fieldName "name" then
      if Nat.eqb (String.length value) 0 then "Full name is required."
      else if Nat.ltb (String.length value) MIN_NAME_LENGTH then
        "Name must be at least 2 characters."
      else ""
    else if String.eqb fieldName "email" then
      if Nat.eqb (String.length value) 0 then "Email address is required."
      else if negb (test_anchored EMAIL_PATTERN value) then
        "Please enter a valid email address."
      else ""
    else if String.eqb fieldName "message" then
      if Nat.eqb (String.length value) 0 then "Message is required."
      else if Nat.ltb (String.length value) MIN_MESSAGE_LENGTH then
        "Message must be at least 10 characters."
      else ""
    else ""
  in
  if negb (String.eqb errorMessage "") then
    mkFieldResult "invalid" errorMessage false
  else
    mkFieldResult "valid" "" true.

(** The values typed into the form. *)
Record Form : Type := mkForm {
  f_name : string;
  f_email : string;
  f_subject : string;
  f_message : string
}.

Definition validateForm (form : Form) : bool :=
  let isValid := true in
  let isValid := field_ok (validateField "name" (f_name form)) && isValid in
  let isValid := field_ok (validateField "email" (f_email form)) && isValid in
  let isValid := field_ok (validateField "message" (f_message form)) && isValid in
  isValid.

Definition loadSubmissions (ls : Storage) : outcome value :=
  try_catch
    (data ← getItem STORAGE_KEY ls;
     match data with
     | Some text =>
         if negb (String.eqb text "") then JSON_parse text else Ok (VArr [])
     | None => Ok (VArr [])
     end)
    (fun _ => Ok (VArr [])).

(** [array.push(x)]: only an array has the method. *)
Definition push (array x : value) : outcome value :=
  match array with
  | VArr l => Ok (VArr (l ++ [x]))
  | _ => Throw TypeError
  end.

(** [saveSubmission(formData)]: the storage area afterwards.  The warning
    on the console is not modelled. *)
Definition saveSubmission (formData : value) (ls : Storage)
  : outcome Storage :=
  submissions ← loadSubmissions ls;
  submissions ← push submissions formData;
  try_catch
    (setItem STORAGE_KEY (JSON_stringify submissions) ls)
    (fun _ => Ok ls).

(** The record the submit handler collects once [validateForm] passed;
    [now] is the reading of [new Date().toISOString()]. *)
Definition collectFormData (form : Form) (now : string) : value :=
  VObj [ ("name", VStr (trim (f_name form)));
         ("email", VStr (trim (f_email form)));
         ("subject",
           js_or (VStr (trim (f_subject form))) (VStr "(No subject)"));
         ("message", VStr (trim (f_message form)));
         ("submittedAt", VStr now) ].

(** The submit handler followed by its 800 ms timer: nothing is saved when
    validation fails. *)
Definition onSubmit (form : Form) (now : string) (ls : Storage)
  : outcome Storage :=
  if negb (validateForm form) then Ok ls
  else saveSubmission (collectFormData form now) ls.

End ContactForm.

(* ===================================================================== *)
(** ** The account script: registration validators and the session *)
(* ===================================================================== *)

Module Account.

Definition MIN_PASSWORD_LENGTH : nat := 8.
Definition MIN_USERNAME_LENGTH : nat := 3.
Definition MAX_USERNAME_LENGTH : nat := 20.
Definition SESSION_KEY : string := "currentUser".

Definition is_upper (c : ascii) : bool := in_range "A" "Z" c.
Definition is_lower (c : ascii) : bool := in_range "a" "z" c.
Definition is_digit (c : ascii) : bool := in_range "0" "9" c.
Definition is_special (c : ascii) : bool :=
  List.existsb (Ascii.eqb c) (list_ascii_of_string "!@#$%^&*").

(** [/[!@#$%^&*]/] *)
Definition PASSWORD_SPECIAL_CHARS_REGEX : regex := Class is_special.

(** [/^[a-zA-Z0-9]+$/] *)
Definition USERNAME_PATTERN : regex :=
  Plus (Class (fun c => is_lower c || is_upper c || is_digit c)).

Record Validation : Type := mkValidation {
  valid : bool;
  message : string
}.

Definition validateUsername (username : string) : Validation :=
  if String.eqb username ""
     || Nat.ltb (String.length (trim username)) MIN_USERNAME_LENGTH then
    mkValidation false "Username must be at least 3 characters."
  else if Nat.ltb MAX_USERNAME_LENGTH (String.length (trim username)) then
    mkValidation false "Username must be no more than 20 characters."
  else if negb (test_anchored USERNAME_PATTERN (trim username)) then
    mkValidation false "Username can only contain letters and numbers."
  else mkValidation true "".

Definition validateEmail (email : string) : Validation :=
  if String.eqb email "" || Nat.eqb (String.length (trim email)) 0 then
    mkValidation false "Email address is required."
  else if negb (test_anchored EMAIL_PATTERN (trim email)) then
    mkValidation false "Please enter a valid email address."
  else mkValidation true "".

(** The object [checkPasswordRequirements] returns, its keys in the order
    of the literal. *)
Record Requirements : Type := mkRequirements {
  req_length : bool;
  req_uppercase : bool;
  req_lowercase : bool;
  req_number : bool;
  req_special : bool
}.

Definition checkPasswordRequirements (password : string) : Requirements :=
  {| req_length := Nat.leb MIN_PASSWORD_LENGTH (String.length password);
     req_uppercase := test (Class is_upper) password;
     req_lowercase := test (Class is_lower) password;
     req_number := test (Class is_digit) password;
     req_special := test PASSWORD_SPECIAL_CHARS_REGEX password |}.

Definition validatePassword (password : string) : Validation :=
  if String.eqb password "" || Nat.eqb (String.length password) 0 then
    mkValidation false "Password is required."
  else
    let reqs := checkPasswordRequirements password in
    let allMet := req_length reqs && req_uppercase reqs && req_lowercase reqs
                  && req_number reqs && req_special reqs in
    if negb allMet then
      mkValidation false "Password does not meet all requirements below."
    else mkValidation true "".

Definition validateConfirmPassword (password confirm : string) : Validation :=
  if String.eqb confirm "" || Nat.eqb (String.length confirm) 0 then
    mkValidation false "Please confirm your password."
  else if negb (String.eqb password confirm) then
    mkValidation false "Passwords do not match."
  else mkValidation true "".

(** [for (const key in reqs) if (reqs[key]) metCount++] *)
Definition metCount (reqs : Requirements) : nat :=
  List.length
    (List.filter (fun met : bool => met)
       [req_length reqs; req_uppercase reqs; req_lowercase reqs;
        req_number reqs; req_special reqs]).

(** The [strength] variable of [updateStrengthBar]. *)
Definition strength_of (met : nat) : string :=
  if Nat.leb met 2 then "weak"
  else if Nat.eqb met 3 then "fair"
  else if Nat.eqb met 4 then "good"
  else if Nat.eqb met 5 then "strong"
  else "none".

Definition strength (password : string) : string :=
  strength_of (metCount (checkPasswordRequirements password)).

Definition toUpperCase (c : ascii) : ascii :=
  if is_lower c then ascii_of_nat (nat_of_ascii c - 32) else c.

(** [strength.charAt(0).toUpperCase() + strength.slice(1)] *)
Definition capitalize (s : string) : string :=
  match s with
  | EmptyString => EmptyString
  | String c rest => String (toUpperCase c) rest
  end.

(** What [updateStrengthBar] leaves on the page: the class on the bar and
    on the label (none for an empty password) and the text of the label. *)
Record StrengthBar : Type := mkStrengthBar {
  bar_class : option string;
  label_text : string
}.

Definition updateStrengthBar (password : string) : StrengthBar :=
  if Nat.ltb 0 (String.length password) then
    mkStrengthBar (Some (strength password)) (capitalize (strength password))
  else mkStrengthBar None "-".

(** The values of the registration form. *)
Record Form : Type := mkForm {
  f_username : string;
  f_email : string;
  f_password : string;
  f_confirmPassword : string;
  f_terms : bool
}.

(** [validateAll()]; the marks it puts on the fields are not modelled. *)
Definition validateAll (form : Form) : bool :=
  let username := trim (f_username form) in
  let email := trim (f_email form) in
  let password := f_password form in
  let confirmPassword := f_confirmPassword form in
  let termsChecked := f_terms form in
  valid (validateUsername username)
  && valid (validateEmail email)
  && valid (validatePassword password)
  && valid (validateConfirmPassword password confirmPassword)
  && termsChecked.

(** The object written to the session. *)
Definition userData (form : Form) : value :=
  VObj [ ("username", VStr (trim (f_username form)));
         ("email", VStr (trim (f_email form))) ].

(** [handleFormSubmit(e)]: the browser afterwards. *)
Definition handleFormSubmit (form : Form) (b : Browser) : Browser :=
  if negb (validateAll form) then b
  else
    let session :=
      match setItem SESSION_KEY (JSON_stringify (userData form))
                    (sessionStorage b) with
      | Ok s => s
      | _ => sessionStorage b
      end in
    mkBrowser (localStorage b) session "welcome.html".

(** The five requirement classes, in the words of the specification. *)
Definition long_enough (password : string) : bool :=
  Nat.leb 8 (String.length password).

Definition has_char (p : ascii -> bool) (password : string) : bool :=
  List.existsb p (list_ascii_of_string password).

Definition classes_met (password : string) : nat :=
  List.length
    (List.filter (fun met : bool => met)
       [long_enough password; has_char is_upper password;
        has_char is_lower password; has_char is_digit password;
        has_char is_special password]).

(** The order of the tiers. *)
Definition tier_rank (tier : string) : nat :=
  if String.eqb tier "weak" then 1
  else if String.eqb tier "fair" then 2
  else if String.eqb tier "good" then 3
  else if String.eqb tier "strong" then 4
  else 0.

End Account.

(* ===================================================================== *)
(** ** The welcome script: the favourites repository *)
(* ===================================================================== *)

Module Favorites.

Definition SESSION_KEY : string := "currentUser".
Definition FAVORITES_KEY : string := "favoriteDrinks".

(** The two readings of the clock [addFavorite] takes: [Date.now()] and
    [new Date().toISOString()]. *)
Record Clock : Type := mkClock {
  now : Z;
  isoString : string
}.

Definition loadFavorites (ls : Storage) : outcome value :=
  try_catch
    (raw ← getItem FAVORITES_KEY ls;
     match raw with
     | Some text =>
         if negb (String.eqb text "") then JSON_parse text else Ok (VArr [])
     | None => Ok (VArr [])
     end)
    (fun _ => Ok (VArr [])).

(** [saveFavorites(favorites)]: the storage area afterwards; a failed
    write is logged and dropped. *)
Definition saveFavorites (favorites : value) (ls : Storage)
  : outcome Storage :=
  try_catch
    (setItem FAVORITES_KEY (JSON_stringify favorites) ls)
    (fun _ => Ok ls).

Definition newDrink (clock : Clock) (drink : value) : outcome value :=
  name ← get_prop drink "name";
  size ← get_prop drink "size";
  customization ← get_prop drink "customization";
  notes ← get_prop drink "notes";
  Ok (VObj [ ("id", VNum (now clock));
             ("name", name);
             ("size", size);
             ("customization", js_or customization (VStr ""));
             ("notes", js_or notes (VStr ""));
             ("addedAt", VStr (isoString clock)) ]).

(** [addFavorite(drink)]: the drink it returns and the storage area
    afterwards. *)
Definition addFavorite (clock : Clock) (drink : value) (ls : Storage)
  : outcome (value * Storage) :=
  favorites ← loadFavorites ls;
  newDrink ← newDrink clock drink;
  favorites ← ContactForm.push favorites newDrink;
  ls' ← saveFavorites favorites ls;
  Ok (newDrink, ls').

(** The four assignments of the loop body of [updateFavorite]. *)
Definition assign_fields (fav updates : value) : outcome value :=
  name ← get_prop updates "name";
  fav ← set_prop fav "name" name;
  size ← get_prop updates "size";
  fav ← set_prop fav "size" size;
  customization ← get_prop updates "customization";
  fav ← set_prop fav "customization" (js_or customization (VStr ""));
  notes ← get_prop updates "notes";
  fav ← set_prop fav "notes" (js_or notes (VStr ""));
  Ok fav.

(** The loop of [updateFavorite] over the elements of the array: the array
    afterwards and [found]. *)
Fixpoint update_loop (id : Z) (updates : value) (favorites : list value)
  : outcome (list value * bool) :=
  match favorites with
  | [] => Ok ([], false)
  | fav :: rest =>
      fid ← get_prop fav "id";
      if strict_eq fid (VNum id) then
        fav' ← assign_fields fav updates;
        Ok (fav' :: rest, true)
      else
        '(rest', found) ← update_loop id updates rest;
        Ok (fav :: rest', found)
  end.

(** What a loop [for (i = 0; i < favorites.length; i++)] runs over.  [null]
    has no [length]; a number, a boolean and an object without the property
    have [length] [undefined], so the body never runs; the elements of a
    string are one-character strings; an object with a [length] of its own
    is not followed. *)
Definition loop_elements (favorites : value) : outcome (list value) :=
  match favorites with
  | VArr l => Ok l
  | VUndef | VNull => Throw TypeError
  | VNum _ | VBool _ => Ok []
  | VStr s =>
      Ok (List.map (fun c => VStr (String c EmptyString))
                   (list_ascii_of_string s))
  | VObj fs =>
      match lookup_field "length" fs with
      | None => Ok []
      | Some _ => OutOfModel
      end
  end.

(** [updateFavorite(id, updates)]: what it returns and the storage area
    afterwards.  Only an element of an array can hold a matching [id], so
    it is an array that is saved. *)
Definition updateFavorite (id : Z) (updates : value) (ls : Storage)
  : outcome (bool * Storage) :=
  favorites ← loadFavorites ls;
  elements ← loop_elements favorites;
  '(elements', found) ← update_loop id updates elements;
  if found : bool then
    ls' ← saveFavorites (VArr elements') ls;
    Ok (true, ls')
  else Ok (false, ls).

(** The loop of [deleteFavorite]: the array [next]. *)
Fixpoint delete_loop (id : Z) (favorites : list value)
  : outcome (list value) :=
  match favorites with
  | [] => Ok []
  | fav :: rest =>
      fid ← get_prop fav "id";
      next ← delete_loop id rest;
      Ok (if negb (strict_eq fid (VNum id)) then fav :: next else next)
  end.

Definition deleteFavorite (id : Z) (ls : Storage)
  : outcome (bool * Storage) :=
  favorites ← loadFavorites ls;
  elements ← loop_elements favorites;
  next ← delete_loop id elements;
  let deleted := Nat.ltb (List.length next) (List.length elements) in
  if deleted then
    ls' ← saveFavorites (VArr next) ls;
    Ok (true, ls')
  else Ok (false, ls).

(** [findFavorite(id)]: the first match, or [null]. *)
Fixpoint find_loop (id : Z) (favorites : list value) : outcome value :=
  match favorites with
  | [] => Ok VNull
  | fav :: rest =>
      fid ← get_prop fav "id";
      if strict_eq fid (VNum id) then Ok fav else find_loop id rest
  end.

Definition findFavorite (id : Z) (ls : Storage) : outcome value :=
  favorites ← loadFavorites ls;
  elements ← loop_elements favorites;
  find_loop id elements.




(** The record after the four assignments. *)
Definition assigned (fs updates : list (string * value))
  : list (string * value) :=
  set_field "notes" (js_or (own updates "notes") (VStr ""))
    (set_field "customization" (js_or (own updates "customization") (VStr ""))
       (set_field "size" (own updates "size")
          (set_field "name" (own updates "name") fs))).



End Favorites.

(* ===================================================================== *)
(** ** js/blog.js: filtering and pagination *)
(* ===================================================================== *)

Module Blog.

Definition ARTICLES_PER_PAGE : Z := 3.

(** An article; the excerpt, the full text and the icon are text for the
    card only and are left out. *)
Record Article : Type := mkArticle {
  id : Z;
  title : string;
  category : string;
  categoryLabel : string;
  authorName : string;
  authorId : option Z;
  date : string
}.

Definition ARTICLES : list Article :=
  [ mkArticle 1 "The Art of Pour Over: A Beginner's Guide"
      "brewing-tips" "Brewing Tips" "Blue (MavScriptBlu)" None "2026-02-10";
    mkArticle 2 "How Code & Brew Became Our Second Office"
      "customer-stories" "Customer Stories" "Jordan M." None "2026-02-05";
    mkArticle 3 "Single Origin vs. Blends: What's the Difference?"
      "coffee-culture" "Coffee Culture" "Seng" None "2026-01-28";
    mkArticle 4 "Cold Brew at Home: The 24-Hour Secret"
      "brewing-tips" "Brewing Tips" "Tyler" None "2026-01-20";
    mkArticle 5 "From Burnout to Balance: A Developer's Coffee Journey"
      "customer-stories" "Customer Stories" "Priya K." None "2026-01-15";
    mkArticle 6 "The Third Wave: How Specialty Coffee Changed Everything"
      "coffee-culture" "Coffee Culture" "Blue (MavScriptBlu)" None
      "2026-01-08" ].

(** The module state: the active filter and the number of visible
    articles. *)
Record State : Type := mkState {
  activeCategory : string;
  visibleCount : Z
}.

Definition initial : State := mkState "all" ARTICLES_PER_PAGE.

(** [getFilteredArticles()] over the article list [articles]. *)
Definition getFilteredArticles (articles : list Article) (st : State)
  : list Article :=
  if String.eqb (activeCategory st) "all" then articles
  else List.filter
         (fun article => String.eqb (category article) (activeCategory st))
         articles.

(** [array.slice(0, end)]: a negative [end] counts from the end of the
    array. *)
Definition slice0 {A} (l : list A) (finish : Z) : list A :=
  let len := Z.of_nat (List.length l) in
  let k := if Z.ltb finish 0 then Z.max (len + finish) 0
           else Z.min finish len in
  List.firstn (Z.to_nat k) l.

(** What [renderArticles] leaves on the page: the cards of the grid in
    order, whether the empty notice is shown, and whether the load-more
    control is shown. *)
Record Page : Type := mkPage {
  grid : list Article;
  emptyShown : bool;
  loadMoreShown : bool
}.

Definition renderArticles (articles : list Article) (st : State) : Page :=
  let filtered := getFilteredArticles articles st in
  let toShow := slice0 filtered (visibleCount st) in
  if Nat.eqb (List.length toShow) 0 then mkPage [] true false
  else
    mkPage toShow false
      (if Z.geb (visibleCount st) (Z.of_nat (List.length filtered))
       then false else true).

(** [handleFilterClick]: the state before the page is rendered again. *)
Definition handleFilterClick (category : string) (st : State) : State :=
  mkState category ARTICLES_PER_PAGE.

(** [handleLoadMore] *)
Definition handleLoadMore (st : State) : State :=
  mkState (activeCategory st) (visibleCount st + ARTICLES_PER_PAGE).

(** Whether an article passes the filter, in the words of the
    specification. *)
Definition matchesFilter (filter : string) (article : Article) : bool :=
  String.eqb filter "all" || String.eqb (category article) filter.

(** The states the handlers can bring the module to. *)
Inductive reachable : State -> Prop :=
| reach_initial : reachable initial
| reach_filter category st :
    reachable st -> reachable (handleFilterClick category st)
| reach_more st : reachable st -> reachable (handleLoadMore st).

End Blog.

(* ===================================================================== *)
(** ** Sample data for the examples *)
(* ===================================================================== *)

Definition fresh_store : Storage := mkStorage ∅ false 5000.

(** A durable area whose inquiries are cut off in the middle. *)
Definition torn_store : Storage :=
  mkStorage {[ "codeBrewInquiries" := "[{" ]} false 5000.


Definition inquiry : value :=
  VObj [ ("name", VStr "Al");
         ("email", VStr "a@b.com");
         ("subject", VStr "(No subject)");
         ("message", VStr "Hello there");
         ("submittedAt", VStr "2026-03-01T09:30:00.000Z") ].

Definition latte : value :=
  VObj [ ("id", VNum 1767254400000);
         ("name", VStr "Latte");
         ("size", VStr "Medium");
         ("customization", VStr "oat milk");
         ("notes", VStr "extra hot");
         ("addedAt", VStr "2026-01-01T08:00:00.000Z") ].




Local Open Scope list_scope.

(* ===================================================================== *)
(** ** The strings a regular expression matches *)
(* ===================================================================== *)

(** The language of a pattern, to state what the validators accept. *)
Inductive lang : regex -> list ascii -> Prop :=
| lang_eps : lang Eps []
| lang_class p c : p c = true -> lang (Class p) [c]
| lang_seq r1 r2 s1 s2 :
    lang r1 s1 -> lang r2 s2 -> lang (Seq r1 r2) (s1 ++ s2)
| lang_alt_l r1 r2 s : lang r1 s -> lang (Alt r1 r2) s
| lang_alt_r r1 r2 s : lang r2 s -> lang (Alt r1 r2) s
| lang_plus_once r s : lang r s -> lang (Plus r) s
| lang_plus_more r s1 s2 :
    lang r s1 -> lang (Plus r) s2 -> lang (Plus r) (s1 ++ s2).

(** A non-empty run of characters that are neither white space nor [@]. *)
Definition address_part (s : list ascii) : Prop :=
  s <> [] /\ List.forallb not_space_or_at s = true.

(** [local@domain.tld] *)
Definition address_shape (s : list ascii) : Prop :=
  exists loc dom tld,
    s = loc ++ "@"%char :: dom ++ "."%char :: tld
    /\ address_part loc /\ address_part dom /\ address_part tld.

(** A letter or a digit: the class of the user name pattern. *)
Definition alnum (c : ascii) : bool :=
  Account.is_lower c || Account.is_upper c || Account.is_digit c.

(* ===================================================================== *)
(** ** The welcome script: session, dashboard and handlers *)
(* ===================================================================== *)

(** [storage.removeItem(k)] *)
Definition removeItem (k : string) (st : Storage) : outcome Storage :=
  if disabled st then Throw SecurityError
  else Ok (mkStorage (delete k (items st)) (disabled st) (quota st)).





Module Dashboard.
Import Favorites.

(** [getCurrentUser()] on the session area. *)
Definition getCurrentUser (ss : Storage) : outcome value :=
  try_catch
    (raw ← getItem SESSION_KEY ss;
     match raw with
     | Some text =>
         if negb (String.eqb text "") then JSON_parse text else Ok VNull
     | None => Ok VNull
     end)
    (fun _ => Ok VNull).

(** The start of [init]: the text put into [#welcomeUsername], if any
    ([if (user && user.username)]). *)
Definition welcomeUsername (ss : Storage) : outcome (option value) :=
  user ← getCurrentUser ss;
  if truthy user then
    username ← get_prop user "username";
    Ok (if truthy username then Some username else None)
  else Ok None.

(** What [renderFavorites] leaves in the container: whether the empty
    state is shown, and the drinks of the cards in order.  [buildDrinkCard]
    reads the properties of its drink, which raises on [null]. *)
Record View : Type := mkView {
  emptyShown : bool;
  cards : list value
}.

Fixpoint build_cards (favorites : list value) : outcome (list value) :=
  match favorites with
  | [] => Ok []
  | drink :: rest =>
      _ ← get_prop drink "customization";
      built ← build_cards rest;
      Ok (drink :: built)
  end.

Definition renderFavorites (ls : Storage) : outcome View :=
  favorites ← loadFavorites ls;
  len ← get_prop favorites "length";
  if strict_eq len (VNum 0) then Ok (mkView true [])
  else
    elements ← loop_elements favorites;
    built ← build_cards elements;
    Ok (mkView false built).








(** [handleLogout(e)], given the answer to [confirm]. *)
Definition handleLogout (confirmed : bool) (b : Browser) : outcome Browser :=
  if confirmed then
    session ← removeItem SESSION_KEY (sessionStorage b);
    Ok (mkBrowser (localStorage b) session "../index.html")
  else Ok b.

End Dashboard.

(** Two storage areas that differ at the key [k] at most. *)
Definition same_elsewhere (k : string) (st st' : Storage) : Prop :=
  disabled st' = disabled st
  /\ quota st' = quota st
  /\ forall k', k' <> k -> items st' !! k' = items st !! k'.



(** The blog after a click on the filter [category] and [n] clicks on the
    load-more control. *)
Definition after_clicks (category : string) (n : nat) (st : Blog.State)
  : Blog.State :=
  Nat.iter n Blog.handleLoadMore (Blog.handleFilterClick category st).

(* ===================================================================== *)
(** ** The store-hours script: the open badge and the mobile menu *)
(* ===================================================================== *)

Module StoreHours.

Record Schedule : Type := mkSchedule {
  open : Z;
  close : Z;
  label : string
}.

(** [STORE_SCHEDULE[day]]; [undefined] for any other key. *)
Definition STORE_SCHEDULE (day : Z) : option Schedule :=
  if Z.eqb day 0 then Some (mkSchedule 9 18 "Sunday")
  else if Z.eqb day 1 then Some (mkSchedule 7 19 "Monday")
  else if Z.eqb day 2 then Some (mkSchedule 7 19 "Tuesday")
  else if Z.eqb day 3 then Some (mkSchedule 7 19 "Wednesday")
  else if Z.eqb day 4 then Some (mkSchedule 7 19 "Thursday")
  else if Z.eqb day 5 then Some (mkSchedule 7 19 "Friday")
  else if Z.eqb day 6 then Some (mkSchedule 8 20 "Saturday")
  else None.

(** [weekdayMap[weekdayShort]] *)
Definition weekdayMap (weekdayShort : string) : option Z :=
  if String.eqb weekdayShort "Sun" then Some 0
  else if String.eqb weekdayShort "Mon" then Some 1
  else if String.eqb weekdayShort "Tue" then Some 2
  else if String.eqb weekdayShort "Wed" then Some 3
  else if String.eqb weekdayShort "Thu" then Some 4
  else if String.eqb weekdayShort "Fri" then Some 5
  else if String.eqb weekdayShort "Sat" then Some 6
  else None.

(** What the formatter gives [getCurrentStoreTime]: the short name of the
    weekday, and the hour and the minute as [parseInt] reads them (a text
    that is not a number is outside the embedding). *)
Record Parts : Type := mkParts {
  weekdayShort : string;
  hourNumber : Z;
  minuteNumber : Z
}.

(** The object [getCurrentStoreTime] returns; [day] is [undefined] when
    the weekday is none of the seven names. *)
Record Time : Type := mkTime {
  day : option Z;
  hour : Z;
  minute : Z
}.

Definition getCurrentStoreTime (parts : Parts) : Time :=
  mkTime (weekdayMap (weekdayShort parts)) (hourNumber parts)
         (minuteNumber parts).

(** [currentHour + currentMinute / 60], as a rational number. *)
Definition currentTimeDecimal (t : Time) : QArith_base.Q :=
  QArith_base.Qplus (QArith_base.inject_Z (hour t))
    (QArith_base.Qdiv (QArith_base.inject_Z (minute t))
                      (QArith_base.inject_Z 60)).

(** [x >= n] and [x < n] for a whole number [n]. *)
Definition at_least (x : QArith_base.Q) (n : Z) : bool :=
  QArith_base.Qle_bool (QArith_base.inject_Z n) x.

Definition below (x : QArith_base.Q) (n : Z) : bool :=
  negb (QArith_base.Qle_bool (QArith_base.inject_Z n) x).

(** A whole number inside a template literal. *)
Definition number_text (n : Z) : string :=
  string_of_list_ascii (JSON.print_number n).

(** [h > 12 ? h - 12 : h] and [h >= 12 ? "PM" : "AM"] *)
Definition clock_hour (h : Z) : Z := if Z.ltb 12 h then h - 12 else h.

Definition clock_period (h : Z) : string :=
  if Z.leb 12 h then "PM" else "AM".

Record Status : Type := mkStatus {
  isOpen : bool;
  message : string
}.

(** [checkStoreStatus()] at the reading [t] of the store's clock.  Reading
    [open] of a schedule that is [undefined] raises a TypeError. *)
Definition checkStoreStatus (t : Time) : outcome Status :=
  let currentTimeDecimal := currentTimeDecimal t in
  match day t with
  | None => Throw TypeError
  | Some currentDay =>
      match STORE_SCHEDULE currentDay with
      | None => Throw TypeError
      | Some todaySchedule =>
          let isOpen :=
            at_least currentTimeDecimal (open todaySchedule)
            && below currentTimeDecimal (close todaySchedule) in
          if isOpen then
            Ok (mkStatus isOpen
                  ("Open Now - Closes at "
                   ++ number_text (clock_hour (close todaySchedule))
                   ++ ":00 " ++ clock_period (close todaySchedule)))
          else
            let nextDay := (currentDay + 1) mod 7 in
            if below currentTimeDecimal (open todaySchedule) then
              Ok (mkStatus isOpen
                    ("Closed - Opens today at "
                     ++ number_text (clock_hour (open todaySchedule))
                     ++ ":00 " ++ clock_period (open todaySchedule)))
            else
              match STORE_SCHEDULE nextDay with
              | None => Throw TypeError
              | Some nextSchedule =>
                  Ok (mkStatus isOpen
                        ("Closed - Opens " ++ label nextSchedule ++ " at "
                         ++ number_text (clock_hour (open nextSchedule))
                         ++ ":00 " ++ clock_period (open nextSchedule)))
              end
      end
  end.

(** The badge [#openStatus]: its class list, its [aria-label], and the
    text of its [.status-text] child if it has one. *)
Record Badge : Type := mkBadge {
  classList : gset string;
  ariaLabel : option string;
  statusText : option string
}.

(** [updateStatusBadge()]: the badge afterwards; there may be none. *)
Definition updateStatusBadge (t : Time) (statusBadge : option Badge)
  : outcome (option Badge) :=
  match statusBadge with
  | None => Ok None
  | Some badge =>
      status ← checkStoreStatus t;
      let classes :=
        if isOpen status
        then (classList badge ∖ {["closed"]}) ∪ {["open"]}
        else (classList badge ∖ {["open"]}) ∪ {["closed"]} in
      Ok (Some (mkBadge classes (Some (message status))
                  (match statusText badge with
                   | Some _ => Some (message status)
                   | None => None
                   end)))
  end.

(** An element of the navigation: its attributes and its class list. *)
Record Element : Type := mkElement {
  attributes : gmap string string;
  classes : gset string
}.

Definition setAttribute (name v : string) (e : Element) : Element :=
  mkElement (<[name := v]> (attributes e)) (classes e).

(** [e.classList.toggle(name, force)] *)
Definition classList_toggle (name : string) (force : bool) (e : Element)
  : Element :=
  mkElement (attributes e)
            (if force then classes e ∪ {[name]} else classes e ∖ {[name]}).

(** [String(b)] *)
Definition String_of (b : bool) : string := if b then "true" else "false".

(** The three elements the menu code looks up; each may be missing. *)
Record Nav : Type := mkNav {
  hamburger : option Element;
  navMenu : option Element;
  navOverlay : option Element
}.

Definition expanded (e : Element) : bool :=
  bool_decide (attributes e !! "aria-expanded" = Some "true").

Definition toggleMobileMenu (forceClose : bool) (nav : Nav) : Nav :=
  match hamburger nav, navMenu nav with
  | Some h, Some m =>
      let isCurrentlyOpen := expanded h in
      let shouldOpen := if forceClose then false else negb isCurrentlyOpen in
      mkNav
        (Some (classList_toggle "active" shouldOpen
                 (setAttribute "aria-expanded" (String_of shouldOpen) h)))
        (Some (classList_toggle "active" shouldOpen m))
        (match navOverlay nav with
         | Some o =>
             Some (setAttribute "aria-hidden" (String_of (negb shouldOpen))
                     (classList_toggle "active" shouldOpen o))
         | None => None
         end)
  | _, _ => nav
  end.

Definition closeMobileMenu (nav : Nav) : Nav := toggleMobileMenu true nav.

(** The events [init] listens to, once the hamburger and the menu are
    there. *)
Inductive Event : Type :=
| HamburgerClick
| NavLinkClick
| OverlayClick
| KeyDown (key : string).

Definition handle (event : Event) (nav : Nav) : Nav :=
  match hamburger nav, navMenu nav with
  | Some h, Some _ =>
      match event with
      | HamburgerClick => toggleMobileMenu false nav
      | NavLinkClick => closeMobileMenu nav
      | OverlayClick =>
          match navOverlay nav with
          | Some _ => closeMobileMenu nav
          | None => nav
          end
      | KeyDown key =>
          if String.eqb key "Escape" || String.eqb key "Esc" then
            if expanded h then closeMobileMenu nav else nav
          else nav
      end
  | _, _ => nav
  end.

(** The menu shows as open ([b] true) or as closed in every place the
    script writes to. *)
Definition shows (b : bool) (nav : Nav) : Prop :=
  (exists h, hamburger nav = Some h
             /\ attributes h !! "aria-expanded" = Some (String_of b)
             /\ ("active" ∈ classes h <-> b = true))
  /\ (exists m, navMenu nav = Some m /\ ("active" ∈ classes m <-> b = true))
  /\ (forall o, navOverlay nav = Some o ->
        attributes o !! "aria-hidden" = Some (String_of (negb b))
        /\ ("active" ∈ classes o <-> b = true)).

End StoreHours.

(* ===================================================================== *)
(** ** js/about.js: the counters of the statistics *)
(* ===================================================================== *)

Module Stats.

(** [Math.ceil(a / b)] for whole numbers with [b] positive, in the range
    where the division of doubles is exact enough. *)
Definition ceil_div (a b : Z) : Z := - ((- a) / b).

Definition duration : Z := 1500.
Definition steps : Z := ceil_div duration 30.
Definition stepIncrement (numericValue : Z) : Z :=
  ceil_div numericValue steps.

(** What [countUp] keeps between two ticks of its interval: [current],
    whether the interval is still set, and what the element shows (the
    number that goes through [toLocaleString], and whether ["+"] is
    appended); nothing is shown before the first tick. *)
Record Counter : Type := mkCounter {
  current : Z;
  running : bool;
  shown : option (Z * bool)
}.

Definition start : Counter := mkCounter 0 true None.

(** One tick of the interval for the target [numericValue]. *)
Definition tick (numericValue : Z) (isPlus : bool) (c : Counter) : Counter :=
  if running c then
    let current := current c + stepIncrement numericValue in
    let finished := Z.geb current numericValue in
    let current := if finished then numericValue else current in
    mkCounter current (negb finished)
              (Some (current, isPlus && Z.eqb current numericValue))
  else c.

Definition ticks (n : nat) (numericValue : Z) (isPlus : bool) : Counter :=
  Nat.iter n (tick numericValue isPlus) start.

End Stats.

(* ===================================================================== *)
(** ** The key buffer of the landing script *)
(* ===================================================================== *)

Module Konami.

Definition konamiSequence : list string :=
  [ "ArrowUp"; "ArrowUp"; "ArrowDown"; "ArrowDown"; "ArrowLeft";
    "ArrowRight"; "ArrowLeft"; "ArrowRight"; "b"; "a" ].

(** [array.join('')] *)
Definition join (keys : list string) : string :=
  List.fold_right String.append "" keys.

(** [array.slice(-10)] *)
Definition slice_last10 {A} (l : list A) : list A :=
  List.skipn (List.length l - 10) l.

(** The [keydown] listener: the buffer afterwards and whether
    [activateEasterEgg] is called. *)
Definition keydown (key : string) (konamiCode : list string)
  : list string * bool :=
  let konamiCode := slice_last10 (konamiCode ++ [key]) in
  (konamiCode, String.eqb (join konamiCode) (join konamiSequence)).

(** The listener over the keys pressed so far: the buffer, and whether
    the last key called [activateEasterEgg]. *)
Fixpoint pressed (keys : list string) (konamiCode : list string)
  : list string * bool :=
  match keys with
  | [] => (konamiCode, false)
  | [key] => keydown key konamiCode
  | key :: rest => pressed rest (fst (keydown key konamiCode))
  end.

End Konami.

(** Whether the badge says open on day [d] at [h]:[m]. *)
Definition open_at (d h m : Z) : bool :=
  match StoreHours.checkStoreStatus (StoreHours.mkTime (Some d) h m) with
  | Ok status => StoreHours.isOpen status
  | _ => false
  end.

(* ===================================================================== *)
(** * Properties *)
(* ===================================================================== *)

Local Open Scope list_scope.

(* ===================================================================== *)
(** ** [JSON.parse] undoes [JSON.stringify] *)
(* ===================================================================== *)

Module JSONFacts.
Import JSON.

Ltac each_char c :=
  destruct c as [[] [] [] [] [] [] [] []].

Lemma parse_chars_escape_char (c : ascii) (s : list ascii) :
  parse_chars (escape_char c ++ s)
  = match parse_chars s with
    | Some (cs, rest) => Some (c :: cs, rest)
    | None => None
    end.
Proof. each_char c; reflexivity. Qed.

Lemma parse_chars_escaped (l rest : list ascii) :
  parse_chars (List.concat (List.map escape_char l) ++ "034"%char :: rest)
  = Some (l, rest).
Proof.
  induction l as [|c l IH]; [reflexivity|].
  cbn [List.map List.concat]. rewrite <- List.app_assoc.
  rewrite parse_chars_escape_char, IH. reflexivity.
Qed.

Lemma quote_cons (s : string) (rest : list ascii) :
  quote s ++ rest
  = "034"%char :: List.concat (List.map escape_char (list_ascii_of_string s))
      ++ "034"%char :: rest.
Proof. unfold quote. cbn. rewrite <- List.app_assoc. reflexivity. Qed.

Lemma parse_string_quoted (s : string) (rest : list ascii) :
  parse_string (List.concat (List.map escape_char (list_ascii_of_string s))
                ++ "034"%char :: rest)
  = Some (s, rest).
Proof.
  unfold parse_string. rewrite parse_chars_escaped.
  rewrite string_of_list_ascii_of_string. reflexivity.
Qed.

(** *** Numbers *)

Lemma parse_uint_chars (u : uint) (rest : list ascii) :
  parse_uint rest = (Nil, rest) ->
  parse_uint (chars_of_uint u ++ rest) = (u, rest).
Proof.
  intros Hrest. induction u; cbn [chars_of_uint List.app]; [exact Hrest| ..];
    cbn [parse_uint]; rewrite IHu; reflexivity.
Qed.

Lemma pos_to_uint_canonical (p : positive) :
  Pos.to_uint p <> Nil /\ forall u, Pos.to_uint p <> D0 u.
Proof.
  split; [apply DecimalPos.Unsigned.to_uint_nonnil|].
  intros u Hu.
  assert (Hn : unorm (Pos.to_uint p) = Pos.to_uint p).
  { rewrite <- DecimalPos.Unsigned.to_of, DecimalPos.Unsigned.of_to.
    reflexivity. }
  assert (Hz : nzhead (Pos.to_uint p) <> Nil).
  { intros H0. apply unorm_0 in H0. rewrite Hn in H0.
    exact (DecimalPos.Unsigned.to_uint_nonzero p H0). }
  rewrite (unorm_nzhead _ Hz) in Hn.
  apply (nzhead_nonzero (Pos.to_uint p) u). rewrite Hn. exact Hu.
Qed.

Lemma parse_nat_pos (p : positive) (rest : list ascii) :
  delimited rest ->
  parse_nat (chars_of_uint (Pos.to_uint p) ++ rest) = Some (Npos p, rest).
Proof.
  intros [Hd Hf]. unfold parse_nat. rewrite (parse_uint_chars _ _ Hd).
  destruct (pos_to_uint_canonical p) as [Hnil Hzero].
  pose proof (DecimalPos.Unsigned.of_to p) as Hof.
  destruct (Pos.to_uint p) eqn:E;
    try (rewrite Hf; unfold N.of_uint; rewrite Hof; reflexivity).
  - congruence.
  - exfalso. exact (Hzero _ eq_refl).
Qed.

Lemma chars_of_uint_head (u : uint) :
  u <> Nil -> exists c tl, chars_of_uint u = c :: tl /\ number_start c = true
                           /\ c <> "-"%char.
Proof.
  destruct u; [congruence| ..]; intros _; eexists _, _;
    (split; [reflexivity|split; [reflexivity|discriminate]]).
Qed.

Lemma print_number_head (n : Z) :
  exists c tl, print_number n = c :: tl /\ number_start c = true.
Proof.
  destruct n as [|p|p]; cbn [print_number].
  - eexists _, _; split; reflexivity.
  - destruct (chars_of_uint_head (Pos.to_uint p)) as (c & tl & -> & Hc & _).
    { apply DecimalPos.Unsigned.to_uint_nonnil. }
    eexists _, _; split; [reflexivity|exact Hc].
  - eexists _, _; split; reflexivity.
Qed.

Lemma parse_number_printed (n : Z) (rest : list ascii) :
  delimited rest ->
  parse_number (print_number n ++ rest) = Some (VNum n, rest).
Proof.
  intros Hd. destruct n as [|p|p]; cbn [print_number].
  - destruct Hd as [Hd Hf]. cbn [List.app]. unfold parse_number, parse_nat.
    change (parse_uint ("0"%char :: rest))
      with (D0 (fst (parse_uint rest)), snd (parse_uint rest)).
    rewrite Hd. cbn [fst snd]. rewrite Hf. reflexivity.
  - destruct (chars_of_uint_head (Pos.to_uint p)) as (c & tl & E & Hc & Hm).
    { apply DecimalPos.Unsigned.to_uint_nonnil. }
    pose proof (parse_nat_pos p rest Hd) as Hp. rewrite E in *.
    cbn [List.app] in *. unfold parse_number.
    apply Ascii.eqb_neq in Hm. rewrite Hm, Hp. reflexivity.
  - cbn [List.app]. unfold parse_number. cbn [Ascii.eqb Bool.eqb].
    rewrite (parse_nat_pos p rest Hd). reflexivity.
Qed.

(** *** Values *)

Lemma print_head (v : value) :
  exists c tl, print v = c :: tl /\ token_start c = true.
Proof.
  destruct v as [| |[]|n|s|l|fs]; cbn [print quote List.app];
    try (eexists _, _; split; reflexivity).
  destruct (print_number_head n) as (c & tl & -> & Hc).
  eexists _, _; split; [reflexivity|]. unfold token_start. rewrite Hc.
  reflexivity.
Qed.

Lemma closes_token (c : ascii) (s : list ascii) :
  token_start c = true ->
  closes "]" (c :: s) = None /\ closes "}" (c :: s) = None.
Proof. each_char c; intros H; try discriminate H; split; reflexivity. Qed.

Lemma parse_value_number (fuel : nat) (c : ascii) (s : list ascii) :
  number_start c = true ->
  parse_value (S fuel) (c :: s) = parse_number (c :: s).
Proof. each_char c; intros H; try discriminate H; reflexivity. Qed.

Lemma delimited_comma (s : list ascii) : delimited (","%char :: s).
Proof. split; reflexivity. Qed.

Lemma delimited_bracket (s : list ascii) : delimited ("]"%char :: s).
Proof. split; reflexivity. Qed.

Lemma delimited_brace (s : list ascii) : delimited ("}"%char :: s).
Proof. split; reflexivity. Qed.

Lemma delimited_nil : delimited [].
Proof. split; reflexivity. Qed.

Lemma somes_members (fs : list (string * value)) :
  List.forallb (fun kv => storable (snd kv)) fs = true ->
  somes (List.map
           (fun kv => match snd kv with
                      | VUndef => None
                      | _ => Some (quote (fst kv) ++ ":"%char :: print (snd kv))
                      end) fs)
  = List.map member fs.
Proof.
  induction fs as [|[k v] fs IH]; [reflexivity|].
  cbn [List.forallb List.map somes fst snd]. intros H.
  apply andb_true_iff in H as [Hv Hfs]. rewrite <- (IH Hfs).
  destruct v; try reflexivity. discriminate Hv.
Qed.

Lemma join_cons2 (x y : list ascii) (rest : list (list ascii)) :
  join (x :: y :: rest) = x ++ ","%char :: join (y :: rest).
Proof. reflexivity. Qed.

Lemma print_nonempty (v : value) : (1 <= List.length (print v))%nat.
Proof.
  destruct (print_head v) as (c & tl & -> & _). cbn [List.length]. lia.
Qed.

Lemma member_cons (k : string) (v : value) (rest : list ascii) :
  member (k, v) ++ rest
  = "034"%char :: List.concat (List.map escape_char (list_ascii_of_string k))
      ++ "034"%char :: ":"%char :: print v ++ rest.
Proof.
  unfold member. cbn [fst snd]. rewrite <- List.app_assoc.
  rewrite quote_cons. reflexivity.
Qed.

Lemma existsb_app_false (k a : string) (l1 l2 : list string) :
  List.existsb (String.eqb a) (l1 ++ k :: l2) = false ->
  String.eqb k a = false /\ List.existsb (String.eqb a) (l1 ++ l2) = false.
Proof.
  rewrite !List.existsb_app. cbn [List.existsb].
  rewrite !orb_false_iff, (String.eqb_sym k a). tauto.
Qed.

Lemma distinct_middle (k : string) (l1 l2 : list string) :
  distinct (l1 ++ k :: l2) = true ->
  List.existsb (String.eqb k) l1 = false.
Proof.
  induction l1 as [|a l1 IH]; [reflexivity|].
  cbn [List.app distinct List.existsb].
  rewrite andb_true_iff, negb_true_iff. intros [Ha Hd].
  apply existsb_app_false in Ha as [-> _]. exact (IH Hd).
Qed.

Lemma set_field_fresh (k : string) (v : value) (fs : list (string * value)) :
  List.existsb (String.eqb k) (List.map fst fs) = false ->
  set_field k v fs = fs ++ [(k, v)].
Proof.
  induction fs as [|[k' v'] fs IH]; [reflexivity|].
  cbn [List.map List.existsb set_field fst List.app].
  rewrite orb_false_iff. intros [-> Hfs]. rewrite (IH Hfs). reflexivity.
Qed.

Lemma build_object_from (ms acc : list (string * value)) :
  distinct (List.map fst (acc ++ ms)) = true ->
  List.fold_left (fun a kv => set_field (fst kv) (snd kv) a) ms acc
  = acc ++ ms.
Proof.
  revert acc. induction ms as [|[k v] ms IH]; intros acc Hd.
  - rewrite List.app_nil_r. reflexivity.
  - cbn [List.fold_left fst snd]. rewrite List.map_app in Hd.
    cbn [List.map fst] in Hd.
    rewrite (set_field_fresh k v acc (distinct_middle _ _ _ Hd)).
    rewrite IH, <- List.app_assoc; [reflexivity|].
    rewrite <- List.app_assoc, List.map_app. exact Hd.
Qed.

Lemma build_object_distinct (ms : list (string * value)) :
  distinct (List.map fst ms) = true -> build_object ms = ms.
Proof. intros Hd. exact (build_object_from ms [] Hd). Qed.

Theorem print_parse_fuel (fuel : nat) :
  (forall v rest,
      storable v = true -> (List.length (print v) <= fuel)%nat ->
      delimited rest ->
      parse_value fuel (print v ++ rest) = Some (v, rest))
  /\ (forall l rest,
      l <> [] -> List.forallb storable l = true ->
      (List.length (join (List.map print l)) < fuel)%nat ->
      parse_elements fuel (join (List.map print l) ++ "]"%char :: rest)
      = Some (l, rest))
  /\ (forall fs rest,
      fs <> [] -> List.forallb (fun kv => storable (snd kv)) fs = true ->
      (List.length (join (List.map member fs)) < fuel)%nat ->
      parse_members fuel (join (List.map member fs) ++ "}"%char :: rest)
      = Some (fs, rest)).
Proof.
  induction fuel as [|fuel (IHv & IHl & IHm)].
  { split; [|split; intros; lia].
    intros v rest _ Hlen _. pose proof (print_nonempty v). lia. }
  split; [|split].
  - (* one value *)
    intros v rest Hs Hlen Hd.
    destruct v as [| |[]|n|s|l|fs]; try discriminate Hs; try reflexivity.
    + destruct (print_number_head n) as (c & tl & E & Hc).
      pose proof (parse_number_printed n rest Hd) as Hp.
      cbn [print] in *. rewrite E in *. cbn [List.app] in *.
      rewrite (parse_value_number _ _ _ Hc). exact Hp.
    + cbn [print]. rewrite quote_cons.
      change (parse_value (S fuel) ("034"%char :: ?r))
        with (match parse_string r with
              | Some (str, rest0) => Some (VStr str, rest0)
              | None => None
              end).
      rewrite parse_string_quoted. reflexivity.
    + cbn [print storable] in *. destruct l as [|v l]; [reflexivity|].
      cbn [List.app]. rewrite <- List.app_assoc. cbn [List.app].
      change (parse_value (S fuel) ("["%char :: ?r))
        with (match closes "]" r with
              | Some rest0 => Some (VArr [], rest0)
              | None => match parse_elements fuel r with
                        | Some (vs, rest0) => Some (VArr vs, rest0)
                        | None => None
                        end
              end).
      assert (Hc : closes "]"
                 (join (List.map print (v :: l)) ++ "]"%char :: rest) = None).
      { destruct (print_head v) as (c & tl & E & Hc).
        destruct l; cbn [List.map]; [cbn [join]|rewrite join_cons2];
          rewrite E; cbn [List.app]; apply closes_token; exact Hc. }
      rewrite Hc, IHl; [reflexivity|discriminate|exact Hs|].
      cbn [List.length] in Hlen. rewrite List.length_app in Hlen.
      cbn [List.length] in Hlen. lia.
    + cbn [print storable] in *. apply andb_true_iff in Hs as [Hk Hs].
      rewrite (somes_members _ Hs) in *.
      destruct fs as [|kv fs]; [reflexivity|].
      cbn [List.app]. rewrite <- List.app_assoc. cbn [List.app].
      change (parse_value (S fuel) ("{"%char :: ?r))
        with (match closes "}" r with
              | Some rest0 => Some (VObj [], rest0)
              | None => match parse_members fuel r with
                        | Some (ms, rest0) => Some (VObj (build_object ms), rest0)
                        | None => None
                        end
              end).
      assert (Hc : closes "}"
                 (join (List.map member (kv :: fs)) ++ "}"%char :: rest) = None).
      { destruct fs; cbn [List.map]; [cbn [join]|rewrite join_cons2];
          unfold member at 1; unfold quote; reflexivity. }
      rewrite Hc, IHm; [|discriminate|exact Hs|].
      * rewrite (build_object_distinct _ Hk). reflexivity.
      * cbn [List.length] in Hlen. rewrite List.length_app in Hlen.
        cbn [List.length] in Hlen. lia.
  - (* the elements of an array *)
    intros l rest Hne Hs Hlen.
    destruct l as [|v l]; [congruence|]. clear Hne.
    cbn [List.forallb] in Hs. apply andb_true_iff in Hs as [Hv Hs].
    change (parse_elements (S fuel) ?s)
      with (match parse_value fuel s with
            | None => None
            | Some (v0, r) =>
                match skip_ws r with
                | ","%char :: r1 =>
                    match parse_elements fuel r1 with
                    | Some (vs, rest0) => Some (v0 :: vs, rest0)
                    | None => None
                    end
                | "]"%char :: rest0 => Some ([v0], rest0)
                | _ => None
                end
            end).
    destruct l as [|w l].
    + cbn [List.map join] in *.
      rewrite IHv; [reflexivity|exact Hv|lia|apply delimited_bracket].
    + cbn [List.map] in *. rewrite join_cons2 in *.
      rewrite <- List.app_assoc. cbn [List.app].
      rewrite List.length_app in Hlen. cbn [List.length] in Hlen.
      rewrite IHv; [|exact Hv|lia|apply delimited_comma].
      change (skip_ws (","%char :: ?r)) with (","%char :: r).
      cbv beta iota.
      assert (Hl : parse_elements fuel
                (join (List.map print (w :: l)) ++ "]"%char :: rest)
              = Some (w :: l, rest)).
      { apply IHl; [discriminate|exact Hs|cbn [List.map]; lia]. }
      cbn [List.map] in Hl. rewrite Hl. reflexivity.
  - (* the members of an object *)
    intros fs rest Hne Hs Hlen.
    destruct fs as [|[k v] fs]; [congruence|]. clear Hne.
    cbn [List.forallb snd] in Hs. apply andb_true_iff in Hs as [Hv Hs].
    assert (Hstep : forall tl,
      (List.length (print v) <= fuel)%nat -> delimited tl ->
      parse_members (S fuel) (member (k, v) ++ tl)
      = match skip_ws tl with
        | ","%char :: r4 =>
            match parse_members fuel r4 with
            | Some (ms, rest0) => Some ((k, v) :: ms, rest0)
            | None => None
            end
        | "}"%char :: rest0 => Some ([(k, v)], rest0)
        | _ => None
        end).
    { intros tl Hl Hd. rewrite member_cons.
      change (parse_members (S fuel) ("034"%char :: ?r))
        with (match parse_string r with
              | None => None
              | Some (k0, r1) =>
                  match skip_ws r1 with
                  | ":"%char :: r2 =>
                      match parse_value fuel r2 with
                      | None => None
                      | Some (v0, r3) =>
                          match skip_ws r3 with
                          | ","%char :: r4 =>
                              match parse_members fuel r4 with
                              | Some (ms, rest0) => Some ((k0, v0) :: ms, rest0)
                              | None => None
                              end
                          | "}"%char :: rest0 => Some ([(k0, v0)], rest0)
                          | _ => None
                          end
                      end
                  | _ => None
                  end
              end).
      rewrite parse_string_quoted.
      change (skip_ws (":"%char :: ?r)) with (":"%char :: r).
      cbv beta iota. rewrite (IHv v tl Hv Hl Hd). reflexivity. }
    assert (Hpv : (List.length (member (k, v)) >= List.length (print v))%nat).
    { unfold member. rewrite List.length_app. cbn [List.length snd]. lia. }
    destruct fs as [|kv fs].
    + cbn [List.map join] in *.
      rewrite Hstep; [reflexivity|lia|apply delimited_brace].
    + cbn [List.map] in *. rewrite join_cons2 in *.
      rewrite <- List.app_assoc. cbn [List.app].
      rewrite List.length_app in Hlen. cbn [List.length] in Hlen.
      rewrite Hstep; [|lia|apply delimited_comma].
      change (skip_ws (","%char :: ?r)) with (","%char :: r).
      cbv beta iota.
      assert (Hm : parse_members fuel
                (join (List.map member (kv :: fs)) ++ "}"%char :: rest)
              = Some (kv :: fs, rest)).
      { apply IHm; [discriminate|exact Hs|cbn [List.map]; lia]. }
      cbn [List.map] in Hm. rewrite Hm. reflexivity.
Qed.

(** [JSON.parse(JSON.stringify(v))] gives [v] back for every value without
    [undefined] in it and without a repeated key. *)
Theorem parse_stringify (v : value) :
  storable v = true ->
  JSON.parse (JSON_stringify v) = Some v.
Proof.
  intros Hs. unfold JSON.parse, JSON_stringify, stringify.
  destruct v; try discriminate Hs;
    rewrite list_ascii_of_string_of_list_ascii;
    match goal with
    | |- context [parse_value _ (print ?v)] =>
        pose proof (proj1 (print_parse_fuel (S (List.length (print v))))
                      v [] Hs (Nat.le_succ_diag_r _) delimited_nil) as H;
        rewrite List.app_nil_r in H; rewrite H; reflexivity
    end.
Qed.
(** *** What the parser returns *)

Lemma parse_number_num (s r : list ascii) (v : value) :
  parse_number s = Some (v, r) -> exists n, v = VNum n.
Proof.
  unfold parse_number. destruct s as [|c s]; [discriminate|].
  destruct (Ascii.eqb c "-");
    [destruct (parse_nat s) as [[n rest]|]
    |destruct (parse_nat (c :: s)) as [[n rest]|]];
    intros [= <- <-] || discriminate; eauto.
Qed.

Lemma parse_value_S (fuel : nat) (s : list ascii) :
  parse_value (S fuel) s
  = match skip_ws s with
      | "n"%char :: "u"%char :: "l"%char :: "l"%char :: r => Some (VNull, r)
      | "t"%char :: "r"%char :: "u"%char :: "e"%char :: r => Some (VBool true, r)
      | "f"%char :: "a"%char :: "l"%char :: "s"%char :: "e"%char :: r =>
          Some (VBool false, r)
      | "034"%char :: r =>
          match parse_string r with
          | Some (str, rest) => Some (VStr str, rest)
          | None => None
          end
      | "["%char :: r =>
          match closes "]" r with
          | Some rest => Some (VArr [], rest)
          | None =>
              match parse_elements fuel r with
              | Some (vs, rest) => Some (VArr vs, rest)
              | None => None
              end
          end
      | "{"%char :: r =>
          match closes "}" r with
          | Some rest => Some (VObj [], rest)
          | None =>
              match parse_members fuel r with
              | Some (ms, rest) => Some (VObj (build_object ms), rest)
              | None => None
              end
          end
      | other => parse_number other
      end.
Proof. reflexivity. Qed.

Ltac number_case :=
  match goal with
  | |- parse_number _ = Some _ -> _ =>
      let H := fresh in
      intros H; apply parse_number_num in H as [? ->]; constructor
  end.

Ltac split_match :=
  repeat match goal with
         | |- match ?x with _ => _ end = Some _ -> _ => destruct x
         end.

Lemma parse_value_parsed (fuel : nat) (s r : list ascii) (v : value) :
  parse_value (S fuel) s = Some (v, r) -> parsed fuel r v.
Proof.
  rewrite parse_value_S. destruct (skip_ws s) as [|c tl].
  { discriminate. }
  each_char c; cbv beta iota; try number_case.
  all: try solve [split_match; try number_case; intros [= <- <-]; constructor].
  - destruct (closes "}" tl); [intros [= <- <-]; constructor|].
    destruct (parse_members fuel tl) as [[ms rest]|] eqn:E; [|discriminate].
    intros [= <- <-]. econstructor; exact E.
  - destruct (closes "]" tl); [intros [= <- <-]; constructor|].
    destruct (parse_elements fuel tl) as [[ms rest]|] eqn:E; [|discriminate].
    intros [= <- <-]. econstructor; exact E.
Qed.

Lemma parse_elements_S (fuel : nat) (s : list ascii) :
  parse_elements (S fuel) s
  = match parse_value fuel s with
    | None => None
    | Some (v, r) =>
        match skip_ws r with
        | ","%char :: r1 =>
            match parse_elements fuel r1 with
            | Some (vs, rest) => Some (v :: vs, rest)
            | None => None
            end
        | "]"%char :: rest => Some ([v], rest)
        | _ => None
        end
    end.
Proof. reflexivity. Qed.

Lemma parse_members_S (fuel : nat) (s : list ascii) :
  parse_members (S fuel) s
  = match skip_ws s with
    | "034"%char :: r =>
        match parse_string r with
        | None => None
        | Some (k, r1) =>
            match skip_ws r1 with
            | ":"%char :: r2 =>
                match parse_value fuel r2 with
                | None => None
                | Some (v, r3) =>
                    match skip_ws r3 with
                    | ","%char :: r4 =>
                        match parse_members fuel r4 with
                        | Some (ms, rest) => Some ((k, v) :: ms, rest)
                        | None => None
                        end
                    | "}"%char :: rest => Some ([(k, v)], rest)
                    | _ => None
                    end
                end
            | _ => None
            end
        end
    | _ => None
    end.
Proof. reflexivity. Qed.

(** The elements of a parsed array: a first value and, after a comma, the
    rest. *)
Lemma parse_elements_inv (fuel : nat) (s r : list ascii) (l : list value) :
  parse_elements (S fuel) s = Some (l, r) ->
  exists v r1 l',
    parse_value fuel s = Some (v, r1) /\ l = v :: l'
    /\ (l' = [] \/ exists s', parse_elements fuel s' = Some (l', r)).
Proof.
  rewrite parse_elements_S.
  destruct (parse_value fuel s) as [[v r1]|]; [|discriminate].
  destruct (skip_ws r1) as [|c tl]; [discriminate|].
  each_char c; cbv beta iota; try discriminate.
  - intros [= <- <-]. eexists _, _, _; eauto.
  - destruct (parse_elements fuel tl) as [[vs rest]|] eqn:E; [|discriminate].
    intros [= <- <-]. eexists _, _, _; eauto 6.
Qed.

Lemma parse_members_inv (fuel : nat) (s r : list ascii)
      (ms : list (string * value)) :
  parse_members (S fuel) s = Some (ms, r) ->
  exists k v s1 r1 ms',
    parse_value fuel s1 = Some (v, r1) /\ ms = (k, v) :: ms'
    /\ (ms' = [] \/ exists s', parse_members fuel s' = Some (ms', r)).
Proof.
  rewrite parse_members_S.
  destruct (skip_ws s) as [|c tl]; [discriminate|].
  each_char c; cbv beta iota; try discriminate.
  destruct (parse_string tl) as [[k r1]|]; [|discriminate].
  destruct (skip_ws r1) as [|c tl1]; [discriminate|].
  each_char c; cbv beta iota; try discriminate.
  destruct (parse_value fuel tl1) as [[v r3]|] eqn:Ev; [|discriminate].
  destruct (skip_ws r3) as [|c tl3]; [discriminate|].
  each_char c; cbv beta iota; try discriminate.
  - intros [= <- <-]. eexists _, _, _, _, _; eauto.
  - destruct (parse_members fuel tl3) as [[ms' rest]|] eqn:E; [|discriminate].
    intros [= <- <-]. eexists _, _, _, _, _; eauto 6.
Qed.

(** *** Objects built property by property *)

Lemma set_field_keys (k : string) (v : value) (fs : list (string * value)) :
  List.map fst (set_field k v fs)
  = if List.existsb (String.eqb k) (List.map fst fs) then List.map fst fs
    else List.map fst fs ++ [k].
Proof.
  induction fs as [|[k' v'] fs IH]; [reflexivity|].
  cbn [List.map List.existsb set_field fst].
  destruct (String.eqb_spec k k') as [->|Hne]; [reflexivity|].
  cbn [orb List.map fst]. rewrite IH.
  destruct (List.existsb _ _); reflexivity.
Qed.

Lemma distinct_snoc (k : string) (keys : list string) :
  distinct keys = true -> List.existsb (String.eqb k) keys = false ->
  distinct (keys ++ [k]) = true.
Proof.
  induction keys as [|a keys IH]; [reflexivity|].
  cbn [List.app distinct List.existsb].
  rewrite andb_true_iff, negb_true_iff, orb_false_iff.
  intros [Ha Hd] [Hka Hk]. rewrite (IH Hd Hk), List.existsb_app, Ha.
  cbn [List.existsb]. rewrite (String.eqb_sym a k), Hka. reflexivity.
Qed.

Lemma set_field_distinct (k : string) (v : value)
      (fs : list (string * value)) :
  distinct (List.map fst fs) = true ->
  distinct (List.map fst (set_field k v fs)) = true.
Proof.
  intros Hd. rewrite set_field_keys.
  destruct (List.existsb _ _) eqn:E; [exact Hd|].
  exact (distinct_snoc _ _ Hd E).
Qed.

Lemma set_field_storable (k : string) (v : value)
      (fs : list (string * value)) :
  storable v = true ->
  List.forallb (fun kv => storable (snd kv)) fs = true ->
  List.forallb (fun kv => storable (snd kv)) (set_field k v fs) = true.
Proof.
  intros Hv. induction fs as [|[k' v'] fs IH]; cbn [set_field List.forallb snd].
  - intros _. rewrite Hv. reflexivity.
  - rewrite andb_true_iff. intros [Hv' Hfs].
    destruct (String.eqb k k'); cbn [List.forallb snd].
    + rewrite Hv, Hfs. reflexivity.
    + rewrite Hv', (IH Hfs). reflexivity.
Qed.

Lemma build_object_storable (ms acc : list (string * value)) :
  storable (VObj acc) = true ->
  List.forallb (fun kv => storable (snd kv)) ms = true ->
  storable
    (VObj (List.fold_left (fun a kv => set_field (fst kv) (snd kv) a) ms acc))
  = true.
Proof.
  revert acc. induction ms as [|[k v] ms IH]; intros acc Ha Hms.
  - exact Ha.
  - cbn [List.forallb snd] in Hms. apply andb_true_iff in Hms as [Hv Hms].
    cbn [List.fold_left fst snd]. apply IH; [|exact Hms].
    cbn [storable] in *. apply andb_true_iff in Ha as [Hd Hs].
    rewrite (set_field_distinct _ _ _ Hd), (set_field_storable _ _ _ Hv Hs).
    reflexivity.
Qed.

(** Whatever [JSON.parse] returns can be written back in full. *)
Theorem parse_value_storable (fuel : nat) :
  (forall s r v, parse_value fuel s = Some (v, r) -> storable v = true)
  /\ (forall s r l,
        parse_elements fuel s = Some (l, r) ->
        List.forallb storable l = true)
  /\ (forall s r ms,
        parse_members fuel s = Some (ms, r) ->
        List.forallb (fun kv => storable (snd kv)) ms = true).
Proof.
  induction fuel as [|fuel (IHv & IHl & IHm)].
  { repeat split; discriminate. }
  split; [|split].
  - intros s r v H. apply parse_value_parsed in H.
    destruct H as [| | | | |s' vs H| |s' ms H]; try reflexivity.
    + exact (IHl _ _ _ H).
    + apply build_object_storable; [reflexivity|exact (IHm _ _ _ H)].
  - intros s r l H.
    apply parse_elements_inv in H as (v & r1 & l' & Hv & -> & Hl').
    cbn [List.forallb]. rewrite (IHv _ _ _ Hv).
    destruct Hl' as [->|[s' Hl']]; [reflexivity|exact (IHl _ _ _ Hl')].
  - intros s r ms H.
    apply parse_members_inv in H as (k & v & s1 & r1 & ms' & Hv & -> & Hm').
    cbn [List.forallb snd]. rewrite (IHv _ _ _ Hv).
    destruct Hm' as [->|[s' Hm']]; [reflexivity|exact (IHm _ _ _ Hm')].
Qed.

Corollary parse_storable (text : string) (v : value) :
  JSON.parse text = Some v -> storable v = true.
Proof.
  unfold JSON.parse.
  destruct (parse_value _ _) as [[w rest]|] eqn:E; [|discriminate].
  destruct (skip_ws rest); intros [= <-].
  exact (proj1 (parse_value_storable _) _ _ _ E).
Qed.

(** What is read back after a value was parsed and written again. *)
Corollary parse_stringify_parse (text : string) (v : value) :
  JSON.parse text = Some v -> JSON.parse (JSON_stringify v) = Some v.
Proof. intros H. apply parse_stringify, (parse_storable _ _ H). Qed.

(** *** Values with [undefined] in them *)

Lemma print_json_form (v : value) : print (json_form v) = print v.
Proof.
  induction v as [| | | | |l IH|fs IH] using value_induction;
    try reflexivity.
  - cbn [json_form print]. f_equal. f_equal. f_equal.
    induction IH as [|x l Hx _ IHl]; [reflexivity|].
    cbn [List.map]. rewrite Hx, IHl. reflexivity.
  - cbn [json_form print]. f_equal. f_equal. f_equal.
    induction IH as [|[k x] fs Hx _ IHfs]; [reflexivity|].
    cbn [List.map somes fst snd] in *.
    destruct x; cbn [somes List.map fst snd]; try exact IHfs;
      rewrite <- IHfs; try reflexivity;
      cbn [fst snd]; rewrite Hx; reflexivity.
Qed.

Lemma json_form_keys_sub (k : string) (fs : list (string * value)) :
  List.existsb (String.eqb k) (List.map fst fs) = false ->
  List.existsb (String.eqb k)
    (List.map fst
       (somes (List.map (fun kv => match snd kv with
                                   | VUndef => None
                                   | _ => Some (fst kv, json_form (snd kv))
                                   end) fs))) = false.
Proof.
  induction fs as [|[k' x] fs IH]; [reflexivity|].
  cbn [List.map List.existsb fst snd]. rewrite orb_false_iff.
  intros [Hk Hfs].
  destruct x; cbn [somes List.map List.existsb fst]; rewrite ?Hk, IH;
    auto.
Qed.

Lemma json_form_distinct (fs : list (string * value)) :
  distinct (List.map fst fs) = true ->
  distinct
    (List.map fst
       (somes (List.map (fun kv => match snd kv with
                                   | VUndef => None
                                   | _ => Some (fst kv, json_form (snd kv))
                                   end) fs))) = true.
Proof.
  induction fs as [|[k x] fs IH]; [reflexivity|].
  cbn [List.map distinct fst snd].
  rewrite andb_true_iff, negb_true_iff. intros [Hk Hd].
  destruct x; cbn [somes List.map distinct fst];
    rewrite ?(json_form_keys_sub _ _ Hk), IH; auto.
Qed.

Lemma json_form_storable (v : value) :
  well_formed v = true -> storable (json_form v) = true.
Proof.
  induction v as [| | | | |l IH|fs IH] using value_induction;
    try reflexivity.
  - cbn [well_formed json_form storable].
    induction IH as [|x l Hx _ IHl]; [reflexivity|].
    cbn [List.map List.forallb]. rewrite !andb_true_iff.
    intros [Hwx Hwl]. auto.
  - cbn [well_formed json_form storable]. rewrite !andb_true_iff.
    intros [Hd Hw]. split; [exact (json_form_distinct _ Hd)|]. clear Hd.
    induction IH as [|[k x] fs Hx _ IHfs]; [reflexivity|].
    cbn [List.map List.forallb fst snd] in *.
    apply andb_true_iff in Hw as [Hwx Hwfs].
    destruct x; cbn [somes List.forallb snd]; rewrite ?andb_true_iff;
      auto.
Qed.

Lemma storable_well_formed (v : value) :
  storable v = true -> well_formed v = true.
Proof.
  induction v as [| | | | |l IH|fs IH] using value_induction;
    try reflexivity.
  - cbn [well_formed storable].
    induction IH as [|x l Hx _ IHl]; [reflexivity|].
    cbn [List.forallb]. rewrite !andb_true_iff. intros [? ?]. auto.
  - cbn [well_formed storable]. rewrite !andb_true_iff.
    intros [Hd Hs]. split; [exact Hd|]. clear Hd.
    induction IH as [|[k x] fs Hx _ IHfs]; [reflexivity|].
    cbn [List.forallb snd] in *. rewrite !andb_true_iff in *.
    destruct Hs. auto.
Qed.

Lemma json_form_id (v : value) : storable v = true -> json_form v = v.
Proof.
  induction v as [| | | | |l IH|fs IH] using value_induction;
    try reflexivity; try discriminate.
  - cbn [storable json_form]. intros Hs. f_equal.
    induction IH as [|x l Hx _ IHl]; [reflexivity|].
    cbn [List.forallb List.map] in *.
    apply andb_true_iff in Hs as [Hsx Hsl].
    rewrite (Hx Hsx), (IHl Hsl). reflexivity.
  - cbn [storable json_form]. rewrite andb_true_iff. intros [_ Hs]. f_equal.
    induction IH as [|[k x] fs Hx _ IHfs]; [reflexivity|].
    cbn [List.forallb List.map snd fst] in *.
    apply andb_true_iff in Hs as [Hsx Hsfs].
    destruct x; try discriminate Hsx; cbn [somes];
      rewrite (IHfs Hsfs), ?(Hx Hsx); reflexivity.
Qed.

(** Reading back what [JSON.stringify] wrote gives the JSON form of the
    value. *)
Theorem parse_stringify_form (v : value) :
  well_formed v = true -> v <> VUndef ->
  JSON.parse (JSON_stringify v) = Some (json_form v).
Proof.
  intros Hw Hv.
  rewrite <- (parse_stringify (json_form v) (json_form_storable v Hw)).
  f_equal. unfold JSON_stringify, stringify.
  rewrite print_json_form.
  destruct v; try reflexivity. congruence.
Qed.

(** *** The fuel of the parser *)

Lemma skip_ws_length (s : list ascii) :
  (List.length (skip_ws s) <= List.length s)%nat.
Proof.
  induction s as [|c s IH]; [reflexivity|].
  cbn [skip_ws]. destruct (is_ws c); cbn [List.length]; lia.
Qed.

Lemma skip_ws_cons (s tl : list ascii) (c : ascii) :
  skip_ws s = c :: tl -> (List.length tl < List.length s)%nat.
Proof.
  intros H. pose proof (skip_ws_length s) as Hl. rewrite H in Hl.
  cbn [List.length] in Hl. lia.
Qed.

Lemma closes_length (c : ascii) (s r : list ascii) :
  closes c s = Some r -> (List.length r < List.length s)%nat.
Proof.
  unfold closes. destruct (skip_ws s) as [|x tl] eqn:E; [discriminate|].
  destruct (Ascii.eqb x c); [|discriminate]. intros [= <-].
  exact (skip_ws_cons _ _ _ E).
Qed.

Lemma parse_chars_length (n : nat) (s cs r : list ascii) :
  (List.length s <= n)%nat ->
  parse_chars s = Some (cs, r) -> (List.length r < List.length s)%nat.
Proof.
  revert s cs r. induction n as [|n IH]; intros s cs r Hn.
  { destruct s; [discriminate|cbn [List.length] in Hn; lia]. }
  destruct s as [|c s]; [discriminate|]. cbn [List.length] in *.
  cbn [parse_chars].
  destruct (Ascii.eqb c "034"); [intros [= <- <-]; lia|].
  destruct (Ascii.eqb c "\").
  - destruct s as [|e s]; [discriminate|]. cbn [List.length] in *.
    assert (Hsimple : forall x : ascii,
      match parse_chars s with
      | Some (cs0, rest) => Some (x :: cs0, rest)
      | None => None
      end = Some (cs, r) -> (List.length r < S (S (List.length s)))%nat).
    { intros x. destruct (parse_chars s) as [[cs0 rest]|] eqn:E;
        [|discriminate].
      intros [= <- <-]. apply IH in E; lia. }
    repeat match goal with
           | |- (if ?b then _ else _) = _ -> _ =>
               destruct b; [exact (Hsimple _)|]
           end.
    destruct (Ascii.eqb e "u"); [|discriminate].
    destruct s as [|h1 [|h2 [|h3 [|h4 s]]]]; try discriminate.
    destruct (unicode_escape h1 h2 h3 h4); [|discriminate].
    destruct (parse_chars s) as [[cs0 rest]|] eqn:E; [|discriminate].
    intros [= <- <-]. cbn [List.length] in *. apply IH in E; lia.
  - destruct (Nat.ltb _ _); [discriminate|].
    destruct (parse_chars s) as [[cs0 rest]|] eqn:E; [|discriminate].
    intros [= <- <-]. apply IH in E; lia.
Qed.

Lemma parse_string_length (s r : list ascii) (str : string) :
  parse_string s = Some (str, r) -> (List.length r < List.length s)%nat.
Proof.
  unfold parse_string.
  destruct (parse_chars s) as [[cs rest]|] eqn:E; [|discriminate].
  intros [= _ <-]. exact (parse_chars_length _ _ _ _ (Nat.le_refl _) E).
Qed.

Lemma parse_uint_length (s : list ascii) :
  (List.length (snd (parse_uint s)) <= List.length s)%nat
  /\ (fst (parse_uint s) <> Nil ->
      (List.length (snd (parse_uint s)) < List.length s)%nat).
Proof.
  induction s as [|c s [IH _]]; [split; [reflexivity|intros H; now elim H]|].
  cbn [parse_uint].
  repeat match goal with
         | |- context [if ?b then _ else _] =>
             destruct b; [cbn [fst snd List.length]; split; intros; lia|]
         end.
  cbn [fst snd]. split; [lia|]. intros H. now elim H.
Qed.

Lemma parse_nat_length (s r : list ascii) (n : N) :
  parse_nat s = Some (n, r) -> (List.length r < List.length s)%nat.
Proof.
  unfold parse_nat. pose proof (parse_uint_length s) as [_ Hlt].
  destruct (parse_uint s) as [u rest]. cbn [fst snd] in Hlt.
  destruct u as [|u|u|u|u|u|u|u|u|u|u]; try discriminate;
    try (destruct (starts_fraction rest); [discriminate|];
         intros [= _ <-]; apply Hlt; discriminate).
  destruct u; try discriminate.
  destruct (starts_fraction rest); [discriminate|].
  intros [= _ <-]. apply Hlt. discriminate.
Qed.

Lemma parse_number_length (s r : list ascii) (v : value) :
  parse_number s = Some (v, r) -> (List.length r < List.length s)%nat.
Proof.
  unfold parse_number. destruct s as [|c s]; [discriminate|].
  destruct (Ascii.eqb c "-").
  - destruct (parse_nat s) as [[n rest]|] eqn:E; [|discriminate].
    intros [= _ <-]. apply parse_nat_length in E. cbn [List.length]. lia.
  - destruct (parse_nat (c :: s)) as [[n rest]|] eqn:E; [|discriminate].
    intros [= _ <-]. exact (parse_nat_length _ _ _ E).
Qed.

Ltac read_length :=
  repeat match goal with
         | |- match ?x with _ => _ end = Some _ -> _ => destruct x eqn:?
         end;
  try discriminate;
  first
    [ let H := fresh in
      intros H; apply parse_number_length in H; cbn [List.length] in *; lia
    | intros [= <- <-];
      repeat match goal with
             | H : parse_string _ = Some _ |- _ =>
                 apply parse_string_length in H
             end;
      cbn [List.length] in *; lia ].

Theorem fuel_settles (m : nat) :
  (forall s v r, parse_value m s = Some (v, r) -> settled parse_value s v r)
  /\ (forall s l r,
        parse_elements m s = Some (l, r) -> settled parse_elements s l r)
  /\ (forall s ms r,
        parse_members m s = Some (ms, r) -> settled parse_members s ms r).
Proof.
  induction m as [|m (IHv & IHl & IHm)].
  { repeat split; discriminate. }
  split; [|split].
  - intros s v r. rewrite parse_value_S.
    destruct (skip_ws s) as [|c tl] eqn:Hs; [discriminate|].
    pose proof (skip_ws_cons _ _ _ Hs) as Htl.
    each_char c; cbv beta iota.
    all: try solve
      [ let H := fresh "H" in
        intros H;
        assert (Hlen : (List.length r < List.length s)%nat)
          by (revert H; read_length);
        split; [exact Hlen|];
        intros [|n] Hn; [lia|];
        rewrite parse_value_S, Hs; cbv beta iota; exact H ].
    + destruct (closes "}" tl) as [rest|] eqn:Hc.
      * intros [= <- <-]. apply closes_length in Hc as Hlen.
        split; [lia|]. intros [|n] Hn; [lia|].
        rewrite parse_value_S, Hs. cbv beta iota. rewrite Hc. reflexivity.
      * destruct (parse_members m tl) as [[ms rest]|] eqn:E; [|discriminate].
        intros [= <- <-]. apply IHm in E as [Hlen Hfuel].
        split; [lia|]. intros [|n] Hn; [lia|].
        rewrite parse_value_S, Hs. cbv beta iota.
        rewrite Hc, (Hfuel n); [reflexivity|lia].
    + destruct (closes "]" tl) as [rest|] eqn:Hc.
      * intros [= <- <-]. apply closes_length in Hc as Hlen.
        split; [lia|]. intros [|n] Hn; [lia|].
        rewrite parse_value_S, Hs. cbv beta iota. rewrite Hc. reflexivity.
      * destruct (parse_elements m tl) as [[vs rest]|] eqn:E; [|discriminate].
        intros [= <- <-]. apply IHl in E as [Hlen Hfuel].
        split; [lia|]. intros [|n] Hn; [lia|].
        rewrite parse_value_S, Hs. cbv beta iota.
        rewrite Hc, (Hfuel n); [reflexivity|lia].
  - intros s l r. rewrite parse_elements_S.
    destruct (parse_value m s) as [[v r1]|] eqn:Ev; [|discriminate].
    apply IHv in Ev as [Hlen1 Hfuel1].
    destruct (skip_ws r1) as [|c tl] eqn:Hs; [discriminate|].
    pose proof (skip_ws_cons _ _ _ Hs) as Htl.
    each_char c; cbv beta iota; try discriminate.
    + intros [= <- <-]. split; [lia|]. intros [|n] Hn; [lia|].
      rewrite parse_elements_S, (Hfuel1 n), Hs; [reflexivity|lia].
    + destruct (parse_elements m tl) as [[vs rest]|] eqn:E; [|discriminate].
      intros [= <- <-]. apply IHl in E as [Hlen Hfuel].
      split; [lia|]. intros [|n] Hn; [lia|].
      rewrite parse_elements_S, (Hfuel1 n), Hs; [|lia]. cbv beta iota.
      rewrite (Hfuel n); [reflexivity|lia].
  - intros s ms r. rewrite parse_members_S.
    destruct (skip_ws s) as [|c tl] eqn:Hs; [discriminate|].
    pose proof (skip_ws_cons _ _ _ Hs) as Htl.
    each_char c; cbv beta iota; try discriminate.
    destruct (parse_string tl) as [[k r1]|] eqn:Ek; [|discriminate].
    apply parse_string_length in Ek as Hk.
    destruct (skip_ws r1) as [|c tl1] eqn:Hs1; [discriminate|].
    pose proof (skip_ws_cons _ _ _ Hs1) as Htl1.
    each_char c; cbv beta iota; try discriminate.
    destruct (parse_value m tl1) as [[v r3]|] eqn:Ev; [|discriminate].
    apply IHv in Ev as [Hlen3 Hfuel3].
    destruct (skip_ws r3) as [|c tl3] eqn:Hs3; [discriminate|].
    pose proof (skip_ws_cons _ _ _ Hs3) as Htl3.
    each_char c; cbv beta iota; try discriminate.
    + intros [= <- <-]. split; [lia|]. intros [|n] Hn; [lia|].
      rewrite parse_members_S, Hs. cbv beta iota. rewrite Ek, Hs1.
      cbv beta iota. rewrite (Hfuel3 n), Hs3; [reflexivity|lia].
    + destruct (parse_members m tl3) as [[ms' rest]|] eqn:E; [|discriminate].
      intros [= <- <-]. apply IHm in E as [Hlen Hfuel].
      split; [lia|]. intros [|n] Hn; [lia|].
      rewrite parse_members_S, Hs. cbv beta iota. rewrite Ek, Hs1.
      cbv beta iota. rewrite (Hfuel3 n), Hs3; [|lia]. cbv beta iota.
      rewrite (Hfuel n); [reflexivity|lia].
Qed.

(** The answer of [JSON.parse] does not depend on its fuel: whenever some
    fuel lets the parser read a value off the text, the fuel of [parse]
    reads the same value and leaves the same rest. *)
Corollary parse_fuel_enough (fuel : nat) (text : string) (v : value)
          (rest : list ascii) :
  parse_value fuel (list_ascii_of_string text) = Some (v, rest) ->
  parse_value (S (List.length (list_ascii_of_string text)))
              (list_ascii_of_string text) = Some (v, rest).
Proof.
  intros H. apply (proj1 (fuel_settles fuel)) in H as [_ Hfuel].
  apply Hfuel. lia.
Qed.

(** *** What [JSON.stringify] writes is text the embedding follows *)

Lemma beyond_escape_char (c : ascii) (s : list ascii) :
  beyond_from Inside (escape_char c ++ s) = beyond_from Inside s.
Proof. each_char c; reflexivity. Qed.

Lemma beyond_escaped (l rest : list ascii) :
  beyond_from Inside
    (List.concat (List.map escape_char l) ++ "034"%char :: rest)
  = beyond_from (Between false) rest.
Proof.
  induction l as [|c l IH]; [reflexivity|].
  cbn [List.map List.concat]. rewrite <- List.app_assoc.
  rewrite beyond_escape_char. exact IH.
Qed.

Lemma beyond_quote (digit : bool) (s : string) (rest : list ascii) :
  beyond_from (Between digit) (quote s ++ rest)
  = beyond_from (Between false) rest.
Proof.
  rewrite quote_cons. cbn [beyond_from Ascii.eqb Bool.eqb].
  apply beyond_escaped.
Qed.

Lemma beyond_digits (digit : bool) (u : uint) (rest : list ascii) :
  beyond_from (Between digit) (chars_of_uint u ++ rest)
  = beyond_from (Between (match u with Nil => digit | _ => true end)) rest.
Proof.
  revert digit.
  induction u as [|u IH|u IH|u IH|u IH|u IH|u IH|u IH|u IH|u IH|u IH];
    intros digit; [reflexivity| ..];
    cbn [chars_of_uint List.app beyond_from Ascii.eqb Bool.eqb
         starts_fraction orb];
    rewrite andb_false_r, IH; destruct u; reflexivity.
Qed.

Lemma beyond_number (digit : bool) (n : Z) (rest : list ascii) :
  beyond_from (Between digit) (print_number n ++ rest)
  = beyond_from (Between true) rest.
Proof.
  destruct n as [|p|p]; cbn [print_number].
  - cbn. rewrite andb_false_r. reflexivity.
  - rewrite beyond_digits.
    destruct (Pos.to_uint p) eqn:E; try reflexivity.
    destruct (DecimalPos.Unsigned.to_uint_nonnil p E).
  - cbn [List.app beyond_from Ascii.eqb Bool.eqb starts_fraction orb].
    rewrite andb_false_r. change (is_digit_char "-") with false.
    rewrite beyond_digits.
    destruct (Pos.to_uint p) eqn:E; try reflexivity.
    destruct (DecimalPos.Unsigned.to_uint_nonnil p E).
Qed.

Lemma beyond_join (items : list (list ascii)) (close : ascii)
      (digit : bool) (rest : list ascii) :
  List.Forall item items ->
  close = "]"%char \/ close = "}"%char ->
  beyond_from (Between digit) (join items ++ close :: rest)
  = beyond_from (Between false) rest.
Proof.
  intros Hall Hclose.
  assert (Hend : forall d, beyond_from (Between d) (close :: rest)
                           = beyond_from (Between false) rest).
  { intros d. destruct Hclose as [-> | ->]; cbn; rewrite andb_false_r;
      reflexivity. }
  revert digit. induction Hall as [|x l [after Hx] Hl IH]; intros digit.
  - apply Hend.
  - destruct l as [|y l'].
    + cbn [join]. rewrite Hx. apply Hend.
    + change (join (x :: y :: l')) with (x ++ ","%char :: join (y :: l')).
      rewrite <- List.app_assoc. cbn [List.app]. rewrite Hx.
      cbn [beyond_from Ascii.eqb Bool.eqb starts_fraction orb].
      rewrite andb_false_r. apply IH.
Qed.

Lemma print_item (v : value) : item (print v).
Proof.
  induction v as [| | | | |l IH|fs IH] using value_induction.
  - exists false. intros digit rest. cbn. rewrite andb_false_r. reflexivity.
  - exists false. intros digit rest. cbn. rewrite andb_false_r. reflexivity.
  - exists false. intros digit rest. destruct b; cbn; rewrite andb_false_r;
      reflexivity.
  - exists true. intros digit rest. apply beyond_number.
  - exists false. intros digit rest. apply beyond_quote.
  - exists false. intros digit rest. cbn [print List.app].
    rewrite <- List.app_assoc. cbn [List.app].
    cbn [beyond_from Ascii.eqb Bool.eqb starts_fraction orb].
    rewrite andb_false_r. apply beyond_join; [|left; reflexivity].
    induction IH as [|x l Hx Hl IHl]; constructor; assumption.
  - exists false. intros digit rest. cbn [print List.app].
    rewrite <- List.app_assoc. cbn [List.app].
    cbn [beyond_from Ascii.eqb Bool.eqb starts_fraction orb].
    rewrite andb_false_r. apply beyond_join; [|right; reflexivity].
    induction IH as [|[k w] fs Hw Hfs IHfs]; cbn [List.map somes snd fst];
      [constructor|].
    destruct w; try exact IHfs; constructor; try exact IHfs;
      destruct Hw as [after Hw]; exists after; intros digit' rest';
      rewrite <- List.app_assoc, beyond_quote; cbn [List.app];
      cbn [beyond_from Ascii.eqb Bool.eqb starts_fraction orb andb];
      apply Hw.
Qed.

Lemma stringify_followed (v : value) : beyond (JSON_stringify v) = false.
Proof.
  unfold beyond, JSON_stringify, stringify.
  destruct (print_item v) as [after Hv].
  destruct v; try reflexivity;
    rewrite list_ascii_of_string_of_list_ascii;
    match goal with
    | |- beyond_from _ ?t = _ => rewrite <- (List.app_nil_r t)
    end; rewrite Hv; reflexivity.
Qed.

End JSONFacts.

(* ===================================================================== *)
(** ** The store adapter *)
(* ===================================================================== *)

Module StoreFacts.
Import JSONFacts.

Lemma parse_empty : JSON.parse "" = None.
Proof. reflexivity. Qed.

(** A write inside [try]/[catch] leaves [store]. *)
Lemma guarded_write (k : string) (v : value) (st : Storage) :
  try_catch (setItem k (JSON_stringify v) st) (fun _ => Ok st)
  = Ok (store k v st).
Proof.
  unfold setItem, store, accepts.
  destruct (disabled st); [reflexivity|]. cbn [negb andb].
  rewrite Nat.ltb_antisym. destruct (Nat.leb _ _); reflexivity.
Qed.

(** The read of the scripts, [try { raw ? JSON.parse(raw) : [] }
    catch { [] }], is the read of the specification on every text that is
    followed. *)
Lemma guarded_read (k : string) (st : Storage) :
  try_catch
    (raw ← getItem k st;
     match raw with
     | Some text =>
         if negb (String.eqb text "") then JSON_parse text else Ok (VArr [])
     | None => Ok (VArr [])
     end)
    (fun _ => Ok (VArr []))
  = read_outcome k st.
Proof.
  unfold getItem, read_outcome, followed, degraded_read.
  destruct (disabled st); [reflexivity|]. cbn.
  destruct (items st !! k) as [text|]; [|reflexivity].
  destruct (String.eqb_spec text "") as [->|_]; [reflexivity|].
  cbn [negb]. unfold JSON_parse.
  destruct (JSON.beyond text); [reflexivity|]. cbn [negb].
  destruct (JSON.parse text); reflexivity.
Qed.


Lemma read_outcome_followed (k : string) (v : value) (st : Storage) :
  read_outcome k st = Ok v -> followed k st = true.
Proof.
  unfold read_outcome. destruct (followed k st); [reflexivity|discriminate].
Qed.

Lemma read_outcome_never_throws (k : string) (e : exn) (st : Storage) :
  read_outcome k st <> Throw e.
Proof. unfold read_outcome. destruct (followed k st); discriminate. Qed.


Lemma accepts_enabled (k text : string) (st : Storage) :
  accepts k text st = true -> disabled st = false.
Proof. unfold accepts. destruct (disabled st); [discriminate|reflexivity]. Qed.

(** What was written and accepted is read back in its JSON form. *)
Lemma read_store (k : string) (v : value) (st : Storage) :
  accepts k (JSON_stringify v) st = true ->
  well_formed v = true -> v <> VUndef ->
  degraded_read k (store k v st) = json_form v.
Proof.
  intros Ha Hw Hv. unfold store. rewrite Ha. unfold degraded_read.
  cbn [disabled items]. rewrite (accepts_enabled _ _ _ Ha).
  rewrite lookup_insert_eq, (parse_stringify_form v Hw Hv). reflexivity.
Qed.

Lemma read_store_storable (k : string) (v : value) (st : Storage) :
  accepts k (JSON_stringify v) st = true ->
  storable v = true ->
  degraded_read k (store k v st) = v.
Proof.
  intros Ha Hs. rewrite read_store; [apply json_form_id, Hs|exact Ha| |].
  - apply storable_well_formed, Hs.
  - intros ->. discriminate Hs.
Qed.

(** What the scripts write is text that is followed. *)
Lemma followed_store (k : string) (v : value) (st : Storage) :
  accepts k (JSON_stringify v) st = true -> followed k (store k v st) = true.
Proof.
  intros Ha. unfold store. rewrite Ha. unfold followed.
  cbn [disabled items]. rewrite (accepts_enabled _ _ _ Ha).
  rewrite lookup_insert_eq, stringify_followed. reflexivity.
Qed.



(** A refused write leaves the area as it was. *)
Lemma store_refused (k : string) (v : value) (st : Storage) :
  accepts k (JSON_stringify v) st = false -> store k v st = st.
Proof. intros Ha. unfold store. rewrite Ha. reflexivity. Qed.

(** A write touches no other key. *)
Lemma read_store_other (k k' : string) (v : value) (st : Storage) :
  k <> k' -> degraded_read k' (store k v st) = degraded_read k' st.
Proof.
  intros Hk. unfold store. destruct (accepts _ _ _); [|reflexivity].
  unfold degraded_read. cbn [disabled items].
  rewrite lookup_insert_ne; [reflexivity|exact Hk].
Qed.

Lemma read_outcome_other (k k' : string) (v : value) (st : Storage) :
  k <> k' -> read_outcome k' (store k v st) = read_outcome k' st.
Proof.
  intros Hk. unfold read_outcome. rewrite (read_store_other _ _ _ _ Hk).
  unfold store, followed. destruct (accepts _ _ _); [|reflexivity].
  cbn [disabled items]. rewrite lookup_insert_ne; [reflexivity|exact Hk].
Qed.

End StoreFacts.

Module ContactFormFacts.
Import ContactForm StoreFacts.

Lemma loadSubmissions_read (ls : Storage) :
  loadSubmissions ls = read_outcome STORAGE_KEY ls.
Proof. apply guarded_read. Qed.

End ContactFormFacts.

Module FavoritesFacts.
Import JSONFacts StoreFacts Favorites.

Lemma loadFavorites_read (ls : Storage) :
  loadFavorites ls = read_outcome FAVORITES_KEY ls.
Proof. apply guarded_read. Qed.

Lemma saveFavorites_store (v : value) (ls : Storage) :
  saveFavorites v ls = Ok (store FAVORITES_KEY v ls).
Proof. apply guarded_write. Qed.









(** *** The first record with an id *)



(** *** The assignments of [updateFavorite] *)


Lemma assign_fields_object (fs updates : list (string * value)) :
  assign_fields (VObj fs) (VObj updates) = Ok (VObj (assigned fs updates)).
Proof. reflexivity. Qed.




(** *** The updated record is a JSON value again *)









End FavoritesFacts.

Module StoreClaims.
Import StoreFacts ContactFormFacts FavoritesFacts.

(** C1.  Reading a repository key never raises.  Wherever the text under
    the key is JSON the embedding follows (integers, code units below
    256), [loadSubmissions] and [loadFavorites] return the empty array
    when the store raises, when the key is missing and when the stored
    text does not parse, and the parsed value otherwise; and on no store
    at all does either of them raise. *)
Theorem load_degrades_to_empty (ls : Storage) :
  (followed ContactForm.STORAGE_KEY ls = true ->
   ContactForm.loadSubmissions ls
   = Ok (degraded_read ContactForm.STORAGE_KEY ls))
  /\ (followed Favorites.FAVORITES_KEY ls = true ->
      Favorites.loadFavorites ls
      = Ok (degraded_read Favorites.FAVORITES_KEY ls))
  /\ (forall e, ContactForm.loadSubmissions ls <> Throw e
                /\ Favorites.loadFavorites ls <> Throw e).
Proof.
  rewrite loadSubmissions_read, loadFavorites_read. unfold read_outcome.
  split; [intros ->; reflexivity|]. split; [intros ->; reflexivity|].
  intros e.
  split; [destruct (followed ContactForm.STORAGE_KEY ls)
         |destruct (followed Favorites.FAVORITES_KEY ls)]; discriminate.
Qed.

Lemma load_degrades_to_empty_witness :
  ContactForm.loadSubmissions torn_store = Ok (VArr [])
  /\ Favorites.loadFavorites (mkStorage ∅ true 5000) = Ok (VArr []).
Proof.
  split.
  - exact (proj1 (load_degrades_to_empty torn_store)
                 ltac:(vm_compute; reflexivity)).
  - exact (proj1 (proj2 (load_degrades_to_empty (mkStorage ∅ true 5000)))
                 ltac:(vm_compute; reflexivity)).
Defined.

















End StoreClaims.

Module RegexFacts.

Lemma matches_prefix_fail (s : list ascii) : matches_prefix Fail s = false.
Proof. induction s as [|c s IH]; [reflexivity|exact IH]. Qed.

Lemma matches_prefix_eps (s : list ascii) : matches_prefix Eps s = true.
Proof. destruct s; reflexivity. Qed.

(** [/[...]/.test(s)]: some character of [s] is in the class. *)
Lemma test_class (p : ascii -> bool) (s : string) :
  test (Class p) s = List.existsb p (list_ascii_of_string s).
Proof.
  unfold test. induction (list_ascii_of_string s) as [|c l IH];
    [reflexivity|].
  cbn [found_in matches_prefix nullable deriv List.existsb orb].
  rewrite IH. destruct (p c);
    [rewrite matches_prefix_eps|rewrite matches_prefix_fail]; reflexivity.
Qed.

End RegexFacts.

Module AccountClaims.
Import Account RegexFacts.

Lemma requirements_classes (password : string) :
  checkPasswordRequirements password
  = mkRequirements (long_enough password) (has_char is_upper password)
      (has_char is_lower password) (has_char is_digit password)
      (has_char is_special password).
Proof.
  unfold checkPasswordRequirements, PASSWORD_SPECIAL_CHARS_REGEX.
  rewrite !test_class. reflexivity.
Qed.

(** C7.  A non-empty password that misses one of the five requirement
    classes is invalid, and the tier computed from the number of classes it
    meets (at most 2: weak, 3: fair, 4: good, 5: strong) is below strong. *)
Theorem incomplete_password_rejected (password : string) :
  password <> "" ->
  long_enough password = false
  \/ has_char is_upper password = false
  \/ has_char is_lower password = false
  \/ has_char is_digit password = false
  \/ has_char is_special password = false ->
  validatePassword password
  = mkValidation false "Password does not meet all requirements below."
  /\ metCount (checkPasswordRequirements password) = classes_met password
  /\ (classes_met password < 5)%nat
  /\ strength password
     = (if Nat.leb (classes_met password) 2 then "weak"
        else if Nat.eqb (classes_met password) 3 then "fair"
        else "good")
  /\ (tier_rank (strength password) < tier_rank "strong")%nat
  /\ bar_class (updateStrengthBar password) = Some (strength password).
Proof.
  intros Hne Hmiss.
  assert (Hlen : Nat.eqb (String.length password) 0 = false
                 /\ String.eqb password "" = false
                 /\ Nat.ltb 0 (String.length password) = true).
  { destruct password; [congruence|]. repeat split. }
  destruct Hlen as (Hlen0 & Hempty & Hpos).
  unfold validatePassword, strength, updateStrengthBar, strength.
  rewrite Hempty, Hlen0, Hpos, requirements_classes.
  unfold metCount, classes_met. cbn [orb req_length req_uppercase
    req_lowercase req_number req_special].
  destruct (long_enough password), (has_char is_upper password),
    (has_char is_lower password), (has_char is_digit password),
    (has_char is_special password);
    repeat split; cbn; lia.
Qed.

Lemma incomplete_password_rejected_witness :
  validatePassword "abc12345"
  = mkValidation false "Password does not meet all requirements below."
  /\ strength "abc12345" = "fair".
Proof.
  destruct (incomplete_password_rejected "abc12345"
              ltac:(discriminate) (or_intror (or_introl eq_refl)))
    as (Hv & _ & _ & Hs & _).
  split; [exact Hv|exact Hs].
Defined.

Lemma session_write (v : value) (b : Browser) :
  match setItem SESSION_KEY (JSON_stringify v) (sessionStorage b) with
  | Ok s => s
  | _ => sessionStorage b
  end = store SESSION_KEY v (sessionStorage b).
Proof.
  unfold setItem, store, accepts.
  destruct (disabled (sessionStorage b)); [reflexivity|]. cbn [negb andb].
  rewrite Nat.ltb_antisym. destruct (Nat.leb _ _); reflexivity.
Qed.

(** C8.  A registration that passes [validateAll] leaves the durable store
    alone and writes to the session the object with the trimmed username
    and the trimmed e-mail address and nothing else; two valid
    registrations that differ in their passwords only leave the same
    browser behind. *)
Theorem registration_keeps_password_out (form : Form) (b : Browser) :
  validateAll form = true ->
  localStorage (handleFormSubmit form b) = localStorage b
  /\ sessionStorage (handleFormSubmit form b)
     = store SESSION_KEY
         (VObj [ ("username", VStr (trim (f_username form)));
                 ("email", VStr (trim (f_email form))) ])
         (sessionStorage b)
  /\ (accepts SESSION_KEY (JSON_stringify (userData form)) (sessionStorage b)
      = true ->
      degraded_read SESSION_KEY (sessionStorage (handleFormSubmit form b))
      = VObj [ ("username", VStr (trim (f_username form)));
               ("email", VStr (trim (f_email form))) ])
  /\ (forall other,
        validateAll other = true ->
        f_username other = f_username form ->
        f_email other = f_email form ->
        handleFormSubmit other b = handleFormSubmit form b).
Proof.
  intros Hvalid. unfold handleFormSubmit. rewrite Hvalid. cbn [negb].
  cbn [localStorage sessionStorage]. rewrite session_write.
  split; [reflexivity|]. split; [reflexivity|]. split.
  - intros Ha. apply StoreFacts.read_store_storable; [exact Ha|reflexivity].
  - intros other Hother Hu He. rewrite Hother. cbn [negb].
    unfold userData. rewrite Hu, He, session_write. reflexivity.
Qed.

Lemma registration_keeps_password_out_witness :
  handleFormSubmit (mkForm " brewer1 " "b@x.io" "Abc12345!" "Abc12345!" true)
    (mkBrowser fresh_store fresh_store "account.html")
  = handleFormSubmit (mkForm " brewer1 " "b@x.io" "Xyz98765#" "Xyz98765#" true)
      (mkBrowser fresh_store fresh_store "account.html")
  /\ degraded_read SESSION_KEY
       (sessionStorage
          (handleFormSubmit
             (mkForm " brewer1 " "b@x.io" "Xyz98765#" "Xyz98765#" true)
             (mkBrowser fresh_store fresh_store "account.html")))
     = VObj [("username", VStr "brewer1"); ("email", VStr "b@x.io")].
Proof.
  destruct (registration_keeps_password_out
              (mkForm " brewer1 " "b@x.io" "Xyz98765#" "Xyz98765#" true)
              (mkBrowser fresh_store fresh_store "account.html")
              ltac:(vm_compute; reflexivity))
    as (_ & _ & Hread & Hsame).
  split.
  - apply Hsame; [vm_compute; reflexivity|reflexivity|reflexivity].
  - apply Hread. vm_compute. reflexivity.
Defined.

End AccountClaims.

Module BlogClaims.
Import Blog.

Lemma filtered_matches (articles : list Article) (st : State) :
  getFilteredArticles articles st
  = List.filter (matchesFilter (activeCategory st)) articles.
Proof.
  unfold getFilteredArticles, matchesFilter.
  destruct (String.eqb (activeCategory st) "all").
  - symmetry. apply List.forallb_filter_id.
    induction articles; [reflexivity|exact IHarticles].
  - reflexivity.
Qed.

Lemma slice0_firstn {A} (l : list A) (n : Z) :
  0 <= n -> slice0 l n = List.firstn (Z.to_nat n) l.
Proof.
  intros Hn. unfold slice0.
  destruct (Z.ltb_spec n 0) as [|_]; [lia|].
  destruct (Z.le_ge_cases n (Z.of_nat (List.length l))) as [Hle|Hge].
  - rewrite Z.min_l by exact Hle. reflexivity.
  - rewrite Z.min_r by lia. rewrite Nat2Z.id, List.firstn_all.
    symmetry. apply List.firstn_all2. lia.
Qed.

(** Every reachable state shows at least one page. *)
Lemma reachable_visible (st : State) :
  reachable st -> ARTICLES_PER_PAGE <= visibleCount st.
Proof.
  induction 1; cbn [visibleCount initial handleFilterClick handleLoadMore];
    unfold ARTICLES_PER_PAGE in *; lia.
Qed.

(** C6.  In every state the handlers can bring the page to, the grid
    holds the articles that pass the filter, cut by [slice(0,
    visibleCount)], that is to the first [visibleCount] of them, and the
    load-more control is shown exactly when [visibleCount] is below the
    number of articles that pass.  With the six articles and pages of
    three, more is available at 3 and not at 6, and the filter
    [coffee-culture] shows articles of that category only; the three
    states are reachable. *)
Theorem renderArticles_view (articles : list Article) (st : State) :
  reachable st ->
  grid (renderArticles articles st)
  = slice0 (List.filter (matchesFilter (activeCategory st)) articles)
           (visibleCount st)
  /\ grid (renderArticles articles st)
     = List.firstn (Z.to_nat (visibleCount st))
         (List.filter (matchesFilter (activeCategory st)) articles)
  /\ loadMoreShown (renderArticles articles st)
     = Z.ltb (visibleCount st)
         (Z.of_nat (List.length
                      (List.filter (matchesFilter (activeCategory st))
                                   articles)))
  /\ reachable (mkState "all" 3)
  /\ loadMoreShown (renderArticles ARTICLES (mkState "all" 3)) = true
  /\ reachable (mkState "all" 6)
  /\ loadMoreShown (renderArticles ARTICLES (mkState "all" 6)) = false
  /\ reachable (mkState "coffee-culture" 3)
  /\ List.forallb (fun article => String.eqb (category article) "coffee-culture")
       (grid (renderArticles ARTICLES (mkState "coffee-culture" 3))) = true.
Proof.
  intros Hr. pose proof (reachable_visible st Hr) as Hvc.
  unfold ARTICLES_PER_PAGE in Hvc.
  assert (Hview :
    grid (renderArticles articles st)
    = List.firstn (Z.to_nat (visibleCount st))
        (List.filter (matchesFilter (activeCategory st)) articles)
    /\ loadMoreShown (renderArticles articles st)
       = Z.ltb (visibleCount st)
           (Z.of_nat (List.length
                        (List.filter (matchesFilter (activeCategory st))
                                     articles)))).
  { unfold renderArticles. rewrite filtered_matches.
    rewrite slice0_firstn by lia.
    set (filtered := List.filter _ articles).
    pose proof (List.length_firstn (Z.to_nat (visibleCount st)) filtered)
      as Hlen.
    destruct (Nat.eqb_spec
                (List.length (List.firstn (Z.to_nat (visibleCount st)) filtered))
                0) as [Hz|Hnz]; cbn [grid loadMoreShown].
    + split; [symmetry; apply List.length_zero_iff_nil, Hz|].
      symmetry. apply Z.ltb_ge. lia.
    + split; [reflexivity|]. rewrite Z.geb_leb.
      destruct (Z.leb_spec (Z.of_nat (List.length filtered)) (visibleCount st));
        symmetry; [apply Z.ltb_ge|apply Z.ltb_lt]; lia. }
  destruct Hview as [Hgrid Hmore].
  split; [rewrite slice0_firstn by lia; exact Hgrid|].
  split; [exact Hgrid|]. split; [exact Hmore|].
  split; [exact reach_initial|]. split; [reflexivity|].
  split; [exact (reach_more initial reach_initial)|]. split; [reflexivity|].
  split; [exact (reach_filter "coffee-culture" initial reach_initial)|].
  reflexivity.
Qed.

Lemma renderArticles_view_witness :
  grid (renderArticles ARTICLES (handleLoadMore initial))
  = slice0 (List.filter (matchesFilter "all") ARTICLES) 6
  /\ loadMoreShown (renderArticles ARTICLES (handleLoadMore initial)) = false.
Proof.
  destruct (renderArticles_view ARTICLES (handleLoadMore initial)
              (reach_more initial reach_initial))
    as (Hgrid & _ & Hmore & _).
  split; [exact Hgrid|exact Hmore].
Defined.

End BlogClaims.

Module TrimFacts.


Lemma trim_start_head (s : list ascii) :
  trim_start s = [] \/ exists c t, trim_start s = c :: t /\ is_space c = false.
Proof.
  induction s as [|c s IH]; [left; reflexivity|].
  cbn [trim_start]. destruct (is_space c) eqn:E; [exact IH|].
  right. eauto.
Qed.

Lemma trim_start_fixed (c : ascii) (t : list ascii) :
  is_space c = false -> trim_start (c :: t) = c :: t.
Proof. intros H. cbn [trim_start]. rewrite H. reflexivity. Qed.

Lemma trim_start_keeps_last (c : ascii) (l : list ascii) :
  is_space c = false -> exists l', trim_start (l ++ [c]) = l' ++ [c].
Proof.
  intros Hc. induction l as [|x l IH].
  - exists []. cbn. rewrite Hc. reflexivity.
  - cbn [List.app trim_start]. destruct (is_space x); [exact IH|].
    exists (x :: l). reflexivity.
Qed.

Lemma trim_start_idempotent (s : list ascii) :
  trim_start (trim_start s) = trim_start s.
Proof.
  destruct (trim_start_head s) as [->|(c & t & -> & Hc)]; [reflexivity|].
  apply trim_start_fixed, Hc.
Qed.

Lemma trim_chars_idempotent (s : list ascii) :
  trim_chars (trim_chars s) = trim_chars s.
Proof.
  unfold trim_chars.
  destruct (trim_start_head s) as [->|(c & t & -> & Hc)]; [reflexivity|].
  cbn [List.rev].
  destruct (trim_start_keeps_last c (List.rev t) Hc) as [l' Hl'].
  rewrite Hl', List.rev_app_distr. cbn [List.rev List.app].
  rewrite (trim_start_fixed _ _ Hc). cbn [List.rev].
  rewrite List.rev_involutive, <- Hl', trim_start_idempotent.
  rewrite Hl', List.rev_app_distr. reflexivity.
Qed.

(** Trimming twice is trimming once. *)
Lemma trim_idempotent (s : string) : trim (trim s) = trim s.
Proof.
  unfold trim. rewrite list_ascii_of_string_of_list_ascii,
    trim_chars_idempotent. reflexivity.
Qed.


End TrimFacts.

Module ContactClaims.
Import ContactForm TrimFacts StoreFacts ContactFormFacts.



End ContactClaims.

(* ===================================================================== *)
(** ** The language of a regular expression *)
(* ===================================================================== *)

Module RegexLanguage.

Lemma lang_fail_inv (s : list ascii) : ~ lang Fail s.
Proof. inversion 1. Qed.

Lemma lang_eps_inv (s : list ascii) : lang Eps s -> s = [].
Proof. inversion 1. reflexivity. Qed.

Lemma lang_class_inv (p : ascii -> bool) (s : list ascii) :
  lang (Class p) s -> exists c, s = [c] /\ p c = true.
Proof. inversion 1; subst. eauto. Qed.

Lemma lang_seq_inv (r1 r2 : regex) (s : list ascii) :
  lang (Seq r1 r2) s ->
  exists s1 s2, s = s1 ++ s2 /\ lang r1 s1 /\ lang r2 s2.
Proof. inversion 1; subst. eauto. Qed.

Lemma lang_alt_inv (r1 r2 : regex) (s : list ascii) :
  lang (Alt r1 r2) s -> lang r1 s \/ lang r2 s.
Proof. inversion 1; subst; auto. Qed.

(** A match of [r+] is a match of [r], or a match of [r] followed by one
    of [r+]. *)
Lemma lang_plus_inv (r : regex) (s : list ascii) :
  lang (Plus r) s ->
  lang r s \/ exists s1 s2, s = s1 ++ s2 /\ lang r s1 /\ lang (Plus r) s2.
Proof. inversion 1; subst; [left; assumption|right; eauto]. Qed.

Lemma plus_nil (r : regex) : lang (Plus r) [] -> lang r [].
Proof.
  intros H. remember (Plus r) as q eqn:Eq. remember [] as s eqn:Es.
  induction H as [| | | | |q t H _|q s1 s2 H1 _ H2 IH2]; try discriminate;
    injection Eq as ->.
  - subst. exact H.
  - apply List.app_eq_nil in Es as [-> ->]. exact H1.
Qed.

Lemma plus_cons (r : regex) (c : ascii) (s : list ascii) :
  lang (Plus r) (c :: s) ->
  exists s1 s2, s = s1 ++ s2 /\ lang r (c :: s1)
                /\ (s2 = [] \/ lang (Plus r) s2).
Proof.
  intros H. remember (Plus r) as q eqn:Eq. remember (c :: s) as cs eqn:Es.
  revert s Es.
  induction H as [| | | | |q t H _|q s1 s2 H1 _ H2 IH2]; try discriminate;
    injection Eq as ->; intros s Es.
  - subst. exists s, []. rewrite List.app_nil_r. auto.
  - destruct s1 as [|x s1].
    + exact (IH2 eq_refl s Es).
    + injection Es as -> <-. exists s1, s2. auto.
Qed.

Lemma nullable_lang (r : regex) : nullable r = true <-> lang r [].
Proof.
  induction r as [| |p|r1 IH1 r2 IH2|r1 IH1 r2 IH2|r IH]; cbn [nullable].
  - split; [discriminate|]. intros H. elim (lang_fail_inv _ H).
  - split; [constructor|reflexivity].
  - split; [discriminate|]. intros H.
    apply lang_class_inv in H as (c & H & _). discriminate H.
  - rewrite andb_true_iff, IH1, IH2. split.
    + intros [H1 H2]. exact (lang_seq _ _ [] [] H1 H2).
    + intros H. apply lang_seq_inv in H as (s1 & s2 & E & H1 & H2).
      symmetry in E. apply List.app_eq_nil in E as [-> ->]. tauto.
  - rewrite orb_true_iff, IH1, IH2. split.
    + intros [H|H]; [apply lang_alt_l|apply lang_alt_r]; exact H.
    + apply lang_alt_inv.
  - rewrite IH. split; [apply lang_plus_once|apply plus_nil].
Qed.

Lemma deriv_lang (r : regex) (c : ascii) (s : list ascii) :
  lang (deriv c r) s <-> lang r (c :: s).
Proof.
  revert s.
  induction r as [| |p|r1 IH1 r2 IH2|r1 IH1 r2 IH2|r IH]; intros s;
    cbn [deriv].
  - split; intros H; elim (lang_fail_inv _ H).
  - split; intros H; [elim (lang_fail_inv _ H)|].
    apply lang_eps_inv in H. discriminate H.
  - destruct (p c) eqn:Hp; split; intros H.
    + apply lang_eps_inv in H as ->. constructor. exact Hp.
    + apply lang_class_inv in H as (x & [= <- ->] & _). constructor.
    + elim (lang_fail_inv _ H).
    + apply lang_class_inv in H as (x & [= <- ->] & Hx). congruence.
  - assert (Hseq : lang (Seq (deriv c r1) r2) s
                   -> lang (Seq r1 r2) (c :: s)).
    { intros H. apply lang_seq_inv in H as (s1 & s2 & -> & H1 & H2).
      apply IH1 in H1. exact (lang_seq _ _ (c :: s1) s2 H1 H2). }
    assert (Hinv : lang (Seq r1 r2) (c :: s) ->
                   lang (Seq (deriv c r1) r2) s
                   \/ (lang r1 [] /\ lang r2 (c :: s))).
    { intros H. apply lang_seq_inv in H as (s1 & s2 & E & H1 & H2).
      destruct s1 as [|x s1]; cbn [List.app] in E.
      - right. subst. auto.
      - injection E as <- ->. left.
        apply lang_seq; [apply IH1|]; assumption. }
    destruct (nullable r1) eqn:Hn; split; intros H.
    + apply lang_alt_inv in H as [H|H]; [auto|].
      apply nullable_lang in Hn. apply IH2 in H.
      exact (lang_seq _ _ [] _ Hn H).
    + destruct (Hinv H) as [H1|[_ H2]];
        [apply lang_alt_l; exact H1|apply lang_alt_r, IH2; exact H2].
    + exact (Hseq H).
    + destruct (Hinv H) as [H1|[H0 _]]; [exact H1|].
      apply nullable_lang in H0. congruence.
  - split; intros H; apply lang_alt_inv in H as [H|H];
      solve [apply lang_alt_l, IH1; exact H | apply lang_alt_r, IH2; exact H].
  - split; intros H.
    + apply lang_seq_inv in H as (s1 & s2 & -> & H1 & H2). apply IH in H1.
      apply lang_alt_inv in H2 as [He|Hp].
      * apply lang_eps_inv in He as ->. rewrite List.app_nil_r.
        apply lang_plus_once. exact H1.
      * exact (lang_plus_more _ (c :: s1) s2 H1 Hp).
    + destruct (plus_cons _ _ _ H) as (s1 & s2 & -> & H1 & H2).
      apply lang_seq; [apply IH; exact H1|].
      destruct H2 as [->|H2]; [apply lang_alt_l; constructor|].
      apply lang_alt_r. exact H2.
Qed.

(** [/^r$/.test(s)] holds exactly for the strings of the language of [r]. *)
Lemma matches_lang (r : regex) (s : list ascii) :
  matches r s = true <-> lang r s.
Proof.
  revert r. induction s as [|c s IH]; intros r; cbn [matches].
  - apply nullable_lang.
  - rewrite IH. apply deriv_lang.
Qed.

Lemma lang_class_run (p : ascii -> bool) (s : list ascii) :
  lang (Plus (Class p)) s <-> s <> [] /\ List.forallb p s = true.
Proof.
  split.
  - intros H. remember (Plus (Class p)) as q eqn:Eq.
    induction H as [| | | | |q s H _|q s1 s2 H1 _ H2 IH2]; try discriminate;
      injection Eq as ->.
    + apply lang_class_inv in H as (c & -> & Hc). cbn.
      split; [discriminate|]. rewrite Hc. reflexivity.
    + apply lang_class_inv in H1 as (c & -> & Hc).
      destruct (IH2 eq_refl) as [_ Hall].
      split; [discriminate|]. cbn. rewrite Hc, Hall. reflexivity.
  - intros [Hne Hall]. induction s as [|c s IH]; [congruence|].
    cbn in Hall. apply andb_true_iff in Hall as [Hc Hs].
    destruct s as [|d s].
    + apply lang_plus_once. constructor. exact Hc.
    + apply (lang_plus_more _ [c] (d :: s)); [constructor; exact Hc|].
      apply IH; [discriminate|exact Hs].
Qed.

Lemma lang_chr (c : ascii) (s : list ascii) : lang (chr c) s <-> s = [c].
Proof.
  unfold chr. split.
  - intros H. apply lang_class_inv in H as (x & -> & Hx).
    apply Ascii.eqb_eq in Hx. congruence.
  - intros ->. constructor. apply Ascii.eqb_refl.
Qed.

(** What [EMAIL_PATTERN] matches. *)
Lemma email_pattern_shape (s : list ascii) :
  matches EMAIL_PATTERN s = true <-> address_shape s.
Proof.
  rewrite matches_lang. unfold EMAIL_PATTERN, address_shape, address_part.
  split.
  - intros H.
    apply lang_seq_inv in H as (loc & s1 & -> & Hloc & H).
    apply lang_seq_inv in H as (at_ & s2 & -> & Hat & H).
    apply lang_seq_inv in H as (dom & s3 & -> & Hdom & H).
    apply lang_seq_inv in H as (dot & tld & -> & Hdot & Htld).
    apply lang_chr in Hat, Hdot. subst.
    apply lang_class_run in Hloc, Hdom, Htld.
    exists loc, dom, tld. cbn [List.app]. auto.
  - intros (loc & dom & tld & -> & Hloc & Hdom & Htld).
    apply lang_class_run in Hloc, Hdom, Htld.
    apply lang_seq; [exact Hloc|].
    apply (lang_seq _ _ ["@"%char]); [apply lang_chr; reflexivity|].
    apply lang_seq; [exact Hdom|].
    apply (lang_seq _ _ ["."%char]); [apply lang_chr; reflexivity|].
    exact Htld.
Qed.

End RegexLanguage.

(* ===================================================================== *)
(** ** What the validators accept *)
(* ===================================================================== *)

Module ValidationFacts.
Import RegexLanguage TrimFacts.

Lemma length_zero_empty (s : string) :
  Nat.eqb (String.length s) 0 = String.eqb s "".
Proof. destruct s; reflexivity. Qed.

Lemma string_length_chars (s : string) :
  String.length s = List.length (list_ascii_of_string s).
Proof. induction s as [|c s IH]; [reflexivity|]. cbn. rewrite IH. reflexivity. Qed.

Lemma trim_empty : trim "" = "".
Proof. reflexivity. Qed.

(** An address of the right shape has no white space and one [@]. *)
Lemma address_shape_at (s : list ascii) :
  address_shape s ->
  List.forallb (fun c => negb (is_space c)) s = true
  /\ List.count_occ ascii_dec s "@"%char = 1%nat.
Proof.
  assert (Hpart : forall p, List.forallb not_space_or_at p = true ->
            List.forallb (fun c => negb (is_space c)) p = true
            /\ List.count_occ ascii_dec p "@"%char = 0%nat).
  { induction p as [|c p IH]; [split; reflexivity|].
    cbn [List.forallb]. rewrite andb_true_iff. intros [Hc Hp].
    destruct (IH Hp) as [Hs Hn]. unfold not_space_or_at in Hc.
    rewrite negb_true_iff, orb_false_iff in Hc. destruct Hc as [Hsp Hat].
    split; [cbn; rewrite Hsp, Hs; reflexivity|].
    apply Ascii.eqb_neq in Hat. cbn [List.count_occ].
    destruct (ascii_dec c "@"); [congruence|exact Hn]. }
  intros (loc & dom & tld & -> & [_ Hloc] & [_ Hdom] & [_ Htld]).
  destruct (Hpart _ Hloc) as [Sl Cl], (Hpart _ Hdom) as [Sd Cd],
    (Hpart _ Htld) as [St Ct].
  split.
  - rewrite List.forallb_app. cbn [List.forallb].
    rewrite List.forallb_app. cbn [List.forallb].
    rewrite Sl, Sd, St. reflexivity.
  - rewrite List.count_occ_app. cbn [List.count_occ].
    destruct (ascii_dec "@" "@"); [|congruence].
    rewrite List.count_occ_app. cbn [List.count_occ].
    destruct (ascii_dec "." "@"); [discriminate|]. lia.
Qed.

Lemma field_email_shape (raw : string) :
  ContactForm.field_ok (ContactForm.validateField "email" raw) = true
  <-> address_shape (list_ascii_of_string (trim raw)).
Proof.
  unfold ContactForm.validateField. cbn [String.eqb Ascii.eqb Bool.eqb].
  rewrite <- email_pattern_shape. unfold test_anchored.
  rewrite length_zero_empty.
  destruct (String.eqb_spec (trim raw) "") as [E|_].
  - rewrite E. cbn. split; discriminate.
  - destruct (matches EMAIL_PATTERN _); cbn; split; congruence.
Qed.

Lemma email_verdicts (raw : string) :
  Account.valid (Account.validateEmail raw)
  = ContactForm.field_ok (ContactForm.validateField "email" raw)
  /\ Account.message (Account.validateEmail raw)
     = ContactForm.error_text (ContactForm.validateField "email" raw).
Proof.
  unfold Account.validateEmail, ContactForm.validateField.
  cbn [String.eqb Ascii.eqb Bool.eqb]. rewrite length_zero_empty.
  destruct (String.eqb_spec raw "") as [->|_]; [split; reflexivity|].
  cbn [orb]. destruct (String.eqb (trim raw) ""); [split; reflexivity|].
  destruct (test_anchored EMAIL_PATTERN (trim raw)); split; reflexivity.
Qed.

(** X1.  The e-mail check of the contact form and the one of the
    registration form give the same verdict and the same message on every
    value; they accept exactly the values whose trimmed form is
    [local@domain.tld], three non-empty runs without white space or [@],
    so an accepted address has no white space and exactly one [@]. *)
Theorem email_checks_agree (raw : string) :
  Account.valid (Account.validateEmail raw)
  = ContactForm.field_ok (ContactForm.validateField "email" raw)
  /\ Account.message (Account.validateEmail raw)
     = ContactForm.error_text (ContactForm.validateField "email" raw)
  /\ (ContactForm.field_ok (ContactForm.validateField "email" raw) = true
      <-> address_shape (list_ascii_of_string (trim raw)))
  /\ (ContactForm.field_ok (ContactForm.validateField "email" raw) = true ->
      List.forallb (fun c => negb (is_space c))
                   (list_ascii_of_string (trim raw)) = true
      /\ List.count_occ ascii_dec (list_ascii_of_string (trim raw)) "@"%char
         = 1%nat).
Proof.
  destruct (email_verdicts raw) as [Hv Hm].
  split; [exact Hv|]. split; [exact Hm|].
  split; [apply field_email_shape|].
  intros H. apply address_shape_at, field_email_shape, H.
Qed.

Lemma email_checks_agree_witness :
  List.forallb (fun c => negb (is_space c))
               (list_ascii_of_string (trim " brew@code.io ")) = true
  /\ List.count_occ ascii_dec (list_ascii_of_string (trim " brew@code.io "))
                    "@"%char = 1%nat.
Proof.
  apply (proj2 (proj2 (proj2 (email_checks_agree " brew@code.io ")))).
  vm_compute. reflexivity.
Defined.

Lemma name_ok (raw : string) :
  ContactForm.field_ok (ContactForm.validateField "name" raw) = true
  <-> (2 <= String.length (trim raw))%nat.
Proof.
  unfold ContactForm.validateField, ContactForm.MIN_NAME_LENGTH.
  cbn [String.eqb Ascii.eqb Bool.eqb].
  destruct (Nat.eqb_spec (String.length (trim raw)) 0);
    [cbn; split; [discriminate|lia]|].
  destruct (Nat.ltb_spec (String.length (trim raw)) 2);
    cbn; split; (discriminate || lia || reflexivity).
Qed.

Lemma message_ok (raw : string) :
  ContactForm.field_ok (ContactForm.validateField "message" raw) = true
  <-> (10 <= String.length (trim raw))%nat.
Proof.
  unfold ContactForm.validateField, ContactForm.MIN_MESSAGE_LENGTH.
  cbn [String.eqb Ascii.eqb Bool.eqb].
  destruct (Nat.eqb_spec (String.length (trim raw)) 0);
    [cbn; split; [discriminate|lia]|].
  destruct (Nat.ltb_spec (String.length (trim raw)) 10);
    cbn; split; (discriminate || lia || reflexivity).
Qed.

(** X2.  [validateForm] passes exactly when the trimmed name has at least
    two characters, the trimmed e-mail address has the shape
    [local@domain.tld] and the trimmed message has at least ten characters;
    the subject plays no part. *)
Theorem validateForm_accepts (form : ContactForm.Form) :
  ContactForm.validateForm form = true
  <-> (2 <= String.length (trim (ContactForm.f_name form)))%nat
      /\ address_shape (list_ascii_of_string (trim (ContactForm.f_email form)))
      /\ (10 <= String.length (trim (ContactForm.f_message form)))%nat.
Proof.
  unfold ContactForm.validateForm. rewrite !andb_true_iff.
  rewrite field_email_shape, name_ok, message_ok. tauto.
Qed.

Lemma username_pattern (t : string) :
  test_anchored Account.USERNAME_PATTERN t = true
  <-> t <> "" /\ List.forallb alnum (list_ascii_of_string t) = true.
Proof.
  unfold test_anchored, Account.USERNAME_PATTERN. rewrite matches_lang.
  split.
  - intros H. apply (lang_class_run alnum) in H as [Hne Hall].
    split; [|exact Hall]. intros ->. apply Hne. reflexivity.
  - intros [Hne Hall]. apply (lang_class_run alnum).
    split; [|exact Hall]. destruct t; [congruence|discriminate].
Qed.

Lemma username_ok (username : string) :
  Account.valid (Account.validateUsername username) = true
  <-> (3 <= String.length (trim username) <= 20)%nat
      /\ List.forallb alnum (list_ascii_of_string (trim username)) = true.
Proof.
  assert (Hblank : String.eqb username "" = true ->
                   (String.length (trim username) < 3)%nat).
  { intros H. apply String.eqb_eq in H as ->. cbn. lia. }
  pose proof (username_pattern (trim username)) as Hpat.
  unfold Account.validateUsername, Account.MIN_USERNAME_LENGTH,
    Account.MAX_USERNAME_LENGTH.
  destruct (String.eqb username "") eqn:Eb;
    [specialize (Hblank eq_refl)|clear Hblank];
    destruct (Nat.ltb_spec (String.length (trim username)) 3) as [H3|H3];
    try lia; cbn [orb Account.valid];
    try solve [split; [discriminate|lia]].
  destruct (Nat.ltb_spec 20 (String.length (trim username))) as [H20|H20];
    cbn [Account.valid]; [split; [discriminate|lia]|].
  destruct (test_anchored Account.USERNAME_PATTERN (trim username)) eqn:Et;
    cbn [negb Account.valid].
  - split; [intros _|reflexivity]. split; [lia|].
    apply Hpat. reflexivity.
  - split; [discriminate|]. intros [_ Hall].
    assert (Hne : trim username <> "").
    { intros E. rewrite E in H3. cbn in H3. lia. }
    destruct Hpat as [_ Hpat]. discriminate (Hpat (conj Hne Hall)).
Qed.

(** X3.  [validateUsername] passes exactly when the trimmed name has 3 to
    20 characters, all of them letters or digits; a name that is too short
    gets the "at least" message and one that is too long the "no more
    than" message whatever its characters are. *)
Theorem validateUsername_accepts (username : string) :
  (Account.valid (Account.validateUsername username) = true
   <-> (3 <= String.length (trim username) <= 20)%nat
       /\ List.forallb alnum (list_ascii_of_string (trim username)) = true)
  /\ ((String.length (trim username) < 3)%nat ->
      Account.validateUsername username
      = Account.mkValidation false "Username must be at least 3 characters.")
  /\ ((3 <= String.length (trim username))%nat ->
      (20 < String.length (trim username))%nat ->
      Account.validateUsername username
      = Account.mkValidation false
          "Username must be no more than 20 characters.").
Proof.
  split; [apply username_ok|].
  assert (Hblank : String.eqb username "" = true ->
                   (String.length (trim username) < 3)%nat).
  { intros H. apply String.eqb_eq in H as ->. cbn. lia. }
  unfold Account.validateUsername, Account.MIN_USERNAME_LENGTH,
    Account.MAX_USERNAME_LENGTH.
  split.
  - intros H3. apply Nat.ltb_lt in H3. rewrite H3, orb_true_r. reflexivity.
  - intros H3 H20.
    destruct (String.eqb username "") eqn:Eb;
      [specialize (Hblank eq_refl); lia|].
    apply Nat.ltb_ge in H3. apply Nat.ltb_lt in H20.
    rewrite H3, H20. reflexivity.
Qed.

Lemma validateUsername_accepts_witness :
  Account.validateUsername " ab "
  = Account.mkValidation false "Username must be at least 3 characters.".
Proof.
  apply (proj1 (proj2 (validateUsername_accepts " ab "))).
  vm_compute. lia.
Defined.

Lemma validateConfirmPassword_accepts (password confirm : string) :
  Account.valid (Account.validateConfirmPassword password confirm) = true
  <-> confirm <> "" /\ password = confirm.
Proof.
  unfold Account.validateConfirmPassword. rewrite length_zero_empty, orb_diag.
  destruct (String.eqb_spec confirm "") as [->|Hne];
    [split; [discriminate|tauto]|].
  destruct (String.eqb_spec password confirm); cbn; split;
    (discriminate || tauto).
Qed.

Lemma strong_all_classes (password : string) :
  Account.strength password = "strong"
  <-> Account.classes_met password = 5%nat.
Proof.
  unfold Account.strength.
  rewrite AccountClaims.requirements_classes.
  unfold Account.metCount, Account.classes_met.
  cbn [Account.req_length Account.req_uppercase Account.req_lowercase
       Account.req_number Account.req_special].
  destruct (Account.long_enough password),
    (Account.has_char Account.is_upper password),
    (Account.has_char Account.is_lower password),
    (Account.has_char Account.is_digit password),
    (Account.has_char Account.is_special password);
    cbn; split; (discriminate || lia || reflexivity).
Qed.

Lemma password_ok (password : string) :
  Account.valid (Account.validatePassword password) = true
  <-> Account.classes_met password = 5%nat.
Proof.
  unfold Account.validatePassword.
  rewrite AccountClaims.requirements_classes, length_zero_empty, orb_diag.
  unfold Account.classes_met.
  cbn [Account.req_length Account.req_uppercase Account.req_lowercase
       Account.req_number Account.req_special].
  assert (Hempty : password = "" -> Account.long_enough password = false).
  { intros ->. reflexivity. }
  destruct (String.eqb_spec password "") as [E|_];
    [rewrite (Hempty E)|clear Hempty];
    destruct (Account.long_enough password),
      (Account.has_char Account.is_upper password),
      (Account.has_char Account.is_lower password),
      (Account.has_char Account.is_digit password),
      (Account.has_char Account.is_special password);
    cbn; split; (discriminate || lia || reflexivity).
Qed.

(** X4.  [validatePassword] passes exactly when the strength meter shows
    "strong", that is when all five requirement classes are met. *)
Theorem valid_password_is_strong (password : string) :
  (Account.valid (Account.validatePassword password) = true
   <-> Account.strength password = "strong")
  /\ (Account.strength password = "strong"
      <-> Account.classes_met password = 5%nat).
Proof.
  split; [|apply strong_all_classes].
  rewrite password_ok, strong_all_classes. reflexivity.
Qed.

(** X5.  [validateAll] passes exactly when the trimmed user name has 3 to
    20 letters or digits, the trimmed e-mail address has the shape
    [local@domain.tld], the password meets all five classes, the
    confirmation equals the password and the terms are accepted; for any
    other form [handleFormSubmit] leaves the browser as it was: no session
    is written and the page does not change. *)
Theorem registration_gate (form : Account.Form) (b : Browser) :
  (Account.validateAll form = true
   <-> (3 <= String.length (trim (Account.f_username form)) <= 20)%nat
       /\ List.forallb alnum
            (list_ascii_of_string (trim (Account.f_username form))) = true
       /\ address_shape (list_ascii_of_string (trim (Account.f_email form)))
       /\ Account.classes_met (Account.f_password form) = 5%nat
       /\ Account.f_confirmPassword form = Account.f_password form
       /\ Account.f_terms form = true)
  /\ (Account.validateAll form = false ->
      Account.handleFormSubmit form b = b).
Proof.
  split.
  - unfold Account.validateAll. rewrite !andb_true_iff.
    rewrite username_ok, trim_idempotent.
    rewrite (proj1 (email_verdicts _)), field_email_shape, trim_idempotent.
    rewrite password_ok, validateConfirmPassword_accepts.
    split.
    + intros [[[[[Hl Ha] He] Hp] [_ Hc]] Ht]. repeat split; auto; lia.
    + intros ([Hl Hu] & Ha & He & Hp & Hc & Ht).
      repeat split; auto.
      rewrite Hc. intros E. rewrite E in Hp. discriminate Hp.
  - intros H. unfold Account.handleFormSubmit. rewrite H. reflexivity.
Qed.

Lemma registration_gate_witness :
  Account.handleFormSubmit
    (Account.mkForm "ab" "b@x.io" "Abc12345!" "Abc12345!" true)
    (mkBrowser fresh_store fresh_store "account.html")
  = mkBrowser fresh_store fresh_store "account.html".
Proof.
  apply (proj2 (registration_gate
                  (Account.mkForm "ab" "b@x.io" "Abc12345!" "Abc12345!" true)
                  (mkBrowser fresh_store fresh_store "account.html"))).
  vm_compute. reflexivity.
Defined.

End ValidationFacts.

(* ===================================================================== *)
(** ** The repositories beyond the array case, and their compositions *)
(* ===================================================================== *)

Module RepositoryFacts.
Import StoreFacts ContactFormFacts FavoritesFacts Favorites.

Lemma newDrink_result (clock : Clock) (drink : value) :
  newDrink clock drink = Throw TypeError
  \/ exists name size customization notes,
       newDrink clock drink
       = Ok (VObj [ ("id", VNum (now clock)); ("name", name);
                    ("size", size); ("customization", customization);
                    ("notes", notes); ("addedAt", VStr (isoString clock)) ]).
Proof.
  unfold newDrink.
  destruct drink; cbn; try (left; reflexivity); right; eauto 10.
Qed.


(** X6.  Appending needs an array: when the key holds JSON text of
    anything else (an object, a number, a string, [null], ...),
    [saveSubmission] and [addFavorite] raise a TypeError at [push] and
    nothing is written. *)
Theorem append_needs_array (ls : Storage) (v x : value)
        (clock : Clock) (drink : value) :
  (forall l, v <> VArr l) ->
  (ContactForm.loadSubmissions ls = Ok v ->
   ContactForm.saveSubmission x ls = Throw TypeError)
  /\ (loadFavorites ls = Ok v ->
      addFavorite clock drink ls = Throw TypeError).
Proof.
  intros Hv. split; intros Hload.
  - unfold ContactForm.saveSubmission. rewrite Hload.
    destruct v; try reflexivity. destruct (Hv elems eq_refl).
  - unfold addFavorite. rewrite Hload. cbn [mbind outcome_bind].
    destruct (newDrink_result clock drink) as [E|(n & s & c & t & E)];
      rewrite E; [reflexivity|].
    destruct v; try reflexivity. destruct (Hv elems eq_refl).
Qed.

Lemma append_needs_array_witness :
  ContactForm.saveSubmission inquiry
    (store ContactForm.STORAGE_KEY (VObj [("count", VNum 2)]) fresh_store)
  = Throw TypeError
  /\ addFavorite (mkClock 1767254400002 "2026-01-03T08:00:00.000Z") latte
       (store FAVORITES_KEY (VObj [("count", VNum 2)]) fresh_store)
     = Throw TypeError.
Proof.
  split.
  - apply (append_needs_array _ (VObj [("count", VNum 2)]) inquiry
             (mkClock 0 "") VNull);
      [intros l H; discriminate H|vm_compute; reflexivity].
  - apply (append_needs_array _ (VObj [("count", VNum 2)]) inquiry);
      [intros l H; discriminate H|vm_compute; reflexivity].
Defined.

(** X7.  The loops of the repository on a stored value that is not an
    array.  On [null] the read of [length] raises a TypeError in
    [updateFavorite], [deleteFavorite], [findFavorite] and
    [renderFavorites].  On a number, a boolean and an object without a
    [length] the loops do not run: nothing is found, nothing is written,
    and the dashboard shows neither a card nor the empty state. *)
Theorem repository_on_non_array (id : Z) (updates v : value) (ls : Storage) :
  loadFavorites ls = Ok v ->
  (v = VNull ->
   updateFavorite id updates ls = Throw TypeError
   /\ deleteFavorite id ls = Throw TypeError
   /\ findFavorite id ls = Throw TypeError
   /\ Dashboard.renderFavorites ls = Throw TypeError)
  /\ ((exists n, v = VNum n) \/ (exists b, v = VBool b)
      \/ (exists fs, v = VObj fs /\ lookup_field "length" fs = None) ->
      updateFavorite id updates ls = Ok (false, ls)
      /\ deleteFavorite id ls = Ok (false, ls)
      /\ findFavorite id ls = Ok VNull
      /\ Dashboard.renderFavorites ls = Ok (Dashboard.mkView false [])).
Proof.
  intros Hload.
  unfold updateFavorite, deleteFavorite, findFavorite,
    Dashboard.renderFavorites.
  rewrite Hload. split.
  - intros ->. repeat split; reflexivity.
  - intros [[n ->]|[[b ->]|(fs & -> & Hlen)]];
      cbn [mbind outcome_bind loop_elements get_prop]; unfold own;
      try rewrite Hlen; repeat split; reflexivity.
Qed.

Lemma repository_on_non_array_witness :
  findFavorite 7 (store FAVORITES_KEY (VNum 5) fresh_store) = Ok VNull
  /\ Dashboard.renderFavorites (store FAVORITES_KEY (VNum 5) fresh_store)
     = Ok (Dashboard.mkView false []).
Proof.
  destruct (repository_on_non_array 7 VNull (VNum 5)
              (store FAVORITES_KEY (VNum 5) fresh_store)
              ltac:(vm_compute; reflexivity)) as [_ H].
  destruct (H (or_introl (ex_intro _ 5 eq_refl))) as (_ & _ & Hf & Hr).
  split; [exact Hf|exact Hr].
Defined.



















(** *** What the writes leave alone *)

Lemma same_elsewhere_refl (k : string) (st : Storage) :
  same_elsewhere k st st.
Proof. repeat split. Qed.

Lemma store_same_elsewhere (k : string) (v : value) (st : Storage) :
  same_elsewhere k st (store k v st).
Proof.
  unfold store. destruct (accepts _ _ _); [|apply same_elsewhere_refl].
  repeat split. intros k' Hk. cbn [items]. apply lookup_insert_ne. congruence.
Qed.

Lemma same_elsewhere_read (k k' : string) (st st' : Storage) :
  same_elsewhere k st st' -> k' <> k ->
  read_outcome k' st' = read_outcome k' st.
Proof.
  intros (Hd & _ & Hi) Hk. unfold read_outcome, followed, degraded_read.
  rewrite Hd, (Hi _ Hk). reflexivity.
Qed.

Lemma addFavorite_writes (clock : Clock) (drink r : value) (ls ls' : Storage) :
  addFavorite clock drink ls = Ok (r, ls') ->
  exists v, ls' = store FAVORITES_KEY v ls.
Proof.
  unfold addFavorite.
  destruct (loadFavorites ls) as [favorites| |]; cbn [mbind outcome_bind];
    [|discriminate|discriminate].
  destruct (newDrink clock drink) as [x| |]; cbn [mbind outcome_bind];
    [|discriminate|discriminate].
  destruct (ContactForm.push favorites x) as [w| |];
    cbn [mbind outcome_bind]; [|discriminate|discriminate].
  rewrite saveFavorites_store. cbn [mbind outcome_bind].
  intros [= _ <-]. eauto.
Qed.

Lemma updateFavorite_writes (id : Z) (updates : value) (r : bool)
      (ls ls' : Storage) :
  updateFavorite id updates ls = Ok (r, ls') ->
  ls' = ls \/ exists v, ls' = store FAVORITES_KEY v ls.
Proof.
  unfold updateFavorite.
  destruct (loadFavorites ls) as [favorites| |]; cbn [mbind outcome_bind];
    [|discriminate|discriminate].
  destruct (loop_elements _) as [l| |]; cbn [mbind outcome_bind];
    [|discriminate|discriminate].
  destruct (update_loop id updates l) as [[l' found]| |];
    cbn [mbind outcome_bind]; [|discriminate|discriminate].
  destruct found.
  - rewrite saveFavorites_store. cbn [mbind outcome_bind].
    intros [= _ <-]. eauto.
  - intros [= _ <-]. left. reflexivity.
Qed.

Lemma deleteFavorite_writes (id : Z) (r : bool) (ls ls' : Storage) :
  deleteFavorite id ls = Ok (r, ls') ->
  ls' = ls \/ exists v, ls' = store FAVORITES_KEY v ls.
Proof.
  unfold deleteFavorite.
  destruct (loadFavorites ls) as [favorites| |]; cbn [mbind outcome_bind];
    [|discriminate|discriminate].
  destruct (loop_elements _) as [l| |]; cbn [mbind outcome_bind];
    [|discriminate|discriminate].
  destruct (delete_loop id l) as [next| |]; cbn [mbind outcome_bind];
    [|discriminate|discriminate].
  cbn [mbind outcome_bind].
  destruct (Nat.ltb _ _).
  - rewrite saveFavorites_store. cbn [mbind outcome_bind].
    intros [= _ <-]. eauto.
  - intros [= _ <-]. left. reflexivity.
Qed.

Lemma saveSubmission_writes (x : value) (ls ls' : Storage) :
  ContactForm.saveSubmission x ls = Ok ls' ->
  exists v, ls' = store ContactForm.STORAGE_KEY v ls.
Proof.
  unfold ContactForm.saveSubmission.
  destruct (ContactForm.loadSubmissions ls) as [submissions| |];
    cbn [mbind outcome_bind]; [|discriminate|discriminate].
  destruct (ContactForm.push submissions x)
    as [w| |]; cbn [mbind outcome_bind]; [|discriminate|discriminate].
  rewrite guarded_write. intros [= <-]. eauto.
Qed.

(** X12.  Each repository writes under its own key only.  Whatever the
    stored values are, [addFavorite], [updateFavorite] and
    [deleteFavorite] leave every entry of the durable area other than
    [favoriteDrinks] as it was, so the saved inquiries read the same
    afterwards; [saveSubmission] and the submit handler of the contact
    form leave every entry other than [codeBrewInquiries] as it was, so
    the favourites read the same afterwards. *)
Theorem repositories_do_not_interfere (ls ls' : Storage) :
  ((exists clock drink r, addFavorite clock drink ls = Ok (r, ls'))
   \/ (exists id updates r, updateFavorite id updates ls = Ok (r, ls'))
   \/ (exists id r, deleteFavorite id ls = Ok (r, ls')) ->
   same_elsewhere FAVORITES_KEY ls ls'
   /\ ContactForm.loadSubmissions ls' = ContactForm.loadSubmissions ls)
  /\ ((exists x, ContactForm.saveSubmission x ls = Ok ls')
      \/ (exists form now, ContactForm.onSubmit form now ls = Ok ls') ->
      same_elsewhere ContactForm.STORAGE_KEY ls ls'
      /\ loadFavorites ls' = loadFavorites ls).
Proof.
  split.
  - intros H.
    assert (Hw : ls' = ls \/ exists v, ls' = store FAVORITES_KEY v ls).
    { destruct H as [(clock & drink & r & H)
                    |[(id & updates & r & H)|(id & r & H)]].
      - right. eapply addFavorite_writes, H.
      - eapply updateFavorite_writes, H.
      - eapply deleteFavorite_writes, H. }
    assert (Hs : same_elsewhere FAVORITES_KEY ls ls').
    { destruct Hw as [->|[v ->]];
        [apply same_elsewhere_refl|apply store_same_elsewhere]. }
    split; [exact Hs|]. rewrite !loadSubmissions_read.
    rewrite (same_elsewhere_read _ _ _ _ Hs); [reflexivity|].
    intros E. discriminate E.
  - intros H.
    assert (Hw : ls' = ls
                 \/ exists v, ls' = store ContactForm.STORAGE_KEY v ls).
    { destruct H as [(x & H)|(form & now & H)].
      - right. eapply saveSubmission_writes, H.
      - unfold ContactForm.onSubmit in H.
        destruct (negb _); [left; congruence|].
        right. eapply saveSubmission_writes, H. }
    assert (Hs : same_elsewhere ContactForm.STORAGE_KEY ls ls').
    { destruct Hw as [->|[v ->]];
        [apply same_elsewhere_refl|apply store_same_elsewhere]. }
    split; [exact Hs|]. rewrite !loadFavorites_read.
    rewrite (same_elsewhere_read _ _ _ _ Hs); [reflexivity|].
    intros E. discriminate E.
Qed.

Lemma repositories_do_not_interfere_witness :
  ContactForm.loadSubmissions
    (store FAVORITES_KEY (VArr [latte])
       (store ContactForm.STORAGE_KEY (VArr [inquiry]) fresh_store))
  = ContactForm.loadSubmissions
      (store ContactForm.STORAGE_KEY (VArr [inquiry]) fresh_store).
Proof.
  apply (proj1 (repositories_do_not_interfere
                  (store ContactForm.STORAGE_KEY (VArr [inquiry]) fresh_store)
                  _)).
  left. exists (mkClock 1767254400000 "2026-01-01T08:00:00.000Z"), latte, latte.
  vm_compute. reflexivity.
Defined.



End RepositoryFacts.

(* ===================================================================== *)
(** ** The welcome dashboard *)
(* ===================================================================== *)

Module DashboardFacts.
Import JSONFacts StoreFacts FavoritesFacts RepositoryFacts.
Import Favorites Dashboard.











(** *** The session *)

Lemma getCurrentUser_read (ss : Storage) :
  followed SESSION_KEY ss = true ->
  getCurrentUser ss
  = Ok (if disabled ss then VNull
        else match items ss !! SESSION_KEY with
             | None => VNull
             | Some text =>
                 match JSON.parse text with
                 | Some v => v
                 | None => VNull
                 end
             end).
Proof.
  unfold getCurrentUser, getItem, followed.
  destruct (disabled ss); [reflexivity|]. cbn [mbind outcome_bind orb].
  destruct (items ss !! SESSION_KEY) as [text|]; [|reflexivity].
  intros Hf. apply negb_true_iff in Hf.
  destruct (String.eqb_spec text "") as [->|_]; [reflexivity|].
  cbn [negb]. unfold JSON_parse. rewrite Hf.
  destruct (JSON.parse text); reflexivity.
Qed.

Lemma getCurrentUser_stored (v : value) (ss : Storage) :
  accepts SESSION_KEY (JSON_stringify v) ss = true ->
  storable v = true ->
  getCurrentUser (store SESSION_KEY v ss) = Ok v.
Proof.
  intros Ha Hs. rewrite getCurrentUser_read by apply followed_store, Ha.
  unfold store. rewrite Ha.
  cbn [disabled items]. rewrite (accepts_enabled _ _ _ Ha).
  rewrite lookup_insert_eq, (parse_stringify _ Hs). reflexivity.
Qed.

Lemma valid_username_not_blank (form : Account.Form) :
  Account.validateAll form = true ->
  trim (Account.f_username form) <> "".
Proof.
  unfold Account.validateAll. rewrite !andb_true_iff.
  intros [[[[Hu _] _] _] _] E. rewrite E in Hu. discriminate Hu.
Qed.

(** X16.  From registration to the welcome page: after a registration
    that passes [validateAll] the browser is at [welcome.html]; if the
    session area took the write, [getCurrentUser] returns the object with
    the trimmed user name and e-mail address and the page greets the user
    by the trimmed name; if the session area refused the write the browser
    is at [welcome.html] all the same and [getCurrentUser] answers as
    before the registration. *)
Theorem registration_then_welcome (form : Account.Form) (b : Browser) :
  Account.validateAll form = true ->
  location_href (Account.handleFormSubmit form b) = "welcome.html"
  /\ (accepts SESSION_KEY (JSON_stringify (Account.userData form))
        (sessionStorage b) = true ->
      getCurrentUser (sessionStorage (Account.handleFormSubmit form b))
      = Ok (VObj [ ("username", VStr (trim (Account.f_username form)));
                   ("email", VStr (trim (Account.f_email form))) ])
      /\ welcomeUsername (sessionStorage (Account.handleFormSubmit form b))
         = Ok (Some (VStr (trim (Account.f_username form)))))
  /\ (accepts SESSION_KEY (JSON_stringify (Account.userData form))
        (sessionStorage b) = false ->
      getCurrentUser (sessionStorage (Account.handleFormSubmit form b))
      = getCurrentUser (sessionStorage b)).
Proof.
  intros Hvalid. pose proof (valid_username_not_blank _ Hvalid) as Hname.
  unfold Account.handleFormSubmit. rewrite Hvalid. cbn [negb].
  cbn [location_href sessionStorage].
  rewrite AccountClaims.session_write.
  split; [reflexivity|]. split; intros Ha.
  - assert (Hread : getCurrentUser
                      (store Account.SESSION_KEY (Account.userData form)
                             (sessionStorage b))
                    = Ok (Account.userData form)).
    { apply getCurrentUser_stored; [exact Ha|reflexivity]. }
    split; [exact Hread|].
    unfold welcomeUsername. rewrite Hread.
    cbn [mbind outcome_bind Account.userData truthy get_prop].
    unfold own. cbn [lookup_field String.eqb Ascii.eqb Bool.eqb truthy].
    apply String.eqb_neq in Hname. rewrite Hname. reflexivity.
  - rewrite (store_refused Account.SESSION_KEY (Account.userData form)
               (sessionStorage b) Ha).
    reflexivity.
Qed.

Lemma registration_then_welcome_witness :
  welcomeUsername
    (sessionStorage
       (Account.handleFormSubmit
          (Account.mkForm " brewer1 " "b@x.io" "Abc12345!" "Abc12345!" true)
          (mkBrowser fresh_store fresh_store "account.html")))
  = Ok (Some (VStr "brewer1")).
Proof.
  destruct (registration_then_welcome
              (Account.mkForm " brewer1 " "b@x.io" "Abc12345!" "Abc12345!"
                              true)
              (mkBrowser fresh_store fresh_store "account.html")
              ltac:(vm_compute; reflexivity)) as (_ & H & _).
  exact (proj2 (H ltac:(vm_compute; reflexivity))).
Defined.

(** X17.  [handleLogout]: a confirmed logout removes the session entry and
    nothing else, leaves the durable area (the favourites) alone and goes
    to [../index.html]; afterwards [getCurrentUser] is [null] and the
    welcome page greets nobody.  A declined logout changes nothing.  With
    a session area that refuses access the script raises before the page
    changes. *)
Theorem handleLogout_outcome (b : Browser) :
  handleLogout false b = Ok b
  /\ (disabled (sessionStorage b) = true ->
      handleLogout true b = Throw SecurityError)
  /\ (disabled (sessionStorage b) = false ->
      exists b',
        handleLogout true b = Ok b'
        /\ location_href b' = "../index.html"
        /\ localStorage b' = localStorage b
        /\ items (sessionStorage b') !! SESSION_KEY = None
        /\ same_elsewhere SESSION_KEY (sessionStorage b) (sessionStorage b')
        /\ getCurrentUser (sessionStorage b') = Ok VNull
        /\ welcomeUsername (sessionStorage b') = Ok None).
Proof.
  split; [reflexivity|]. unfold handleLogout, removeItem.
  split; intros Hd; rewrite Hd; [reflexivity|].
  cbn [mbind outcome_bind]. eexists. split; [reflexivity|].
  cbn [location_href localStorage sessionStorage items].
  split; [reflexivity|]. split; [reflexivity|].
  split; [apply lookup_delete_eq|].
  split.
  { unfold same_elsewhere. cbn [disabled quota items].
    split; [symmetry; exact Hd|]. split; [reflexivity|].
    intros k' Hk. apply lookup_delete_ne. congruence. }
  assert (Hread : getCurrentUser
                    (mkStorage (delete SESSION_KEY (items (sessionStorage b)))
                               false (quota (sessionStorage b)))
                  = Ok VNull).
  { rewrite getCurrentUser_read; unfold followed; cbn [disabled items orb];
      rewrite lookup_delete_eq; reflexivity. }
  split; [exact Hread|]. unfold welcomeUsername. rewrite Hread. reflexivity.
Qed.

Lemma handleLogout_outcome_witness :
  exists b',
    handleLogout true
      (Account.handleFormSubmit
         (Account.mkForm " brewer1 " "b@x.io" "Abc12345!" "Abc12345!" true)
         (mkBrowser fresh_store fresh_store "account.html")) = Ok b'
    /\ getCurrentUser (sessionStorage b') = Ok VNull.
Proof.
  destruct (proj2 (proj2 (handleLogout_outcome
              (Account.handleFormSubmit
                 (Account.mkForm " brewer1 " "b@x.io" "Abc12345!" "Abc12345!"
                                 true)
                 (mkBrowser fresh_store fresh_store "account.html"))))
              ltac:(vm_compute; reflexivity))
    as (b' & Hb & _ & _ & _ & _ & Hu & _).
  exists b'. split; [exact Hb|exact Hu].
Defined.

End DashboardFacts.

(* ===================================================================== *)
(** ** The Edit and Remove buttons of the dashboard *)
(* ===================================================================== *)

Module CardFacts.
Import JSONFacts StoreFacts FavoritesFacts RepositoryFacts DashboardFacts.
Import Favorites Dashboard.











End CardFacts.

(* ===================================================================== *)
(** ** The blog: paging through the filtered articles *)
(* ===================================================================== *)

Module BlogFacts.
Import Blog BlogClaims.

Lemma render_grid (articles : list Article) (st : State) :
  0 <= visibleCount st ->
  grid (renderArticles articles st)
  = List.firstn (Z.to_nat (visibleCount st))
      (List.filter (matchesFilter (activeCategory st)) articles).
Proof.
  intros Hv. unfold renderArticles.
  rewrite filtered_matches, (slice0_firstn _ _ Hv).
  destruct (Nat.eqb_spec (List.length
              (List.firstn (Z.to_nat (visibleCount st))
                 (List.filter (matchesFilter (activeCategory st)) articles)))
              0) as [E|_]; [|reflexivity].
  cbn [grid]. symmetry. apply List.length_zero_iff_nil, E.
Qed.

Lemma render_more (articles : list Article) (st : State) :
  1 <= visibleCount st ->
  loadMoreShown (renderArticles articles st)
  = Z.ltb (visibleCount st)
      (Z.of_nat (List.length
                   (List.filter (matchesFilter (activeCategory st))
                                articles))).
Proof.
  intros Hv. unfold renderArticles.
  rewrite filtered_matches, (slice0_firstn _ (visibleCount st) ltac:(lia)).
  rewrite List.length_firstn.
  set (f := List.filter (matchesFilter (activeCategory st)) articles).
  destruct (Nat.eqb_spec (Nat.min (Z.to_nat (visibleCount st))
                                  (List.length f)) 0) as [E|E];
    cbn [loadMoreShown].
  - symmetry. apply Z.ltb_ge. lia.
  - rewrite Z.geb_leb. destruct (Z.leb_spec (Z.of_nat (List.length f))
                                            (visibleCount st));
      symmetry; [apply Z.ltb_ge|apply Z.ltb_lt]; lia.
Qed.

Lemma render_empty (articles : list Article) (st : State) :
  1 <= visibleCount st ->
  emptyShown (renderArticles articles st) = true
  <-> List.filter (matchesFilter (activeCategory st)) articles = [].
Proof.
  intros Hv. unfold renderArticles.
  rewrite filtered_matches, (slice0_firstn _ (visibleCount st) ltac:(lia)).
  rewrite List.length_firstn.
  set (f := List.filter (matchesFilter (activeCategory st)) articles).
  destruct (Nat.eqb_spec (Nat.min (Z.to_nat (visibleCount st))
                                  (List.length f)) 0) as [E|E];
    cbn [emptyShown].
  - split; [intros _|reflexivity]. apply List.length_zero_iff_nil. lia.
  - split; [discriminate|]. intros Hf. rewrite Hf in E. cbn in E. lia.
Qed.

Lemma firstn_more {A} (n m : nat) (l : list A) :
  List.firstn (n + m) l = List.firstn n l ++ List.firstn m (List.skipn n l).
Proof.
  revert l. induction n as [|n IH]; intros l; [reflexivity|].
  destruct l as [|x l]; cbn.
  - destruct m; reflexivity.
  - rewrite IH. reflexivity.
Qed.

Lemma forallb_filter_same {A} (p : A -> bool) (l : list A) :
  List.forallb p (List.filter p l) = true.
Proof.
  induction l as [|x l IH]; [reflexivity|].
  cbn. destruct (p x) eqn:E; [cbn; rewrite E|]; exact IH.
Qed.

Lemma forallb_firstn {A} (p : A -> bool) (n : nat) (l : list A) :
  List.forallb p l = true -> List.forallb p (List.firstn n l) = true.
Proof.
  revert l. induction n as [|n IH]; intros [|x l]; cbn; auto.
  intros [Hx Hl]%andb_true_iff. rewrite Hx. cbn. apply IH, Hl.
Qed.

(** X18.  A click on the load-more control keeps the cards that were shown
    and adds at most three after them; it adds at least one exactly when
    the control was shown; every card passes the active filter. *)
Theorem handleLoadMore_extends (articles : list Article) (st : State) :
  1 <= visibleCount st ->
  exists more,
    grid (renderArticles articles (handleLoadMore st))
    = grid (renderArticles articles st) ++ more
    /\ (List.length more <= 3)%nat
    /\ (loadMoreShown (renderArticles articles st) = true <-> more <> [])
    /\ List.forallb (matchesFilter (activeCategory st))
         (grid (renderArticles articles (handleLoadMore st))) = true.
Proof.
  intros Hv.
  set (f := List.filter (matchesFilter (activeCategory st)) articles).
  exists (List.firstn 3 (List.skipn (Z.to_nat (visibleCount st)) f)).
  assert (Hafter : grid (renderArticles articles (handleLoadMore st))
                   = List.firstn (Z.to_nat (visibleCount st) + 3) f).
  { rewrite render_grid;
      unfold handleLoadMore, ARTICLES_PER_PAGE;
      cbn [visibleCount activeCategory]; [|lia].
    replace (Z.to_nat (visibleCount st + 3))
      with (Z.to_nat (visibleCount st) + 3)%nat by lia.
    reflexivity. }
  rewrite Hafter, (render_grid articles st ltac:(lia)).
  split; [apply firstn_more|].
  split; [rewrite List.length_firstn; lia|].
  split.
  - rewrite (render_more articles st Hv). fold f. rewrite Z.ltb_lt.
    pose proof (List.length_skipn (Z.to_nat (visibleCount st)) f) as Hs.
    destruct (List.skipn (Z.to_nat (visibleCount st)) f) as [|x rest];
      cbn [List.length List.firstn] in *.
    + split; [lia|congruence].
    + split; [discriminate|lia].
  - apply forallb_firstn, forallb_filter_same.
Qed.

Lemma handleLoadMore_extends_witness :
  exists more,
    grid (renderArticles ARTICLES (handleLoadMore initial))
    = grid (renderArticles ARTICLES initial) ++ more
    /\ (List.length more <= 3)%nat.
Proof.
  destruct (handleLoadMore_extends ARTICLES initial
              ltac:(vm_compute; discriminate)) as (more & Hg & Hl & _).
  exists more. split; [exact Hg|exact Hl].
Defined.

Lemma after_clicks_state (category : string) (n : nat) (st : State) :
  activeCategory (after_clicks category n st) = category
  /\ visibleCount (after_clicks category n st) = 3 * (Z.of_nat n + 1).
Proof.
  unfold after_clicks. induction n as [|n [IHc IHv]]; [split; reflexivity|].
  rewrite Nat.iter_succ.
  set (s := Nat.iter n handleLoadMore (handleFilterClick category st)) in *.
  unfold handleLoadMore. cbn [activeCategory visibleCount].
  rewrite IHv. unfold ARTICLES_PER_PAGE. split; [exact IHc|lia].
Qed.

(** X19.  After a click on a filter and [n] clicks on the load-more
    control, the grid holds the first [3 * (n + 1)] articles of the
    category; once that number reaches the number of articles of the
    category the grid holds all of them and the control is hidden, so the
    control can be clicked only finitely often; the empty notice is shown
    exactly when no article is of the category. *)
Theorem load_more_reaches_all (articles : list Article) (category : string)
        (n : nat) (st : State) :
  grid (renderArticles articles (after_clicks category n st))
  = List.firstn (3 * (n + 1))
      (List.filter (matchesFilter category) articles)
  /\ ((List.length (List.filter (matchesFilter category) articles)
       <= 3 * (n + 1))%nat ->
      grid (renderArticles articles (after_clicks category n st))
      = List.filter (matchesFilter category) articles
      /\ loadMoreShown (renderArticles articles (after_clicks category n st))
         = false)
  /\ (emptyShown (renderArticles articles (after_clicks category n st)) = true
      <-> List.filter (matchesFilter category) articles = []).
Proof.
  destruct (after_clicks_state category n st) as [Hc Hv].
  assert (Hgrid : grid (renderArticles articles (after_clicks category n st))
                  = List.firstn (3 * (n + 1))
                      (List.filter (matchesFilter category) articles)).
  { rewrite render_grid, Hc, Hv; [|lia].
    replace (Z.to_nat (3 * (Z.of_nat n + 1))) with (3 * (n + 1))%nat by lia.
    reflexivity. }
  split; [exact Hgrid|]. split.
  - intros Hlen. split.
    + rewrite Hgrid. apply List.firstn_all2, Hlen.
    + rewrite render_more, Hc, Hv; [|lia]. apply Z.ltb_ge. lia.
  - rewrite render_empty, Hc; [reflexivity|lia].
Qed.

Lemma load_more_reaches_all_witness :
  grid (renderArticles ARTICLES (after_clicks "all" 1 initial)) = ARTICLES
  /\ loadMoreShown (renderArticles ARTICLES (after_clicks "all" 1 initial))
     = false.
Proof.
  apply (proj1 (proj2 (load_more_reaches_all ARTICLES "all" 1 initial))).
  vm_compute. lia.
Defined.

End BlogFacts.

(* ===================================================================== *)
(** ** The strength meter *)
(* ===================================================================== *)

Module StrengthFacts.
Import Account AccountClaims.

Lemma strength_classes (password : string) :
  strength password = strength_of (classes_met password).
Proof.
  unfold strength. rewrite requirements_classes. reflexivity.
Qed.

Lemma classes_met_bound (password : string) : (classes_met password <= 5)%nat.
Proof.
  unfold classes_met.
  destruct (long_enough password), (has_char is_upper password),
    (has_char is_lower password), (has_char is_digit password),
    (has_char is_special password); cbn; lia.
Qed.

Lemma chars_app (p q : string) :
  list_ascii_of_string (p ++ q)
  = list_ascii_of_string p ++ list_ascii_of_string q.
Proof.
  induction p as [|c p IH]; [reflexivity|].
  change (c :: list_ascii_of_string (p ++ q)
          = c :: (list_ascii_of_string p ++ list_ascii_of_string q)).
  f_equal. exact IH.
Qed.

Lemma has_char_app (f : ascii -> bool) (p q : string) :
  has_char f p = true -> has_char f (p ++ q) = true.
Proof.
  unfold has_char. rewrite chars_app, List.existsb_app. intros ->.
  reflexivity.
Qed.

Lemma length_app_string (p q : string) :
  String.length (p ++ q) = (String.length p + String.length q)%nat.
Proof.
  induction p as [|c p IH]; [reflexivity|].
  change (S (String.length (p ++ q))
          = S (String.length p + String.length q)).
  f_equal. exact IH.
Qed.

Lemma long_enough_app (p q : string) :
  long_enough p = true -> long_enough (p ++ q) = true.
Proof.
  unfold long_enough. rewrite !Nat.leb_le, length_app_string. lia.
Qed.

Lemma classes_met_app (p q : string) :
  (classes_met p <= classes_met (p ++ q))%nat.
Proof.
  unfold classes_met.
  pose proof (long_enough_app p q) as H1.
  pose proof (has_char_app is_upper p q) as H2.
  pose proof (has_char_app is_lower p q) as H3.
  pose proof (has_char_app is_digit p q) as H4.
  pose proof (has_char_app is_special p q) as H5.
  destruct (long_enough p); [rewrite (H1 eq_refl)|clear H1];
    (destruct (has_char is_upper p); [rewrite (H2 eq_refl)|clear H2]);
    (destruct (has_char is_lower p); [rewrite (H3 eq_refl)|clear H3]);
    (destruct (has_char is_digit p); [rewrite (H4 eq_refl)|clear H4]);
    (destruct (has_char is_special p); [rewrite (H5 eq_refl)|clear H5]);
    repeat match goal with
           | |- context [long_enough ?s] => destruct (long_enough s)
           | |- context [has_char ?f ?s] => destruct (has_char f s)
           end; cbn; lia.
Qed.

Lemma tier_rank_monotone (m n : nat) :
  (m <= n <= 5)%nat ->
  (tier_rank (strength_of m) <= tier_rank (strength_of n))%nat.
Proof.
  intros [Hmn Hn].
  destruct m as [|[|[|[|[|[|m]]]]]]; try lia;
    destruct n as [|[|[|[|[|[|n]]]]]]; try lia; cbn; lia.
Qed.

(** X20.  The strength meter never goes down while the user types on: a
    password extended at its end meets every class it met before, so its
    tier (weak, fair, good, strong) is at least the tier before.  For a
    non-empty password the bar carries the tier as its class and the label
    shows the tier with a capital letter; the tier is never the initial
    [none]. *)
Theorem strength_never_drops (password more : string) :
  (classes_met password <= classes_met (password ++ more))%nat
  /\ (tier_rank (strength password)
      <= tier_rank (strength (password ++ more)))%nat
  /\ (1 <= tier_rank (strength password))%nat
  /\ (password <> "" ->
      bar_class (updateStrengthBar password) = Some (strength password)
      /\ In (label_text (updateStrengthBar password))
            ["Weak"; "Fair"; "Good"; "Strong"]).
Proof.
  split; [apply classes_met_app|]. split; [|split].
  - rewrite !strength_classes. apply tier_rank_monotone.
    split; [apply classes_met_app|apply classes_met_bound].
  - rewrite strength_classes. pose proof (classes_met_bound password) as Hb.
    destruct (classes_met password) as [|[|[|[|[|[|m]]]]]]; try lia;
      cbn; lia.
  - intros Hne. unfold updateStrengthBar.
    destruct password as [|c rest]; [congruence|].
    cbn [String.length Nat.ltb Nat.leb bar_class label_text].
    split; [reflexivity|]. rewrite strength_classes.
    pose proof (classes_met_bound (String c rest)) as Hb.
    destruct (classes_met (String c rest)) as [|[|[|[|[|[|m]]]]]];
      try lia; cbn; tauto.
Qed.

Lemma strength_never_drops_witness :
  bar_class (updateStrengthBar "abc12345") = Some (strength "abc12345")
  /\ In (label_text (updateStrengthBar "abc12345"))
        ["Weak"; "Fair"; "Good"; "Strong"].
Proof.
  apply (proj2 (proj2 (proj2 (strength_never_drops "abc12345" "")))).
  intros H. discriminate H.
Defined.

End StrengthFacts.

(* ===================================================================== *)
(** ** Store hours *)
(* ===================================================================== *)

Module StoreHoursFacts.
Import StoreHours.
#[local] Set Warnings "-clear-no-such-hyp".

Lemma at_least_hour (d : option Z) (h m n : Z) :
  0 <= m < 60 ->
  at_least (currentTimeDecimal (mkTime d h m)) n = Z.leb n h.
Proof.
  intros Hm. unfold at_least, currentTimeDecimal, QArith_base.Qle_bool.
  cbn. destruct (Z.leb_spec n h); [apply Z.leb_le|apply Z.leb_gt]; lia.
Qed.

Lemma below_hour (d : option Z) (h m n : Z) :
  0 <= m < 60 ->
  below (currentTimeDecimal (mkTime d h m)) n = Z.ltb h n.
Proof.
  intros Hm. unfold below. fold (at_least (currentTimeDecimal (mkTime d h m)) n).
  rewrite (at_least_hour d h m n Hm), Z.ltb_antisym. reflexivity.
Qed.

Lemma schedule_days (d : Z) (s : Schedule) :
  STORE_SCHEDULE d = Some s ->
  (d = 0 /\ s = mkSchedule 9 18 "Sunday")
  \/ (d = 1 /\ s = mkSchedule 7 19 "Monday")
  \/ (d = 2 /\ s = mkSchedule 7 19 "Tuesday")
  \/ (d = 3 /\ s = mkSchedule 7 19 "Wednesday")
  \/ (d = 4 /\ s = mkSchedule 7 19 "Thursday")
  \/ (d = 5 /\ s = mkSchedule 7 19 "Friday")
  \/ (d = 6 /\ s = mkSchedule 8 20 "Saturday").
Proof.
  unfold STORE_SCHEDULE.
  destruct (Z.eqb_spec d 0) as [->|_]; [intros [= <-]; tauto|].
  destruct (Z.eqb_spec d 1) as [->|_]; [intros [= <-]; tauto|].
  destruct (Z.eqb_spec d 2) as [->|_]; [intros [= <-]; tauto|].
  destruct (Z.eqb_spec d 3) as [->|_]; [intros [= <-]; tauto|].
  destruct (Z.eqb_spec d 4) as [->|_]; [intros [= <-]; tauto|].
  destruct (Z.eqb_spec d 5) as [->|_]; [intros [= <-]; tauto|].
  destruct (Z.eqb_spec d 6) as [->|_]; [intros [= <-]; tauto|].
  discriminate.
Qed.

Lemma open_at_hours (d h m : Z) (s : Schedule) :
  STORE_SCHEDULE d = Some s -> 0 <= m < 60 ->
  open_at d h m = Z.leb (open s) h && Z.ltb h (close s).
Proof.
  intros Hs Hm. unfold open_at, checkStoreStatus. cbn [day]. rewrite Hs.
  rewrite !at_least_hour, !below_hour by exact Hm.
  destruct (Z.leb (open s) h && Z.ltb h (close s)) eqn:E; [reflexivity|].
  destruct (Z.ltb h (open s)); [reflexivity|].
  destruct (schedule_days d s Hs)
    as [[-> _]|[[-> _]|[[-> _]|[[-> _]|[[-> _]|[[-> _]|[-> _]]]]]]];
    reflexivity.
Qed.

Lemma checkStoreStatus_runs (d h m : Z) (s : Schedule) :
  STORE_SCHEDULE d = Some s ->
  exists status, checkStoreStatus (mkTime (Some d) h m) = Ok status.
Proof.
  intros Hs. unfold checkStoreStatus. cbn [day]. rewrite Hs.
  destruct (schedule_days d s Hs)
    as [[-> _]|[[-> _]|[[-> _]|[[-> _]|[[-> _]|[[-> _]|[-> _]]]]]]];
    cbn [STORE_SCHEDULE Z.add Z.modulo];
    repeat match goal with
           | |- context [if ?c then _ else _] => destruct c
           end; eauto.
Qed.

(** X21.  [checkStoreStatus] says open exactly from the opening hour of
    the day up to, and not including, its closing hour: the minute plays
    no part.  It raises a TypeError when the weekday of the reading is
    none of the seven names, and for a known weekday it always answers. *)
Theorem checkStoreStatus_hours (d h m : Z) (s : Schedule) :
  STORE_SCHEDULE d = Some s ->
  0 <= m < 60 ->
  (exists status,
      checkStoreStatus (mkTime (Some d) h m) = Ok status
      /\ (isOpen status = true <-> open s <= h < close s)
      /\ forall m', 0 <= m' < 60 ->
           exists status',
             checkStoreStatus (mkTime (Some d) h m') = Ok status'
             /\ isOpen status' = isOpen status)
  /\ (forall parts,
        weekdayMap (weekdayShort parts) = None ->
        checkStoreStatus (getCurrentStoreTime parts) = Throw TypeError).
Proof.
  intros Hs Hm. split.
  - assert (Hrun : forall m', 0 <= m' < 60 ->
              exists status,
                checkStoreStatus (mkTime (Some d) h m') = Ok status
                /\ isOpen status = Z.leb (open s) h && Z.ltb h (close s)).
    { intros m' Hm'. pose proof (open_at_hours d h m' s Hs Hm') as Ho.
      unfold open_at in Ho.
      destruct (checkStoreStatus_runs d h m' s Hs) as (st & E).
      rewrite E in Ho. exists st. split; [exact E|exact Ho]. }
    destruct (Hrun m Hm) as (status & Hst & Hopen).
    exists status. split; [exact Hst|]. split.
    + rewrite Hopen, andb_true_iff, Z.leb_le, Z.ltb_lt. reflexivity.
    + intros m' Hm'. destruct (Hrun m' Hm') as (status' & Hst' & Hopen').
      exists status'. split; [exact Hst'|]. congruence.
  - intros parts Hw. unfold checkStoreStatus, getCurrentStoreTime.
    cbn [day]. rewrite Hw. reflexivity.
Qed.

Lemma checkStoreStatus_hours_witness :
  exists status,
    checkStoreStatus (mkTime (Some 6) 19 59) = Ok status
    /\ (isOpen status = true <-> 8 <= 19 < 20).
Proof.
  destruct (proj1 (checkStoreStatus_hours 6 19 59 (mkSchedule 8 20 "Saturday")
                     eq_refl ltac:(lia))) as (status & Hs & Ho & _).
  exists status. split; [exact Hs|exact Ho].
Defined.

(** X22.  What a closed badge announces is when the store next opens.
    Before the opening hour the message names today's opening hour; the
    store is closed until then and open at that hour.  From the closing
    hour on the message names the next day of the week and its opening
    hour; the store is closed for the rest of the day and on the next day
    until that hour, and open at that hour. *)
Theorem closed_badge_names_next_opening (d h m : Z) (s : Schedule) :
  STORE_SCHEDULE d = Some s ->
  0 <= m < 60 ->
  (h < open s ->
   checkStoreStatus (mkTime (Some d) h m)
   = Ok (mkStatus false
           ("Closed - Opens today at " ++ number_text (open s) ++ ":00 AM"))
   /\ open_at d (open s) 0 = true
   /\ forall h' m', 0 <= m' < 60 -> h' < open s -> open_at d h' m' = false)
  /\ (close s <= h ->
      exists next,
        STORE_SCHEDULE ((d + 1) mod 7) = Some next
        /\ checkStoreStatus (mkTime (Some d) h m)
           = Ok (mkStatus false
                   ("Closed - Opens " ++ label next ++ " at "
                    ++ number_text (open next) ++ ":00 AM"))
        /\ open_at ((d + 1) mod 7) (open next) 0 = true
        /\ (forall h' m', 0 <= m' < 60 -> h <= h' -> open_at d h' m' = false)
        /\ (forall h' m', 0 <= m' < 60 -> h' < open next ->
              open_at ((d + 1) mod 7) h' m' = false)).
Proof.
  intros Hs Hm. split.
  - intros Hh. split; [|split].
    + unfold checkStoreStatus. cbn [day]. rewrite Hs.
      rewrite !at_least_hour, !below_hour by exact Hm.
      replace (Z.leb (open s) h) with false by (symmetry; apply Z.leb_gt; lia).
      replace (Z.ltb h (open s)) with true by (symmetry; apply Z.ltb_lt; lia).
      cbn [andb].
      destruct (schedule_days d s Hs)
        as [[_ ->]|[[_ ->]|[[_ ->]|[[_ ->]|[[_ ->]|[[_ ->]|[_ ->]]]]]]];
        reflexivity.
    + rewrite (open_at_hours d _ 0 s Hs) by lia.
      destruct (schedule_days d s Hs)
        as [[_ ->]|[[_ ->]|[[_ ->]|[[_ ->]|[[_ ->]|[[_ ->]|[_ ->]]]]]]];
        reflexivity.
    + intros h' m' Hm' Hh'. rewrite (open_at_hours d h' m' s Hs Hm').
      replace (Z.leb (open s) h') with false
        by (symmetry; apply Z.leb_gt; lia).
      reflexivity.
  - intros Hh.
    assert (Hnext : exists next,
               STORE_SCHEDULE ((d + 1) mod 7) = Some next
               /\ 7 <= open next <= 9 /\ open next < close next
               /\ open s < close s
               /\ ("Closed - Opens " ++ label next ++ " at "
                   ++ number_text (clock_hour (open next)) ++ ":00 "
                   ++ clock_period (open next)
                   = "Closed - Opens " ++ label next ++ " at "
                     ++ number_text (open next) ++ ":00 AM")%string).
    { destruct (schedule_days d s Hs)
        as [[-> ->]|[[-> ->]|[[-> ->]|[[-> ->]|[[-> ->]|[[-> ->]|[-> ->]]]]]]];
        eexists; (split; [reflexivity|]); cbn; repeat split; lia. }
    destruct Hnext as (next & Hn & Hrange & Hlt & Hlts & Hmsg).
    exists next. split; [exact Hn|]. split; [|split; [|split]].
    + unfold checkStoreStatus. cbn [day]. rewrite Hs, Hn.
      rewrite !at_least_hour, !below_hour by exact Hm.
      replace (Z.ltb h (close s)) with false
        by (symmetry; apply Z.ltb_ge; lia).
      replace (Z.ltb h (open s)) with false
        by (symmetry; apply Z.ltb_ge; lia).
      rewrite andb_false_r. rewrite Hmsg. reflexivity.
    + rewrite (open_at_hours _ _ 0 next Hn) by lia.
      rewrite Z.leb_refl. apply Z.ltb_lt. lia.
    + intros h' m' Hm' Hh'. rewrite (open_at_hours d h' m' s Hs Hm').
      replace (Z.ltb h' (close s)) with false
        by (symmetry; apply Z.ltb_ge; lia).
      apply andb_false_r.
    + intros h' m' Hm' Hh'. rewrite (open_at_hours _ h' m' next Hn Hm').
      replace (Z.leb (open next) h') with false
        by (symmetry; apply Z.leb_gt; lia).
      reflexivity.
Qed.

Lemma closed_badge_names_next_opening_witness :
  exists next,
    STORE_SCHEDULE ((6 + 1) mod 7) = Some next
    /\ checkStoreStatus (mkTime (Some 6) 21 30)
       = Ok (mkStatus false
               ("Closed - Opens " ++ label next ++ " at "
                ++ number_text (open next) ++ ":00 AM"))
    /\ open_at ((6 + 1) mod 7) (open next) 0 = true.
Proof.
  destruct (proj2 (closed_badge_names_next_opening 6 21 30
                     (mkSchedule 8 20 "Saturday") eq_refl ltac:(lia))
                  ltac:(cbn; lia)) as (next & Hn & Hm & Ho & _).
  exists next. split; [exact Hn|]. split; [exact Hm|exact Ho].
Defined.

(** X23.  [updateStatusBadge] leaves exactly one of the classes [open]
    and [closed] on the badge, the one that agrees with the status, keeps
    every other class, and sets the [aria-label] and the text of the
    status line to the message; without a badge it does nothing. *)
Theorem updateStatusBadge_classes (t : Time) (badge : Badge)
        (status : Status) :
  checkStoreStatus t = Ok status ->
  updateStatusBadge t None = Ok None
  /\ exists badge',
      updateStatusBadge t (Some badge) = Ok (Some badge')
      /\ ("open" ∈ classList badge' <-> isOpen status = true)
      /\ ("closed" ∈ classList badge' <-> isOpen status = false)
      /\ (forall c, c <> "open" -> c <> "closed" ->
                    c ∈ classList badge' <-> c ∈ classList badge)
      /\ ariaLabel badge' = Some (message status)
      /\ (statusText badge <> None ->
          statusText badge' = Some (message status))
      /\ (statusText badge = None -> statusText badge' = None).
Proof.
  intros Hst. split; [reflexivity|].
  unfold updateStatusBadge. rewrite Hst. cbn [mbind outcome_bind].
  eexists. split; [reflexivity|]. cbn [classList ariaLabel statusText].
  assert (Hne : "open" <> "closed") by discriminate.
  split; [|split; [|split; [|split; [|split]]]].
  - destruct (isOpen status); [set_solver|].
    split; [|discriminate]. intros H. exfalso. set_solver.
  - destruct (isOpen status); [|set_solver].
    split; [|discriminate]. intros H. exfalso. set_solver.
  - intros c Ho Hc. destruct (isOpen status); set_solver.
  - reflexivity.
  - destruct (statusText badge); [reflexivity|congruence].
  - intros ->. reflexivity.
Qed.

Lemma updateStatusBadge_classes_witness :
  exists badge',
    updateStatusBadge (mkTime (Some 1) 12 0)
      (Some (mkBadge {["status-badge"; "closed"]} None (Some "")))
    = Ok (Some badge')
    /\ ("open" ∈ classList badge' <-> true = true).
Proof.
  destruct (updateStatusBadge_classes (mkTime (Some 1) 12 0)
              (mkBadge {["status-badge"; "closed"]} None (Some ""))
              (mkStatus true "Open Now - Closes at 7:00 PM")
              ltac:(vm_compute; reflexivity))
    as (_ & badge' & Hb & Ho & _).
  exists badge'. split; [exact Hb|exact Ho].
Defined.

(** *** The mobile menu *)

Lemma expanded_String_of (e : Element) (b : bool) :
  attributes e !! "aria-expanded" = Some (String_of b) -> expanded e = b.
Proof.
  intros H. unfold expanded. rewrite H.
  destruct b; [apply bool_decide_eq_true_2; reflexivity|].
  apply bool_decide_eq_false_2. discriminate.
Qed.

Lemma toggle_shows (force : bool) (nav : Nav) (h m : Element) :
  hamburger nav = Some h -> navMenu nav = Some m ->
  shows (negb force && negb (expanded h)) (toggleMobileMenu force nav).
Proof.
  intros Hh Hm. unfold toggleMobileMenu. rewrite Hh, Hm.
  replace (if force then false else negb (expanded h))
    with (negb force && negb (expanded h)) by (destruct force; reflexivity).
  set (b := negb force && negb (expanded h)).
  unfold shows. cbn [hamburger navMenu navOverlay].
  split; [|split].
  - eexists. split; [reflexivity|].
    cbn [classList_toggle setAttribute attributes classes].
    split; [apply lookup_insert_eq|]. destruct b; set_solver.
  - eexists. split; [reflexivity|].
    cbn [classList_toggle classes]. destruct b; set_solver.
  - intros o Ho. destruct (navOverlay nav) as [o'|]; [|discriminate Ho].
    injection Ho as <-.
    cbn [classList_toggle setAttribute attributes classes].
    split; [apply lookup_insert_eq|]. destruct b; set_solver.
Qed.

(** X24.  The mobile menu never shows two states at once.  Whatever the
    page looked like, after [toggleMobileMenu] the [aria-expanded] of the
    hamburger, the class [active] on hamburger, menu and overlay, and the
    [aria-hidden] of the overlay all say the same: closed when closing is
    forced, and otherwise the opposite of what [aria-expanded] said.  From
    then on a click on the hamburger flips the menu, a click on a link or
    on the overlay (if there is one) and the Escape key close it, and any
    other key leaves the page as it is. *)
Theorem menu_shows_one_state (nav : Nav) (h m : Element) :
  hamburger nav = Some h -> navMenu nav = Some m ->
  (forall force,
      shows (negb force && negb (expanded h)) (toggleMobileMenu force nav))
  /\ (forall b, shows b nav ->
        shows (negb b) (handle HamburgerClick nav)
        /\ shows false (handle NavLinkClick nav)
        /\ (navOverlay nav <> None ->
            shows false (handle OverlayClick nav))
        /\ shows false (handle (KeyDown "Escape") nav)
        /\ shows false (handle (KeyDown "Esc") nav)
        /\ forall key, key <> "Escape" -> key <> "Esc" ->
                       handle (KeyDown key) nav = nav).
Proof.
  intros Hh Hm. split.
  - intros force. apply (toggle_shows force nav h m Hh Hm).
  - intros b Hb.
    assert (He : expanded h = b).
    { destruct Hb as [(h' & Hh' & Ha & _) _]. rewrite Hh in Hh'.
      injection Hh' as <-. apply expanded_String_of, Ha. }
    assert (Hclosed : shows false (closeMobileMenu nav)).
    { apply (toggle_shows true nav h m Hh Hm). }
    unfold handle. rewrite Hh, Hm.
    split; [|split; [|split; [|split; [|split]]]].
    + pose proof (toggle_shows false nav h m Hh Hm) as H.
      rewrite He in H. exact H.
    + exact Hclosed.
    + intros Ho. destruct (navOverlay nav); [exact Hclosed|congruence].
    + cbn [String.eqb Ascii.eqb Bool.eqb orb]. rewrite He.
      destruct b; [exact Hclosed|exact Hb].
    + cbn [String.eqb Ascii.eqb Bool.eqb orb]. rewrite He.
      destruct b; [exact Hclosed|exact Hb].
    + intros key H1 H2. apply String.eqb_neq in H1, H2.
      rewrite H1, H2. reflexivity.
Qed.

Lemma menu_shows_one_state_witness :
  shows true
    (toggleMobileMenu false
       (mkNav (Some (mkElement {["aria-expanded" := "false"]} ∅))
              (Some (mkElement ∅ {["nav-menu"]})) None))
  /\ shows false
       (handle NavLinkClick
          (mkNav (Some (mkElement {["aria-expanded" := "false"]} ∅))
                 (Some (mkElement ∅ {["nav-menu"]})) None)).
Proof.
  destruct (menu_shows_one_state
              (mkNav (Some (mkElement {["aria-expanded" := "false"]} ∅))
                     (Some (mkElement ∅ {["nav-menu"]})) None)
              _ _ eq_refl eq_refl) as [Htoggle _].
  split; [exact (Htoggle false)|].
  exact (Htoggle true).
Defined.

End StoreHoursFacts.

(* ===================================================================== *)
(** ** The counters of the statistics *)
(* ===================================================================== *)

Module StatsFacts.
Import Stats.

Lemma steps_fifty : steps = 50.
Proof. reflexivity. Qed.

Lemma stepIncrement_bounds (n : Z) :
  0 <= n ->
  0 <= stepIncrement n /\ n <= 50 * stepIncrement n
  /\ 50 * stepIncrement n < n + 50.
Proof.
  intros Hn. unfold stepIncrement. rewrite steps_fifty. unfold ceil_div.
  pose proof (Z.div_mod (- n) 50 ltac:(lia)) as Hd.
  pose proof (Z.mod_pos_bound (- n) 50 ltac:(lia)) as Hb.
  lia.
Qed.

(** What holds of the counter after [k] ticks. *)
Lemma ticks_invariant (n : Z) (isPlus : bool) (k : nat) :
  0 <= n ->
  let c := ticks k n isPlus in
  (running c = true
   /\ current c = Z.of_nat k * stepIncrement n
   /\ (k = 0%nat \/ Z.of_nat k * stepIncrement n < n)
   /\ shown c = (if Nat.eqb k 0 then None else Some (current c, false)))
  \/ (running c = false
      /\ current c = n
      /\ (1 <= k)%nat
      /\ n <= Z.of_nat k * stepIncrement n
      /\ shown c = Some (n, isPlus)).
Proof.
  intros Hn. destruct (stepIncrement_bounds n Hn) as (Hs0 & _).
  induction k as [|k IH]; cbn zeta.
  - left. repeat split; auto.
  - unfold ticks in *. rewrite Nat.iter_succ.
    set (c := Nat.iter k (tick n isPlus) start) in *. cbn zeta in IH.
    replace (Z.of_nat (S k) * stepIncrement n)
      with (Z.of_nat k * stepIncrement n + stepIncrement n) by lia.
    destruct IH as [(Hr & Hc & Hk & Hsh)|(Hr & Hc & Hk & Hge & Hsh)].
    + unfold tick. rewrite Hr, Hc.
      destruct (Z.geb_spec (Z.of_nat k * stepIncrement n + stepIncrement n) n)
        as [Hdone|Hmore]; cbn [negb running current shown].
      * right. rewrite Z.eqb_refl, andb_true_r. repeat split; auto; lia.
      * left. replace (Z.eqb _ n) with false
          by (symmetry; apply Z.eqb_neq; lia).
        rewrite andb_false_r. repeat split; auto.
    + unfold tick. rewrite Hr. right. repeat split; auto; lia.
Qed.

(** X25.  [countUp] counts from nothing to its target in equal steps and
    stops there: after [k] ticks the counter stands at [k] steps or at the
    target, whichever is less; it is never above the target and it never
    goes down; it has stopped, at the target, after 50 ticks at the
    latest; and the ["+"] of the original text is put back only with the
    final value. *)
Theorem countUp_reaches_target (n : Z) (isPlus : bool) (k : nat) :
  0 <= n ->
  current (ticks k n isPlus) = Z.min (Z.of_nat k * stepIncrement n) n
  /\ current (ticks k n isPlus) <= current (ticks (S k) n isPlus) <= n
  /\ (running (ticks k n isPlus) = false
      <-> (1 <= k)%nat /\ n <= Z.of_nat k * stepIncrement n)
  /\ ((50 <= k)%nat ->
      ticks k n isPlus = mkCounter n false (Some (n, isPlus)))
  /\ (forall v plus,
        shown (ticks k n isPlus) = Some (v, plus) ->
        v = current (ticks k n isPlus)
        /\ (plus = true -> isPlus = true /\ v = n)).
Proof.
  intros Hn. destruct (stepIncrement_bounds n Hn) as (Hs0 & Hs50 & _).
  pose proof (ticks_invariant n isPlus k Hn) as Hk.
  pose proof (ticks_invariant n isPlus (S k) Hn) as HSk.
  cbn zeta in Hk, HSk.
  replace (Z.of_nat (S k) * stepIncrement n)
    with (Z.of_nat k * stepIncrement n + stepIncrement n) in HSk by lia.
  destruct (ticks k n isPlus) as [cur run sh].
  destruct (ticks (S k) n isPlus) as [cur' run' sh'].
  cbn [current running shown] in *.
  split; [|split; [|split; [|split]]].
  - destruct Hk as [(_ & -> & [->|Hlt] & _)|(_ & -> & _ & Hge & _)]; lia.
  - destruct Hk as [(_ & -> & [->|Hlt] & _)|(_ & -> & _ & Hge & _)];
      destruct HSk as [(_ & -> & [?|?] & _)|(_ & -> & _ & ? & _)]; lia.
  - destruct Hk as [(-> & _ & [->|Hlt] & _)|(-> & _ & Hk1 & Hge & _)];
      split; try discriminate; try tauto; intros [? ?]; lia.
  - intros H50.
    destruct Hk as [(_ & _ & [->|Hlt] & _)|(-> & -> & _ & _ & ->)];
      [lia| |reflexivity].
    assert (50 * stepIncrement n <= Z.of_nat k * stepIncrement n)
      by (apply Z.mul_le_mono_nonneg_r; lia).
    lia.
  - intros v plus Hv.
    destruct Hk as [(_ & _ & _ & Hsh)|(_ & -> & _ & _ & Hsh)];
      rewrite Hsh in Hv.
    + destruct (Nat.eqb k 0); [discriminate Hv|].
      injection Hv as <- <-. split; [reflexivity|discriminate].
    + injection Hv as <- <-. split; [reflexivity|]. intros ->. auto.
Qed.

Lemma countUp_reaches_target_witness :
  ticks 50 1250 true = mkCounter 1250 false (Some (1250, true)).
Proof.
  apply (proj1 (proj2 (proj2 (proj2
           (countUp_reaches_target 1250 true 50 ltac:(lia))))));
    lia.
Defined.

End StatsFacts.

(* ===================================================================== *)
(** ** The key buffer *)
(* ===================================================================== *)

Module KonamiFacts.
Import Konami.

Lemma slice_last10_short {A} (l : list A) :
  (List.length l <= 10)%nat -> slice_last10 l = l.
Proof.
  intros H. unfold slice_last10.
  replace (List.length l - 10)%nat with 0%nat by lia. reflexivity.
Qed.

Lemma slice_last10_length {A} (l : list A) :
  (List.length (slice_last10 l) <= 10)%nat.
Proof. unfold slice_last10. rewrite List.length_skipn. lia. Qed.

Lemma slice_last10_app {A} (l r : list A) :
  slice_last10 (slice_last10 l ++ r) = slice_last10 (l ++ r).
Proof.
  destruct (Nat.le_gt_cases (List.length l) 10) as [H|H].
  - rewrite (slice_last10_short l H). reflexivity.
  - unfold slice_last10.
    rewrite !List.length_app, List.length_skipn.
    replace (List.length l - (List.length l - 10) + List.length r - 10)%nat
      with (List.length r) by lia.
    replace (List.length l + List.length r - 10)%nat
      with (List.length r + (List.length l - 10))%nat by lia.
    rewrite <- List.skipn_skipn. f_equal.
    rewrite List.skipn_app.
    replace (List.length l - 10 - List.length l)%nat with 0%nat by lia.
    reflexivity.
Qed.

Lemma pressed_buffer (keys buf : list string) :
  keys <> [] ->
  pressed keys buf
  = (slice_last10 (slice_last10 buf ++ keys),
     String.eqb (join (slice_last10 (slice_last10 buf ++ keys)))
                (join konamiSequence)).
Proof.
  revert buf. induction keys as [|key rest IH]; [congruence|].
  intros buf _. destruct rest as [|key' rest'].
  - cbn [pressed]. unfold keydown. rewrite slice_last10_app. reflexivity.
  - change (pressed (key :: key' :: rest') buf)
      with (pressed (key' :: rest') (fst (keydown key buf))).
    rewrite IH by discriminate. cbn [keydown fst].
    rewrite !slice_last10_app, <- !app_assoc. reflexivity.
Qed.

(** X26.  The listener keeps the last ten keys and no more, and typing
    the ten keys of the sequence calls [activateEasterEgg] at the last of
    them, whatever was typed before; a key calls it only if the texts of
    the last ten keys, put together, are the text of the sequence. *)
Theorem konami_last_ten (keys : list string) :
  fst (pressed keys []) = slice_last10 keys
  /\ (List.length (fst (pressed keys [])) <= 10)%nat
  /\ snd (pressed (keys ++ konamiSequence) []) = true
  /\ (snd (pressed keys []) = true ->
      join (slice_last10 keys) = join konamiSequence).
Proof.
  assert (Hall : forall ks, ks <> [] ->
            pressed ks []
            = (slice_last10 ks,
               String.eqb (join (slice_last10 ks)) (join konamiSequence))).
  { intros ks Hks. rewrite (pressed_buffer ks [] Hks). reflexivity. }
  assert (Hfst : fst (pressed keys []) = slice_last10 keys).
  { destruct keys as [|key rest]; [reflexivity|].
    rewrite Hall by discriminate. reflexivity. }
  split; [exact Hfst|]. split; [rewrite Hfst; apply slice_last10_length|].
  split.
  - rewrite Hall by (destruct keys; discriminate). cbn [snd].
    replace (slice_last10 (keys ++ konamiSequence)) with konamiSequence;
      [reflexivity|].
    unfold slice_last10. rewrite List.length_app.
    replace (List.length keys + List.length konamiSequence - 10)%nat
      with (List.length keys + 0)%nat by (cbn; lia).
    rewrite List.skipn_app, Nat.add_0_r, List.skipn_all.
    replace (List.length keys - List.length keys)%nat with 0%nat by lia.
    reflexivity.
  - destruct keys as [|key rest]; [discriminate|].
    rewrite Hall by discriminate. cbn [snd]. apply String.eqb_eq.
Qed.

Lemma konami_last_ten_witness :
  join (slice_last10 ("x" :: konamiSequence)) = join konamiSequence.
Proof.
  apply (proj2 (proj2 (proj2 (konami_last_ten ("x" :: konamiSequence))))).
  vm_compute. reflexivity.
Defined.

End KonamiFacts.
